(** * EfficientDet (efficientdet-tf): dataset ingestion, model call path and
      COCO evaluation boundary

    A shallow embedding of
      - [efficientdet/data/voc.py]          (module [Voc]),
      - [efficientdet/engine.py]            (module [Engine]),
      - [efficientdet/models/efficientdet.py] (module [Detector]),
    together with the handful of TensorFlow array operations these files
    use (module [Tf]).

    Tensors are nested lists.  A float tensor of shape [N, 4] is a list of
    [Box] rows.  Floating-point numbers are kept abstract behind the
    [Scalar] interface, so that every structural statement holds for any
    implementation of the arithmetic; exact rationals ([Q]) are the
    instance used to run the code on concrete inputs.  Code that can raise
    returns an [option], [None] standing for the exception. *)

From Stdlib Require Import ZArith QArith.
From stdpp Require Import base option list gmap strings.

Set Default Proof Using "Type".

(* ===================================================================== *)
(** * Numbers and boxes *)
(* ===================================================================== *)

(** The float operations the three source files perform. *)
Class Scalar (F : Type) := {
  of_int : Z → F;          (* implicit int -> float conversion *)
  fmul : F → F → F;        (* [*]  *)
  fsub : F → F → F;        (* [-]  *)
  fdiv : F → F → F;        (* [/]  *)
}.

#[export] Instance Q_Scalar : Scalar Q := {
  of_int := inject_Z;
  fmul := Qmult;
  fsub := Qminus;
  fdiv := Qdiv;
}.

(** One row of a [N, 4] tensor, in the internal (x1, y1, x2, y2) order:
    column 0 is [bx1], column 1 is [by1], column 2 is [bx2] and column 3
    is [by2]. *)
Record Box (F : Type) := mkBox { bx1 : F; by1 : F; bx2 : F; by2 : F }.
Arguments mkBox {F} _ _ _ _.
Arguments bx1 {F} _.
Arguments by1 {F} _.
Arguments bx2 {F} _.
Arguments by2 {F} _.

(* ===================================================================== *)
(** * TensorFlow array operations used by the sources *)
(* ===================================================================== *)

Module Tf.
Section Ops.
Context {A : Type}.

(** [boxes[:, k]] on a [N, 4] tensor. *)
Definition column (k : nat) (boxes : list (Box A)) : list A :=
  match k with
  | 0 => bx1 <$> boxes
  | 1 => by1 <$> boxes
  | 2 => bx2 <$> boxes
  | _ => by2 <$> boxes
  end.

(** [tf.split(boxes, 4, axis=1)]: the four [N, 1] columns. *)
Definition split4 (boxes : list (Box A)) : list A * list A * list A * list A :=
  (column 0 boxes, column 1 boxes, column 2 boxes, column 3 boxes).

(** [tf.concat([c1, c2, c3, c4], axis=1)] of four [N, 1] columns. *)
Fixpoint concat4 (c1 c2 c3 c4 : list A) : list (Box A) :=
  match c1, c2, c3, c4 with
  | a :: c1, b :: c2, c :: c3, d :: c4 => mkBox a b c d :: concat4 c1 c2 c3 c4
  | _, _, _, _ => []
  end.

(** [tf.stack([r1; ...; rk])] of [k] vectors of length [N] is the [k, N]
    matrix whose rows are the vectors. *)
Definition stack (rows : list (list A)) : list (list A) := rows.

(** [tf.transpose] of a 2-D tensor, followed by [.numpy().tolist()]. *)
Fixpoint transpose (m : list (list A)) : list (list A) :=
  match m with
  | [] => []
  | r :: rs =>
      match rs with
      | [] => (λ x, [x]) <$> r
      | _ :: _ => zip_with cons r (transpose rs)
      end
  end.

(** [tf.boolean_mask(t, mask)] along the first axis; the shapes must
    agree. *)
Fixpoint boolean_mask (t : list A) (mask : list bool) : option (list A) :=
  match t, mask with
  | [], [] => Some []
  | x :: t, m :: mask =>
      r ← boolean_mask t mask;
      Some (if m then x :: r else r)
  | _, _ => None
  end.

(** [tf.concat(ts, axis=0)]; an empty list of tensors is an error. *)
Definition concat0 (ts : list (list A)) : option (list A) :=
  match ts with
  | [] => None
  | _ => Some (concat ts)
  end.

(** Joining two [BATCH, _] tensors along axis 1. *)
Fixpoint append_rows (t1 t2 : list (list A)) : option (list (list A)) :=
  match t1, t2 with
  | [], [] => Some []
  | r1 :: t1, r2 :: t2 =>
      rest ← append_rows t1 t2;
      Some ((r1 ++ r2) :: rest)
  | _, _ => None
  end.

(** [tf.concat(ts, axis=1)] of [BATCH, _] tensors; the batch sizes must
    agree and the list must not be empty. *)
Fixpoint concat1 (ts : list (list (list A))) : option (list (list A)) :=
  match ts with
  | [] => None
  | t :: rest =>
      match rest with
      | [] => Some t
      | _ :: _ => r ← concat1 rest; append_rows t r
      end
  end.

(** Cutting a flat vector into rows of [k] entries. *)
Fixpoint rows_of (fuel k : nat) (v : list A) : option (list (list A)) :=
  match v with
  | [] => Some []
  | _ :: _ =>
      match fuel with
      | 0 => None
      | S fuel =>
          if decide (k = 0 ∨ length v < k) then None
          else r ← rows_of fuel k (drop k v); Some (take k v :: r)
      end
  end.

(** [tf.reshape(t, [batch_size, -1, k])] of a [batch_size, _] tensor. *)
Definition reshape3 (k : nat) (t : list (list A)) : option (list (list (list A))) :=
  mapM (λ row, rows_of (length row) k row) t.

(** [tf.expand_dims(t, 0)] and [tf.tile(t, [batch_size, 1, 1])]: a new
    leading axis of size one, repeated [batch_size] times. *)
Definition expand_dims0 (t : A) : list A := [t].
Definition tile0 (batch_size : nat) (t : list A) : list A :=
  concat (replicate batch_size t).
End Ops.

(** Python integers become tensor entries of at most 64 bits. *)
Definition int64 (z : Z) : Prop := (- 2 ^ 63 ≤ z < 2 ^ 63)%Z.

#[export] Instance int64_dec (z : Z) : Decision (int64 z) :=
  decide (- 2 ^ 63 ≤ z < 2 ^ 63)%Z.

(** [tf.stack(bbs)] of a list of 4-tuples of Python integers: the [N, 4]
    integer tensor of the tuples; an integer that does not fit 64 bits
    raises [ValueError]. *)
Definition stack_ints (bbs : list (Z * Z * Z * Z)) : option (list (Z * Z * Z * Z)) :=
  if decide (Forall (λ bb : Z * Z * Z * Z,
                       int64 bb.1.1.1 ∧ int64 bb.1.1.2 ∧ int64 bb.1.2 ∧ int64 bb.2)
                    bbs)
  then Some bbs else None.

(** ** [tf.data]

    A data set, and likewise a Python generator, makes its elements one at
    a time, when its consumer asks for the next one.  [Dataset A] is what
    an iteration from the start meets: an element followed by the rest of
    the data set, the end of the data, or the exception raised while the
    next element was being made. *)
Module data.
Inductive Dataset (A : Type) : Type :=
| Exhausted : Dataset A
| Raises : Dataset A
| Element : A → Dataset A → Dataset A.
Arguments Exhausted {A}.
Arguments Raises {A}.
Arguments Element {A} _ _.

Section Ops.
Context {A B : Type}.

(** The entries of a list, in order. *)
Fixpoint from_list (l : list A) : Dataset A :=
  match l with
  | [] => Exhausted
  | x :: l => Element x (from_list l)
  end.

(** [Dataset.list_files(pattern, shuffle=False)]: the matching files in
    listing order; it raises when no file matches the pattern. *)
Definition list_files (files : list A) : option (Dataset A) :=
  match files with
  | [] => None
  | _ :: _ => Some (from_list files)
  end.

(** [ds.map(f)] *)
Fixpoint map (f : A → B) (ds : Dataset A) : Dataset B :=
  match ds with
  | Exhausted => Exhausted
  | Raises => Raises
  | Element a rest => Element (f a) (map f rest)
  end.

(** [Dataset.zip((d1, d2))]: for every element [d1] is asked first and
    [d2] second, and the data set ends as soon as one of them does. *)
Fixpoint zip (d1 : Dataset A) (d2 : Dataset B) : Dataset (A * B) :=
  match d1 with
  | Exhausted => Exhausted
  | Raises => Raises
  | Element a rest1 =>
      match d2 with
      | Exhausted => Exhausted
      | Raises => Raises
      | Element b rest2 => Element (a, b) (zip rest1 rest2)
      end
  end.

(** Batching: consecutive groups of [batch_size] elements, the last one
    possibly shorter.  [cur] holds the elements of the batch that is being
    filled; an exception raised while it is filled loses them. *)
Fixpoint batch_from (batch_size : nat) (cur : list A) (ds : Dataset A)
  : Dataset (list A) :=
  match ds with
  | Exhausted =>
      match cur with
      | [] => Exhausted
      | _ :: _ => Element cur Exhausted
      end
  | Raises => Raises
  | Element a rest =>
      if decide (batch_size ≤ length (cur ++ [a]))
      then Element (cur ++ [a]) (batch_from batch_size [] rest)
      else batch_from batch_size (cur ++ [a]) rest
  end.

Definition batch (batch_size : nat) (ds : Dataset A) : Dataset (list A) :=
  batch_from batch_size [] ds.

(** [for x in ds] run to its end: the elements met, or [None] when the
    iteration raises. *)
Fixpoint iterate (ds : Dataset A) : option (list A) :=
  match ds with
  | Exhausted => Some []
  | Raises => None
  | Element a rest => l ← iterate rest; Some (a :: l)
  end.

(** The elements an iteration receives before it ends, and whether it ends
    with an exception. *)
Fixpoint yielded (ds : Dataset A) : list A :=
  match ds with
  | Exhausted | Raises => []
  | Element a rest => a :: yielded rest
  end.

Fixpoint raised (ds : Dataset A) : bool :=
  match ds with
  | Exhausted => false
  | Raises => true
  | Element _ rest => raised rest
  end.
End Ops.
End data.
End Tf.

(* ===================================================================== *)
(** * efficientdet/data/voc.py *)
(* ===================================================================== *)

Module Voc.

Definition IDX_2_LABEL : list string := ["bin"].

(** [{l: i for i, l in enumerate(table)}]: entries are inserted from left
    to right, a later entry overwriting an earlier one with the same
    key. *)
Definition enumerate {A} (l : list A) : list (Z * A) :=
  zip (seqZ 0 (Z.of_nat (length l))) l.

Definition dict_set (m : gmap string Z) (il : Z * string) : gmap string Z :=
  <[il.2 := il.1]> m.

Definition label_2_idx (table : list string) : gmap string Z :=
  foldl dict_set ∅ (enumerate table).

Definition LABEL_2_IDX : gmap string Z := label_2_idx IDX_2_LABEL.

(** The number of classes of the label table. *)
Definition num_classes : Z := Z.of_nat (length IDX_2_LABEL).

(** The fields [_read_voc_annot] reads from a parsed annotation file:
    [size/height], [size/width], and for every [object] its [name] and its
    [bndbox]. *)
Record VocObject := mkObject {
  name : string; xmin : Z; ymin : Z; xmax : Z; ymax : Z }.
Record VocAnnot := mkAnnot {
  size_height : Z; size_width : Z; objects : list VocObject }.

Section Pipeline.
Context {F : Type} `{Scalar F}.

(** Modelled from the spec: [bb_utils.normalize_bndboxes] lives in
    [efficientdet/utils/bndbox.py], which is not among the sources.  The
    specification (section 4.1) says that it divides x coordinates by the
    image width and y coordinates by the image height; [image_size] is
    (height, width). *)
Definition normalize_bndboxes (bbs : list (Z * Z * Z * Z)) (image_size : Z * Z)
  : list (Box F) :=
  let '(h, w) := image_size in
  (λ bb, let '(x1, y1, x2, y2) := bb in
         mkBox (fdiv (of_int x1) (of_int w)) (fdiv (of_int y1) (of_int h))
               (fdiv (of_int x2) (of_int w)) (fdiv (of_int y2) (of_int h)))
    <$> bbs.

(** The [for b in boxes] loop; an object whose name is not a key of
    [LABEL_2_IDX] raises [KeyError]. *)
Fixpoint read_objects (boxes : list VocObject)
    (bbs : list (Z * Z * Z * Z)) (labels : list Z)
  : option (list (Z * Z * Z * Z) * list Z) :=
  match boxes with
  | [] => Some (bbs, labels)
  | b :: boxes =>
      let bb := (xmin b, ymin b, xmax b, ymax b) in
      idx ← LABEL_2_IDX !! name b;
      read_objects boxes (bbs ++ [bb]) (labels ++ [idx])
  end.

Definition _read_voc_annot (annot : VocAnnot) : option (list Z * list (Box F)) :=
  let image_size := (size_height annot, size_width annot) in
  '(bbs, labels) ← read_objects (objects annot) [] [];
  bbs ← Tf.stack_ints bbs;
  let bbs := normalize_bndboxes bbs image_size in
  Some (labels, bbs).

(** The generator reads a file when its consumer asks for the next
    element, and not before. *)
Fixpoint _annot_gen (annot_file : list VocAnnot)
  : Tf.data.Dataset (list Z * list (Box F)) :=
  match annot_file with
  | [] => Tf.data.Exhausted
  | f :: annot_file =>
      match _read_voc_annot f with
      | Some annot => Tf.data.Element annot (_annot_gen annot_file)
      | None => Tf.data.Raises
      end
  end.

Definition _scale_boxes (labels : list Z) (boxes : list (Box F)) (to_size : Z * Z)
  : list Z * list (Box F) :=
  let '(h, w) := to_size in
  let '(x1, y1, x2, y2) := Tf.split4 boxes in
  let x1 := (λ v, fmul v (of_int w)) <$> x1 in
  let x2 := (λ v, fmul v (of_int w)) <$> x2 in
  let y1 := (λ v, fmul v (of_int h)) <$> y1 in
  let y2 := (λ v, fmul v (of_int h)) <$> y2 in
  (labels, Tf.concat4 x1 y1 x2 y2).

(** ** The [tf.data] pipeline *)

(** One batch: [images, (labels, bbs)]. *)
Record Batch (Image : Type) := mkBatch {
  images : list Image;
  labels : list (list Z);
  bbs : list (list (Box F)) }.
Arguments mkBatch {Image} _ _ _.
Arguments images {Image} _.
Arguments labels {Image} _.
Arguments bbs {Image} _.

(** Padding a variable-length component up to [n] entries. *)
Definition pad_to {A} (n : nat) (v : A) (l : list A) : list A :=
  l ++ replicate (n - length l) v.

(** [padded_batch] on one group of elements, with
    [padded_shapes=((h, w, 3), ((None,), (None, 4)))] and
    [padding_values=(0., (-1, 0.))]: labels are padded with -1 and boxes
    with rows of 0. up to the longest entry of the group.  Images
    already have the model input shape. *)
Definition pad_group {Image} (g : list (Image * (list Z * list (Box F))))
  : Batch Image :=
  let ls := (λ e, e.2.1) <$> g in
  let bs := (λ e, e.2.2) <$> g in
  let zero := of_int 0 in
  mkBatch (fst <$> g)
          (pad_to (max_list (length <$> ls)) (-1)%Z <$> ls)
          (pad_to (max_list (length <$> bs)) (mkBox zero zero zero zero) <$> bs).

(** [ds.padded_batch(batch_size, ...)]; a batch size of 0 is refused. *)
Definition padded_batch {Image} (batch_size : nat)
    (ds : Tf.data.Dataset (Image * (list Z * list (Box F))))
  : option (Tf.data.Dataset (Batch Image)) :=
  if decide (batch_size = 0) then None
  else Some (Tf.data.map pad_group (Tf.data.batch batch_size ds)).

(** Lines 136-162 of [build_dataset]: the data set [ds] before it is
    shuffled.  [annot_files] are the parsed annotation files in sorted
    order and [im_ds] the files that match the image pattern, in listing
    order, each given by its image as loaded, resized and normalised.
    [from_generator] only converts the labels and the boxes of
    [_annot_gen] to tensors. *)
Definition joined_ds {Image}
    (annot_files : list VocAnnot) (im_ds : list Image)
    (im_input_size : Z * Z) (batch_size : nat)
  : option (Tf.data.Dataset (Batch Image)) :=
  let scale_boxes := λ lb : list Z * list (Box F),
                       _scale_boxes lb.1 lb.2 im_input_size in
  im_ds ← Tf.data.list_files im_ds;
  let annot_ds := Tf.data.map scale_boxes (_annot_gen annot_files) in
  padded_batch batch_size (Tf.data.zip im_ds annot_ds).

(** [build_dataset] followed by one complete iteration over the data set
    it returns, as the loops [for ... in enumerate(dataset)] of
    [engine.py] perform it: the batches met, or [None] when the
    construction or the iteration raises.  [shuffle128] stands for
    [ds.shuffle(128)], which reorders the batches of a complete
    iteration. *)
Definition build_dataset {Image}
    (shuffle128 : list (Batch Image) → list (Batch Image))
    (annot_files : list VocAnnot) (im_ds : list Image)
    (im_input_size : Z * Z) (shuffle : bool) (batch_size : nat)
  : option (list (Batch Image)) :=
  ds ← joined_ds annot_files im_ds im_input_size batch_size;
  batches ← Tf.data.iterate ds;
  Some (if shuffle then shuffle128 batches else batches).
End Pipeline.

Arguments Batch : clear implicits.
Arguments mkBatch {F Image} _ _ _.
Arguments images {F Image} _.
Arguments labels {F Image} _.
Arguments bbs {F Image} _.
End Voc.

(** A [for] loop whose body may raise: the state is threaded from left to
    right and the first error aborts the loop. *)
Fixpoint for_each {S A : Type} (body : S → A → option S) (s : S) (l : list A)
  : option S :=
  match l with
  | [] => Some s
  | x :: l => s' ← body s x; for_each body s' l
  end.

(* ===================================================================== *)
(** * efficientdet/engine.py *)
(* ===================================================================== *)

Module Engine.
Section Evaluate.
Context {F : Type} `{Scalar F}.

(** A detection record
    [dict(image_id=.., category_id=.., bbox=.., score=..)]. *)
Record Result := mkResult {
  res_image_id : Z;
  res_category_id : Z;
  res_bbox : list F;
  res_score : F }.

(** A ground-truth annotation record. *)
Record Annot := mkAnnot {
  ann_id : Z;
  ann_image_id : Z;
  ann_bbox : list F;
  ann_iscrowd : Z;
  ann_area : F;
  ann_category_id : Z }.

(** An image record [{'id': .., 'height': .., 'width': ..}]. *)
Record ImageInfo := mkImageInfo {
  img_id : Z;
  img_height : Z;
  img_width : Z }.

(** A category record
    [dict(supercategory='instance', id=i, name=n)]. *)
Record Category := mkCategory {
  cat_supercategory : string;
  cat_id : Z;
  cat_name : string }.

(** Lines 79-82 and 99-104: the [N, 4] box tensor rewritten as a list of
    [x, y, width, height] rows. *)
Definition coco_bboxes_of (bboxes : list (Box F)) : list (list F) :=
  let b_h := zip_with fsub (Tf.column 3 bboxes) (Tf.column 1 bboxes) in
  let b_w := zip_with fsub (Tf.column 2 bboxes) (Tf.column 0 bboxes) in
  let coco_bboxes := Tf.stack [Tf.column 0 bboxes; Tf.column 1 bboxes; b_w; b_h] in
  Tf.transpose coco_bboxes.

Definition _COCO_result (image_id : Z) (labels : list Z)
    (bboxes : list (Box F)) (scores : list F) : list Result :=
  let coco_bboxes := coco_bboxes_of bboxes in
  (λ lbs, let '(l, b, s) := lbs in mkResult image_id l b s)
    <$> zip (zip labels coco_bboxes) scores.

Definition _COCO_gt_annot (image_id annot_id : Z) (image_shape : Z * Z)
    (labels : list Z) (bboxes : list (Box F))
  : option (ImageInfo * list Annot) :=
  let '(im_h, im_w) := image_shape in
  let b_h := zip_with fsub (Tf.column 3 bboxes) (Tf.column 1 bboxes) in
  let b_w := zip_with fsub (Tf.column 2 bboxes) (Tf.column 0 bboxes) in
  let areas := zip_with fmul b_h b_w in
  let coco_bboxes := coco_bboxes_of bboxes in
  let image := mkImageInfo image_id im_h im_w in
  '(annotations, _) ←
    for_each (λ (st : list Annot * Z) (i : nat),
                let '(annotations, annot_id) := st in
                bb ← coco_bboxes !! i;
                area ← areas !! i;
                l ← labels !! i;
                Some (annotations ++ [mkAnnot annot_id image_id bb 0 area l],
                      (annot_id + 1)%Z))
             ([], annot_id) (seq 0 (length coco_bboxes));
  Some (image, annotations).

(** The variables [evaluate] updates while it walks the dataset. *)
Record EvalState := mkEvalState {
  gt_images : list ImageInfo;
  gt_annotations : list Annot;
  results_coco : list Result;
  image_id : Z;
  annot_id : Z }.

Definition initial_state : EvalState := mkEvalState [] [] [] 1 1.

Section Loop.
Context {Image : Type}.
(** [images.shape[1:3]] *)
Variable image_hw : list Image → Z * Z.
(** [model(images, training=False)] returns boxes, categories and
    scores, one entry per image of the batch. *)
Variable model : list Image →
                 list (list (Box F)) * list (list Z) * list (list F).

(** Body of [for batch_idx in range(len(bboxes))], lines 150-170. *)
Definition eval_image (hw : Z * Z) (labels : list (list Z))
    (bbs : list (list (Box F)))
    (bboxes : list (list (Box F))) (categories : list (list Z))
    (scores : list (list F))
    (st : EvalState) (batch_idx : nat) : option EvalState :=
  gt_labels ← labels !! batch_idx;
  gt_boxes ← bbs !! batch_idx;
  let no_padding_mask := (λ l, negb (l =? -1)%Z) <$> gt_labels in
  gt_labels' ← Tf.boolean_mask gt_labels no_padding_mask;
  gt_boxes' ← Tf.boolean_mask gt_boxes no_padding_mask;
  '(im_annot, annots) ←
    _COCO_gt_annot (image_id st) (annot_id st) hw gt_labels' gt_boxes';
  let gt_annotations' := gt_annotations st ++ annots in
  let gt_images' := gt_images st ++ [im_annot] in
  pred_labels ← categories !! batch_idx;
  pred_boxes ← bboxes !! batch_idx;
  pred_scores ← scores !! batch_idx;
  let results_coco' :=
    if decide (0 < length pred_labels)
    then results_coco st
           ++ _COCO_result (image_id st) pred_labels pred_boxes pred_scores
    else results_coco st in
  Some (mkEvalState gt_images' gt_annotations' results_coco'
          (image_id st + 1)%Z
          (annot_id st + Z.of_nat (length annots))%Z).

(** Body of [for i, (images, (labels, bbs)) in enumerate(dataset)]. *)
Definition eval_batch (st : EvalState) (batch : Voc.Batch F Image)
  : option EvalState :=
  let '(bboxes, categories, scores) := model (Voc.images batch) in
  let hw := image_hw (Voc.images batch) in
  for_each (eval_image hw (Voc.labels batch) (Voc.bbs batch)
                       bboxes categories scores)
           st (seq 0 (length bboxes)).

(** [evaluate] up to the point where the two data sets are handed to
    pycocotools: the categories, the accumulated ground truth and the
    accumulated detection records. *)
Definition evaluate (dataset : list (Voc.Batch F Image))
    (class2idx : list (string * Z)) : option (list Category * EvalState) :=
  let categories :=
    (λ ni : string * Z, mkCategory "instance" ni.2 ni.1) <$> class2idx in
  st ← for_each eval_batch initial_state dataset;
  Some (categories, st).
End Loop.
End Evaluate.
End Engine.

(* ===================================================================== *)
(** * efficientdet/models/efficientdet.py *)
(* ===================================================================== *)

Module Detector.
Section Model.
Context {F : Type}.

(** The network parts and the geometry helpers are external to the three
    source files; the model is stated over any implementation of them. *)
Context {Image Features FeatureMap : Type}.

(** [config.AnchorsConfig()] *)
Record AnchorsConfig := mkAnchorsConfig {
  sizes : list F;
  ratios : list F;
  strides : list Z }.

(** What [efficientdet.utils] provides: the anchor generator class (its
    constructor arguments, then the feature-map shape it is called on) and
    the three box operations of the inference path.  Each of them may
    raise. *)
Class Utils := {
  AnchorGenerator : F → list F → Z → list nat → option (list (Box F));
  regress_bndboxes :
    list (list (Box F)) → list (list (list F)) → option (list (list (Box F)));
  clip_boxes : list (list (Box F)) → Z * Z → option (list (list (Box F)));
  nms : list (list (Box F)) → list (list (list F)) →
        option (list (list (Box F)) * list (list Z) * list (list F));
}.
Context `{Utils}.

(** The attributes of an [EfficientDet] instance that [call] reads. *)
Record EfficientDet := mkEfficientDet {
  num_classes : nat;
  backbone : list Image → bool → Features;
  neck : Features → bool → list FeatureMap;
  class_head : FeatureMap → list (list F);
  bb_head : FeatureMap → list (list F);
  anchors_gen : list (list nat → option (list (Box F))) }.

(** [__init__]: the network parts are built by [efficientdet.models];
    lines 54-58 build one anchor generator per pyramid level 3 to 7.
    [sizes[i - 3]] and [strides[i - 3]] raise [IndexError] when the
    configuration has fewer than five entries. *)
Definition init (anchors_config : AnchorsConfig) (num_classes : nat)
    (backbone : list Image → bool → Features)
    (neck : Features → bool → list FeatureMap)
    (class_head bb_head : FeatureMap → list (list F))
  : option EfficientDet :=
  gens ← mapM (λ i, size ← sizes anchors_config !! (i - 3);
                    stride ← strides anchors_config !! (i - 3);
                    Some (AnchorGenerator size (ratios anchors_config) stride))
              (seq 3 5);
  Some (mkEfficientDet num_classes backbone neck class_head bb_head gens).

(** What [call] returns: the raw head outputs when training, the final
    detections otherwise. *)
Inductive Output :=
| Raw (bboxes class_scores : list (list F))
| Detections (boxes : list (list (Box F))) (labels : list (list Z))
             (scores : list (list F)).

(** Lines 91-98: the anchors of every level, concatenated and tiled over
    the batch.  [shape0 f] is [f[0].shape]. *)
Definition batch_anchors (shape0 : FeatureMap → option (list nat))
    (self : EfficientDet) (bifnp_features : list FeatureMap)
    (batch_size : nat) : option (list (list (Box F))) :=
  anchors ← mapM (λ gf : (list nat → option (list (Box F))) * FeatureMap,
                    s ← shape0 gf.2; gf.1 s)
                 (zip (anchors_gen self) bifnp_features);
  anchors ← Tf.concat0 anchors;
  Some (Tf.tile0 batch_size (Tf.expand_dims0 anchors)).

(** [tf.reshape(t, [batch_size, -1, k])]; the middle dimension cannot be
    inferred when the batch is empty or [k] is zero. *)
Definition reshape_batch (k : nat) (t : list (list F))
  : option (list (list (list F))) :=
  match t with
  | [] => None
  | _ => if decide (k = 0) then None else Tf.reshape3 k t
  end.

(** [EfficientDet.call].  [image_hw images] is [images.shape[1:3]]. *)
Definition call (shape0 : FeatureMap → option (list nat))
    (image_hw : list Image → Z * Z)
    (self : EfficientDet) (images : list Image) (training : bool)
  : option Output :=
  let features := backbone self images training in
  let bifnp_features := neck self features training in
  let bboxes := bb_head self <$> bifnp_features in
  let class_scores := class_head self <$> bifnp_features in
  bboxes ← Tf.concat1 bboxes;
  class_scores ← Tf.concat1 class_scores;
  if training then Some (Raw bboxes class_scores)
  else
    let batch_size := length bboxes in
    anchors ← batch_anchors shape0 self bifnp_features batch_size;
    class_scores ← reshape_batch (num_classes self) class_scores;
    bboxes ← reshape_batch 4 bboxes;
    boxes ← regress_bndboxes anchors bboxes;
    boxes ← clip_boxes boxes (image_hw images);
    '(boxes, labels, scores) ← nms boxes class_scores;
    Some (Detections boxes labels scores).
End Model.
Arguments AnchorsConfig : clear implicits.
Arguments Utils : clear implicits.
Arguments EfficientDet : clear implicits.
Arguments Output : clear implicits.
End Detector.

(* ===================================================================== *)
(** * Vocabulary of the statements *)
(* ===================================================================== *)

Section Vocabulary.
Context {F : Type} `{Scalar F}.

(** One box with x scaled by the width and y by the height. *)
Definition scale_box (h w : Z) (b : Box F) : Box F :=
  mkBox (fmul (bx1 b) (of_int w)) (fmul (by1 b) (of_int h))
        (fmul (bx2 b) (of_int w)) (fmul (by2 b) (of_int h)).

(** The COCO form [x_min, y_min, width, height] of an internal box. *)
Definition coco_bbox (b : Box F) : list F :=
  [bx1 b; by1 b; fsub (bx2 b) (bx1 b); fsub (by2 b) (by1 b)].

(** The [bndbox] of an annotated object, as [_read_voc_annot] reads it. *)
Definition bndbox_of (b : Voc.VocObject) : Z * Z * Z * Z :=
  (Voc.xmin b, Voc.ymin b, Voc.xmax b, Voc.ymax b).

(** The padding box of [padded_batch]. *)
Definition zero_box : Box F :=
  mkBox (of_int 0) (of_int 0) (of_int 0) (of_int 0).
End Vocabulary.

Section EvaluationVocabulary.
Context {F : Type} `{Scalar F}.

(** Height times width of an internal box, as [_COCO_gt_annot] computes
    the area. *)
Definition box_area (b : Box F) : F :=
  fmul (fsub (by2 b) (by1 b)) (fsub (bx2 b) (bx1 b)).

(** The annotation records of the labelled boxes of one image, numbered
    from [annot_id] on. *)
Fixpoint gt_annots (image_id annot_id : Z) (labels : list Z)
    (bboxes : list (Box F)) : list Engine.Annot :=
  match labels, bboxes with
  | l :: labels, b :: bboxes =>
      Engine.mkAnnot annot_id image_id (coco_bbox b) 0 (box_area b) l
        :: gt_annots image_id (annot_id + 1) labels bboxes
  | _, _ => []
  end.

(** The detection record of one prediction. *)
Definition result_of (image_id : Z) (lbs : Z * Box F * F) : Engine.Result :=
  Engine.mkResult image_id lbs.1.1 (coco_bbox lbs.1.2) lbs.2.

(** The ground-truth entries of one image that are not padding. *)
Definition real_entries (gt_labels : list Z) (gt_boxes : list (Box F))
  : list (Z * Box F) :=
  filter (λ lb, lb.1 ≠ (-1)%Z) (zip gt_labels gt_boxes).

(** The state of [evaluate] after one image whose padded ground truth is
    [(gt_labels, gt_boxes)] and whose predictions are
    [(pred_labels, pred_boxes, pred_scores)]. *)
Definition image_step (hw : Z * Z) (gt_labels : list Z) (gt_boxes : list (Box F))
    (pred_labels : list Z) (pred_boxes : list (Box F)) (pred_scores : list F)
    (st : Engine.EvalState) : Engine.EvalState :=
  let real := real_entries gt_labels gt_boxes in
  let annots :=
    gt_annots (Engine.image_id st) (Engine.annot_id st) real.*1 real.*2 in
  Engine.mkEvalState
    (Engine.gt_images st ++ [Engine.mkImageInfo (Engine.image_id st) hw.1 hw.2])
    (Engine.gt_annotations st ++ annots)
    (Engine.results_coco st ++
       match pred_labels with
       | [] => []
       | _ :: _ => result_of (Engine.image_id st)
                     <$> zip (zip pred_labels pred_boxes) pred_scores
       end)
    (Engine.image_id st + 1)%Z
    (Engine.annot_id st + Z.of_nat (length annots))%Z.

Section Provenance.
Context {Image : Type}.
Variable model : list Image → list (list (Box F)) * list (list Z) * list (list F).
Variable dataset : list (Voc.Batch F Image).

(** The annotation record [a] was built from a ground-truth entry of the
    data set whose label is not the padding value. *)
Definition annot_from_dataset (a : Engine.Annot) : Prop :=
  ∃ batch k gt_labels gt_boxes j l b,
    batch ∈ dataset ∧
    Voc.labels batch !! k = Some gt_labels ∧
    Voc.bbs batch !! k = Some gt_boxes ∧
    gt_labels !! j = Some l ∧ gt_boxes !! j = Some b ∧
    l ≠ (-1)%Z ∧
    Engine.ann_category_id a = l ∧
    Engine.ann_bbox a = coco_bbox b.

(** The detection record [r] was built from a prediction of the model on
    a batch of the data set. *)
Definition result_from_model (r : Engine.Result) : Prop :=
  ∃ batch k pred_labels pred_boxes pred_scores j l b s,
    batch ∈ dataset ∧
    (model (Voc.images batch)).1.2 !! k = Some pred_labels ∧
    (model (Voc.images batch)).1.1 !! k = Some pred_boxes ∧
    (model (Voc.images batch)).2 !! k = Some pred_scores ∧
    pred_labels !! j = Some l ∧ pred_boxes !! j = Some b ∧
    pred_scores !! j = Some s ∧
    Engine.res_category_id r = l ∧
    Engine.res_bbox r = coco_bbox b ∧
    Engine.res_score r = s.

(** What holds of the state of [evaluate] between two images. *)
Definition eval_inv (st : Engine.EvalState) : Prop :=
  Engine.ann_id <$> Engine.gt_annotations st
    = seqZ 1 (Z.of_nat (length (Engine.gt_annotations st))) ∧
  Engine.annot_id st = (1 + Z.of_nat (length (Engine.gt_annotations st)))%Z ∧
  Engine.image_id st = (1 + Z.of_nat (length (Engine.gt_images st)))%Z ∧
  Forall annot_from_dataset (Engine.gt_annotations st) ∧
  Forall result_from_model (Engine.results_coco st).

(** A batch on which the loop of [evaluate] cannot raise: the model
    answers for no more images than the batch holds, with categories and
    scores for each of them, and every image has as many ground-truth
    labels as ground-truth boxes. *)
Definition batch_ok (batch : Voc.Batch F Image) : Prop :=
  let '(bboxes, categories, scores) := model (Voc.images batch) in
  length bboxes ≤ length (Voc.labels batch) ∧
  length bboxes ≤ length categories ∧
  length bboxes ≤ length scores ∧
  Forall2 (λ gt_labels gt_boxes, length gt_boxes = length gt_labels)
          (Voc.labels batch) (Voc.bbs batch).
End Provenance.
End EvaluationVocabulary.

(** An element of the un-batched data set of [build_dataset]: an image
    paired with the labels of some annotation file and its boxes, scaled
    to the model input size. *)
Definition pipeline_element {F} `{Scalar F} {Image}
    (annot_files : list Voc.VocAnnot) (im_ds : list Image)
    (im_input_size : Z * Z) (e : Image * (list Z * list (Box F))) : Prop :=
  e.1 ∈ im_ds ∧
  ∃ annot gl gb, annot ∈ annot_files ∧
                 Voc._read_voc_annot annot = Some (gl, gb) ∧
                 e.2 = (gl, scale_box im_input_size.1 im_input_size.2 <$> gb).

(** Coordinates of a rational box inside [0, w] x [0, h]. *)
Definition box_within (h w : Q) (b : Box Q) : Prop :=
  (0 <= bx1 b <= w)%Q ∧ (0 <= by1 b <= h)%Q ∧
  (0 <= bx2 b <= w)%Q ∧ (0 <= by2 b <= h)%Q.

(** An annotated object that lies inside its image. *)
Definition object_in_image (annot : Voc.VocAnnot) (b : Voc.VocObject) : Prop :=
  (0 ≤ Voc.xmin b ≤ Voc.size_width annot)%Z ∧
  (0 ≤ Voc.xmax b ≤ Voc.size_width annot)%Z ∧
  (0 ≤ Voc.ymin b ≤ Voc.size_height annot)%Z ∧
  (0 ≤ Voc.ymax b ≤ Voc.size_height annot)%Z.

Definition annot_in_image (annot : Voc.VocAnnot) : Prop :=
  (0 < Voc.size_width annot)%Z ∧ (0 < Voc.size_height annot)%Z ∧
  Forall (object_in_image annot) (Voc.objects annot).

Section DetectorVocabulary.
Context {F Image Features FeatureMap : Type}.

(** Lines 71-84 of [call]: the head outputs of all levels, joined along
    axis 1. *)
Definition raw_outputs (self : Detector.EfficientDet F Image Features FeatureMap)
    (images : list Image) (training : bool)
  : option (list (list F) * list (list F)) :=
  let bifnp_features :=
    Detector.neck self (Detector.backbone self images training) training in
  bboxes ← Tf.concat1 (Detector.bb_head self <$> bifnp_features);
  class_scores ← Tf.concat1 (Detector.class_head self <$> bifnp_features);
  Some (bboxes, class_scores).

(** The anchors of one pyramid level: generator [g] applied to the shape
    of the first batch element of feature map [f]. *)
Definition level_anchors (shape0 : FeatureMap → option (list nat))
    (g : list nat → option (list (Box F))) (f : FeatureMap)
  : option (list (Box F)) :=
  s ← shape0 f; g s.
End DetectorVocabulary.

(* ===================================================================== *)
(** * Concrete inputs *)
(* ===================================================================== *)

(** An annotation file of a 10 x 10 image with one object of class "bin"
    whose box is (1, 1, 5, 5), i.e. (0.1, 0.1, 0.5, 0.5) once normalised. *)
Definition annot0 : Voc.VocAnnot :=
  Voc.mkAnnot 10 10 [Voc.mkObject "bin" 1 1 5 5].

(** A second annotation file, with two objects. *)
Definition annot1 : Voc.VocAnnot :=
  Voc.mkAnnot 20 40 [Voc.mkObject "bin" 0 0 40 20; Voc.mkObject "bin" 10 5 30 15].

(** The batch [build_dataset] makes of [annot0] and [annot1] for a
    128 x 128 model input: the first image has one real box and one padding
    entry, the second has two real boxes. *)
Definition sample_batch : Voc.Batch Q nat :=
  Voc.mkBatch [7; 8]
    [[0; -1]; [0; 0]]%Z
    [[mkBox (128 # 10) (128 # 10) (640 # 10) (640 # 10); zero_box];
     [mkBox (0 # 40) (0 # 20) (5120 # 40) (2560 # 20);
      mkBox (1280 # 40) (640 # 20) (3840 # 40) (1920 # 20)]]%Q.

(** A detector that finds one box in the first image of a batch and
    nothing in the second. *)
Definition sample_model (images : list nat)
  : list (list (Box Q)) * list (list Z) * list (list Q) :=
  ([[mkBox 10 20 50 80]; []]%Q, [[0]; []]%Z, [[9 # 10]; []]%Q).

Definition sample_hw (images : list nat) : Z * Z := (128, 128)%Z.

(** The state of [evaluate] after the two images of [sample_batch]. *)
Definition sample_state : Engine.EvalState :=
  image_step (128, 128)%Z [0; 0]%Z
    [mkBox (0 # 40) (0 # 20) (5120 # 40) (2560 # 20);
     mkBox (1280 # 40) (640 # 20) (3840 # 40) (1920 # 20)]%Q
    [] [] []
    (image_step (128, 128)%Z [0; -1]%Z
       [mkBox (128 # 10) (128 # 10) (640 # 10) (640 # 10); zero_box]%Q
       [0%Z] [mkBox 10 20 50 80]%Q [9 # 10]%Q
       Engine.initial_state).

Definition sample_categories : list Engine.Category :=
  [Engine.mkCategory "instance" 0 "bin"].

(** ** A toy detector

    Stand-ins for the external parts, used only to run [Detector.call] on
    a concrete input; they are not the repository's implementations. *)

Definition toy_clamp (hi x : Q) : Q :=
  if Qle_bool x 0 then 0%Q else if Qle_bool hi x then hi else x.

Definition toy_shift (a : Box Q) (d : list Q) : Box Q :=
  match d with
  | [dx1; dy1; dx2; dy2] =>
      mkBox (bx1 a + dx1)%Q (by1 a + dy1)%Q (bx2 a + dx2)%Q (by2 a + dy2)%Q
  | _ => a
  end.

Definition toy_generator (size : Q) (ratios : list Q) (stride : Z)
    (shape : list nat) : option (list (Box Q)) :=
  Some [mkBox 0%Q 0%Q size size].

Definition toy_regress (anchors : list (list (Box Q))) (deltas : list (list (list Q)))
  : option (list (list (Box Q))) :=
  Some (zip_with (zip_with toy_shift) anchors deltas).

Definition toy_clip (boxes : list (list (Box Q))) (hw : Z * Z)
  : option (list (list (Box Q))) :=
  Some (fmap (M := list)
          (fmap (M := list)
             (λ b, mkBox (toy_clamp (inject_Z hw.2) (bx1 b))
                         (toy_clamp (inject_Z hw.1) (by1 b))
                         (toy_clamp (inject_Z hw.2) (bx2 b))
                         (toy_clamp (inject_Z hw.1) (by2 b))))
          boxes).

Definition toy_nms (boxes : list (list (Box Q))) (class_scores : list (list (list Q)))
  : option (list (list (Box Q)) * list (list Z) * list (list Q)) :=
  Some (boxes,
        fmap (M := list) (fmap (M := list) (λ _ : Box Q, 0%Z)) boxes,
        fmap (M := list) (fmap (M := list) (hd 0%Q)) class_scores).

#[export] Instance toy_utils : Detector.Utils Q := {
  Detector.AnchorGenerator := toy_generator;
  Detector.regress_bndboxes := toy_regress;
  Detector.clip_boxes := toy_clip;
  Detector.nms := toy_nms;
}.

Definition toy_config : Detector.AnchorsConfig Q :=
  Detector.mkAnchorsConfig [32; 64; 128; 256; 512]%Q [1]%Q [8; 16; 32; 64; 128]%Z.

(** A network over two images: five feature maps (one per level), each
    head predicting one anchor per level, with deltas (1, 1, 1, 1) and
    score 9/10 for the single class. *)
Definition toy_backbone (images : list nat) (training : bool) : list nat := images.
Definition toy_neck (features : list nat) (training : bool) : list (nat * nat) :=
  (λ level, (level, length features)) <$> seq 3 5.
Definition toy_bb_head (f : nat * nat) : list (list Q) :=
  replicate f.2 [1; 1; 1; 1]%Q.
Definition toy_class_head (f : nat * nat) : list (list Q) :=
  replicate f.2 [9 # 10]%Q.
Definition toy_shape0 (f : nat * nat) : option (list nat) := Some [1; 1; 64].

Definition toy_detector : option (Detector.EfficientDet Q nat (list nat) (nat * nat)) :=
  Detector.init toy_config 1 toy_backbone toy_neck toy_class_head toy_bb_head.

(** The instance [__init__] builds from the toy parts. *)
Definition toy_self : Detector.EfficientDet Q nat (list nat) (nat * nat) :=
  Detector.mkEfficientDet 1 toy_backbone toy_neck toy_class_head toy_bb_head
    [toy_generator 32 [1]%Q 8; toy_generator 64 [1]%Q 16;
     toy_generator 128 [1]%Q 32; toy_generator 256 [1]%Q 64;
     toy_generator 512 [1]%Q 128].

(** The anchors of the five levels of the toy detector, in one list. *)
Definition toy_flat_anchors : list (Box Q) :=
  [mkBox 0 0 32 32; mkBox 0 0 64 64; mkBox 0 0 128 128; mkBox 0 0 256 256;
   mkBox 0 0 512 512]%Q.

(** What the toy detector returns for two images of 128 x 128 pixels. *)
Definition toy_detections : Detector.Output Q :=
  Detector.Detections
    (replicate 2 [mkBox 1 1 33 33; mkBox 1 1 65 65; mkBox 1 1 128 128;
                  mkBox 1 1 128 128; mkBox 1 1 128 128]%Q)
    (replicate 2 [0; 0; 0; 0; 0]%Z)
    (replicate 2 (replicate 5 (9 # 10)%Q)).

(* ===================================================================== *)
(** * engine.py, continued: the end of [evaluate] and the training loop *)
(* ===================================================================== *)

(** Float addition, which the end of [evaluate] and the training loop
    use. *)
Class ScalarAdd (F : Type) := { fadd : F → F → F }.

#[export] Instance Q_ScalarAdd : ScalarAdd Q := { fadd := Qplus }.

Module EngineEnd.
Section Finish.
Context {F : Type} `{Scalar F} `{ScalarAdd F}.

(** A detection record after lines 181-188 have added the keys
    [segmentation], [area], [id] and [iscrowd] to it. *)
Record ResAnnot := mkResAnnot {
  ra_result : Engine.Result (F := F);
  ra_segmentation : list (list F);
  ra_area : F;
  ra_id : Z;
  ra_iscrowd : Z }.

(** Body of [for i, ann in enumerate(results_coco)].  Indexing [bb]
    raises [IndexError] on a bbox with fewer than four entries; a record
    made by [_COCO_result] has no [segmentation] key, so the key is always
    set. *)
Definition annotate_result (i : nat) (ann : Engine.Result) : option ResAnnot :=
  let bb := Engine.res_bbox ann in
  bb0 ← bb !! 0;
  bb2 ← bb !! 2;
  bb1 ← bb !! 1;
  bb3 ← bb !! 3;
  let '(x1, x2, y1, y2) := (bb0, fadd bb0 bb2, bb1, fadd bb1 bb3) in
  Some (mkResAnnot ann [[x1; y1; x1; y2; x2; y2; x2; y1]] (fmul bb2 bb3)
                   (Z.of_nat i + 1) 0).

Fixpoint annotate_results (i : nat) (results_coco : list Engine.Result)
  : option (list ResAnnot) :=
  match results_coco with
  | [] => Some []
  | ann :: rest =>
      a ← annotate_result i ann;
      r ← annotate_results (S i) rest;
      Some (a :: r)
  end.

(** A COCO data set: the [dataset] attribute of a [COCO] object. *)
Record CocoDataset (Ann : Type) := mkCocoDataset {
  ds_images : list Engine.ImageInfo;
  ds_categories : list Engine.Category;
  ds_annotations : list Ann }.
Arguments mkCocoDataset {Ann} _ _ _.
Arguments ds_images {Ann} _.
Arguments ds_categories {Ann} _.
Arguments ds_annotations {Ann} _.

(** [evaluate] up to the construction of [COCOeval(gtCOCO, resCOCO,
    'bbox')]: the ground-truth data set and the result data set. *)
Definition coco_eval_inputs {Image : Type} (image_hw : list Image → Z * Z)
    (model : list Image → list (list (Box F)) * list (list Z) * list (list F))
    (dataset : list (Voc.Batch F Image)) (class2idx : list (string * Z))
  : option (CocoDataset Engine.Annot * CocoDataset ResAnnot) :=
  '(categories, st) ← Engine.evaluate image_hw model dataset class2idx;
  let gt_coco :=
    mkCocoDataset (Engine.gt_images st) categories (Engine.gt_annotations st) in
  annotations ← annotate_results 0 (Engine.results_coco st);
  let res_coco := mkCocoDataset (Engine.gt_images st) categories annotations in
  Some (gt_coco, res_coco).
End Finish.
Arguments ResAnnot : clear implicits.
Arguments mkCocoDataset {Ann} _ _ _.
Arguments ds_images {Ann} _.
Arguments ds_categories {Ann} _.
Arguments ds_annotations {Ann} _.
End EngineEnd.

Module Train.
Section Epoch.
Context {F : Type} `{Scalar F} `{ScalarAdd F}.

(** The network, the automatic differentiation, the optimizer and the
    target assigner are external.  [Weights] stands for everything a
    training step mutates: the trainable variables of the model and the
    state of the optimizer. *)
Context {Weights Image Anchors Regressors Probas Grads RegTargets ClfTargets : Type}.
Variable forward : Weights → list Image → Regressors * Probas.
Variable gradient : (Weights → F) → Weights → Grads.
Variable apply_gradients : Grads → Weights → Weights.
Variable anchor_targets_bbox :
  Anchors → list Image → list (list (Box F)) → list (list Z) → Z →
  RegTargets * ClfTargets.

(** [LossFn]: called as [loss_fn(labels, clf_probas, regress_targets,
    regressors)], it returns [(reg_loss, clf_loss)]. *)
Definition LossFn : Type := ClfTargets → Probas → RegTargets → Regressors → F * F.

(** What the gradient tape records: both losses and their sum, as a
    function of the weights. *)
Definition losses_at (loss_fn : LossFn) (images : list Image)
    (regress_targets : RegTargets) (labels : ClfTargets) (w : Weights)
  : F * F * F :=
  let '(regressors, clf_probas) := forward w images in
  let '(reg_loss, clf_loss) := loss_fn labels clf_probas regress_targets regressors in
  let loss := fadd reg_loss clf_loss in
  (reg_loss, clf_loss, loss).

Definition _train_step (loss_fn : LossFn) (w : Weights) (images : list Image)
    (regress_targets : RegTargets) (labels : ClfTargets) : Weights * (F * F) :=
  let '(reg_loss, clf_loss, loss) :=
    losses_at loss_fn images regress_targets labels w in
  let grads :=
    gradient (λ w', (losses_at loss_fn images regress_targets labels w').2) w in
  (apply_gradients grads w, (reg_loss, clf_loss)).

(** [tf.metrics.Mean]: calling the metric adds a value, [result()] is the
    total divided by the count. *)
Record Mean := mkMean { total : F; count : Z }.
Definition mean_new : Mean := mkMean (of_int 0) 0.
Definition mean_update (m : Mean) (v : F) : Mean :=
  mkMean (fadd (total m) v) (count m + 1).
Definition mean_result (m : Mean) : F := fdiv (total m) (of_int (count m)).

(** One printed line: the epoch and the three running means. *)
Record LogLine := mkLogLine {
  log_epoch : Z; log_loss : F; log_clf_loss : F; log_reg_loss : F }.

Record TrainState := mkTrainState {
  weights : Weights;
  running_loss : Mean;
  running_clf_loss : Mean;
  running_reg_loss : Mean;
  printed : list LogLine }.

(** How [train_single_epoch] ends: it returns, or [(i + 1) % print_every]
    raises [ZeroDivisionError]; either way with the state reached. *)
Inductive Outcome :=
| Returned (s : TrainState)
| ZeroDivision (s : TrainState).

(** The [for i, (images, (labels, bbs)) in enumerate(dataset)] loop, from
    index [i] on. *)
Fixpoint train_loop (loss_fn : LossFn) (anchors : Anchors) (epoch num_classes : Z)
    (print_every : Z) (s : TrainState) (i : nat)
    (dataset : list (Voc.Batch F Image)) : Outcome :=
  match dataset with
  | [] => Returned s
  | batch :: dataset =>
      let '(target_reg, target_clf) :=
        anchor_targets_bbox anchors (Voc.images batch) (Voc.bbs batch)
                            (Voc.labels batch) num_classes in
      let '(w, (reg_loss, clf_loss)) :=
        _train_step loss_fn (weights s) (Voc.images batch) target_reg target_clf in
      let loss_mean := mean_update (running_loss s) (fadd reg_loss clf_loss) in
      let clf_mean := mean_update (running_clf_loss s) clf_loss in
      let reg_mean := mean_update (running_reg_loss s) reg_loss in
      let s' := mkTrainState w loss_mean clf_mean reg_mean (printed s) in
      if decide (print_every = 0%Z) then ZeroDivision s'
      else if decide (((Z.of_nat i + 1) `mod` print_every)%Z = 0%Z)
      then
        let line := mkLogLine epoch (mean_result loss_mean)
                              (mean_result clf_mean) (mean_result reg_mean) in
        train_loop loss_fn anchors epoch num_classes print_every
          (mkTrainState w loss_mean clf_mean reg_mean (printed s ++ [line]))
          (S i) dataset
      else train_loop loss_fn anchors epoch num_classes print_every s' (S i) dataset
  end.

Definition train_single_epoch (w : Weights) (anchors : Anchors)
    (dataset : list (Voc.Batch F Image)) (loss_fn : LossFn)
    (epoch num_classes : Z) (print_every : Z) : Outcome :=
  train_loop loss_fn anchors epoch num_classes print_every
    (mkTrainState w mean_new mean_new mean_new []) 0 dataset.
End Epoch.
End Train.

Section EvaluateVocabulary.
Context {F : Type} `{Scalar F} {Image : Type}.
Variable image_hw : list Image → Z * Z.
Variable model : list Image → list (list (Box F)) * list (list Z) * list (list F).
Variable dataset : list (Voc.Batch F Image).

(** A batch on which the loop of [evaluate] does not raise: for every
    image the model answers for, the batch has ground-truth labels and as
    many ground-truth boxes, and the model has categories and scores. *)
Definition batch_runs (batch : Voc.Batch F Image) : Prop :=
  ∀ k, k < length (model (Voc.images batch)).1.1 →
    ∃ gt_labels gt_boxes,
      Voc.labels batch !! k = Some gt_labels ∧
      Voc.bbs batch !! k = Some gt_boxes ∧
      length gt_boxes = length gt_labels ∧
      is_Some ((model (Voc.images batch)).1.2 !! k) ∧
      is_Some ((model (Voc.images batch)).2 !! k).

(** How the image ids of the state of [evaluate] hang together. *)
Definition image_ids_inv (st : Engine.EvalState (F := F)) : Prop :=
  Engine.img_id <$> Engine.gt_images st
    = seqZ 1 (Z.of_nat (length (Engine.gt_images st))) ∧
  Engine.image_id st = (1 + Z.of_nat (length (Engine.gt_images st)))%Z ∧
  Forall (λ a, (1 ≤ Engine.ann_image_id a < Engine.image_id st)%Z)
         (Engine.gt_annotations st) ∧
  Forall (λ r, (1 ≤ Engine.res_image_id r < Engine.image_id st)%Z)
         (Engine.results_coco st) ∧
  Forall (λ im, ∃ batch, batch ∈ dataset ∧
                  (Engine.img_height im, Engine.img_width im)
                  = image_hw (Voc.images batch))
         (Engine.gt_images st).
End EvaluateVocabulary.

(** An annotation file whose object is of a class that is not in the
    label table, and one whose box has a coordinate of 2^63. *)
Definition annot_cat : Voc.VocAnnot :=
  Voc.mkAnnot 10 10 [Voc.mkObject "cat" 1 1 5 5].

Definition annot_wide : Voc.VocAnnot :=
  Voc.mkAnnot 10 10 [Voc.mkObject "bin" 1 1 (2 ^ 63) 5].

(** ** A toy training problem

    Stand-ins for the external parts, used only to run the training loop on
    a concrete input: one rational weight, a network that returns it, a
    squared-error loss and a finite-difference gradient. *)
Definition toy_forward (w : Q) (images : list nat) : Q * Q := (w, w).
Definition toy_gradient (loss : Q → Q) (w : Q) : Q := (loss (w + 1) - loss w)%Q.
Definition toy_apply_gradients (g : Q) (w : Q) : Q := (w - g * (1 # 10))%Q.
Definition toy_targets (anchors : unit) (images : list nat)
    (bbs : list (list (Box Q))) (labels : list (list Z)) (num_classes : Z)
  : Q * Q := (inject_Z (Z.of_nat (length bbs)), 1%Q).
Definition toy_loss_fn (labels clf_probas regress_targets regressors : Q) : Q * Q :=
  ((regressors - regress_targets) * (regressors - regress_targets),
   (clf_probas - labels) * (clf_probas - labels))%Q.

(** The state after one training step on [sample_batch] from weight 0:
    both targets are 2 and 1, the losses 4 and 1, the finite-difference
    gradient of their sum is -4, the new weight 4/10. *)
Definition toy_first_step : Train.TrainState (F := Q) (Weights := Q) :=
  Train.mkTrainState (4 # 10)%Q (Train.mkMean 5%Q 1) (Train.mkMean 1%Q 1)
                     (Train.mkMean 4%Q 1) [].

Definition toy_epoch (print_every : Z) : Train.Outcome :=
  Train.train_single_epoch toy_forward toy_gradient toy_apply_gradients
    toy_targets 0%Q tt [sample_batch; sample_batch; sample_batch] toy_loss_fn
    1 1 print_every.
(* ===================================================================== *)
(** * Properties of the dataset pipeline (voc.py) *)
(* ===================================================================== *)

Module VocProofs.
Import Voc.

Section TfLemmas.
Context {A : Type}.

Lemma concat4_fmap {B} (f1 f2 f3 f4 : B → A) (l : list B) :
  Tf.concat4 (f1 <$> l) (f2 <$> l) (f3 <$> l) (f4 <$> l)
  = (λ b, mkBox (f1 b) (f2 b) (f3 b) (f4 b)) <$> l.
Proof. induction l as [|b l IH]; csimpl; [done | by rewrite IH]. Qed.
End TfLemmas.

Section LabelTable.
Implicit Types (table : list string) (m : gmap string Z).

Lemma zip_seqZ_cons {A} (start : Z) (x : A) (l : list A) :
  zip (seqZ start (Z.of_nat (length (x :: l)))) (x :: l)
  = (start, x) :: zip (seqZ (start + 1) (Z.of_nat (length l))) l.
Proof.
  rewrite length_cons, Nat2Z.inj_succ, seqZ_cons by lia.
  by rewrite Z.pred_succ, <- Z.add_1_r.
Qed.

Lemma fold_put_absent table : ∀ m start k,
  k ∉ table →
  foldl dict_set m (zip (seqZ start (Z.of_nat (length table))) table) !! k = m !! k.
Proof.
  induction table as [|x table IH]; intros m start k Hk; [done|].
  rewrite zip_seqZ_cons. simpl. rewrite IH by set_solver.
  unfold dict_set. simpl. apply lookup_insert_ne. set_solver.
Qed.

Lemma fold_put_lookup table : ∀ m start i k,
  NoDup table → table !! i = Some k →
  foldl dict_set m (zip (seqZ start (Z.of_nat (length table))) table) !! k
  = Some (start + Z.of_nat i)%Z.
Proof.
  induction table as [|x table IH]; intros m start i k Hnd Hi; [done|].
  rewrite zip_seqZ_cons. simpl. apply NoDup_cons in Hnd as [Hx Hnd].
  destruct i as [|i]; simplify_eq/=.
  - rewrite fold_put_absent by done. unfold dict_set. simpl.
    rewrite lookup_insert_eq. f_equal. lia.
  - rewrite (IH _ _ i k) by done. f_equal. lia.
Qed.

Lemma fold_put_inv table : ∀ m start k v,
  foldl dict_set m (zip (seqZ start (Z.of_nat (length table))) table) !! k = Some v →
  m !! k = Some v ∨ ∃ i, table !! i = Some k ∧ v = (start + Z.of_nat i)%Z.
Proof.
  induction table as [|x table IH]; intros m start k v Hv; [by left|].
  rewrite zip_seqZ_cons in Hv. simpl in Hv.
  apply IH in Hv as [Hv | (i & Hi & ->)].
  - unfold dict_set in Hv. simpl in Hv.
    destruct (decide (x = k)) as [->|Hne].
    + rewrite lookup_insert_eq in Hv. simplify_eq. right. exists 0. split; [done | lia].
    + rewrite lookup_insert_ne in Hv by done. by left.
  - right. exists (S i). split; [done | lia].
Qed.

Lemma label_2_idx_lookup table i l :
  NoDup table → table !! i = Some l → label_2_idx table !! l = Some (Z.of_nat i).
Proof. intros Hnd Hi. unfold label_2_idx, enumerate. by rewrite (fold_put_lookup _ _ _ i). Qed.

Lemma label_2_idx_inv table l idx :
  label_2_idx table !! l = Some idx →
  (0 ≤ idx < Z.of_nat (length table))%Z ∧ table !! Z.to_nat idx = Some l.
Proof.
  intros Hl. apply fold_put_inv in Hl as [Hl | (i & Hi & ->)]; [done|].
  pose proof (lookup_lt_Some _ _ _ Hi). split; [lia|].
  by rewrite Z.add_0_l, Nat2Z.id.
Qed.
End LabelTable.

Section Data.
Context {A B : Type}.
Implicit Types (ds : Tf.data.Dataset A) (l cur g : list A).

Lemma iterate_Some ds l :
  Tf.data.iterate ds = Some l
  ↔ Tf.data.raised ds = false ∧ Tf.data.yielded ds = l.
Proof.
  revert l. induction ds as [| |a rest IH]; intros l; simpl.
  - split; [by intros [= <-] | by intros [_ <-]].
  - split; [done | by intros [? _]].
  - destruct (Tf.data.iterate rest) as [l'|]; simpl.
    + destruct (proj1 (IH l') eq_refl) as [-> <-].
      split; [by intros [= <-] | by intros [_ <-]].
    + split; [done|]. intros [Hr <-].
      by pose proof (proj2 (IH (Tf.data.yielded rest)) (conj Hr eq_refl)).
Qed.

Lemma yielded_from_list l : Tf.data.yielded (Tf.data.from_list l) = l.
Proof. induction l as [|x l IH]; simpl; [done | by rewrite IH]. Qed.

Lemma raised_from_list l : Tf.data.raised (Tf.data.from_list l) = false.
Proof. by induction l. Qed.

Lemma yielded_map (f : A → B) ds :
  Tf.data.yielded (Tf.data.map f ds) = f <$> Tf.data.yielded ds.
Proof. induction ds as [| |a rest IH]; simpl; [done..|]. by rewrite IH. Qed.

Lemma raised_map (f : A → B) ds :
  Tf.data.raised (Tf.data.map f ds) = Tf.data.raised ds.
Proof. by induction ds. Qed.

Lemma yielded_zip ds : ∀ d2 : Tf.data.Dataset B,
  Tf.data.yielded (Tf.data.zip ds d2)
  = zip (Tf.data.yielded ds) (Tf.data.yielded d2).
Proof.
  induction ds as [| |a rest IH]; intros [| |b rest2]; simpl; try done.
  by rewrite IH.
Qed.

Lemma raised_zip ds : ∀ d2 : Tf.data.Dataset B,
  Tf.data.raised (Tf.data.zip ds d2)
  = if decide (length (Tf.data.yielded ds) ≤ length (Tf.data.yielded d2))
    then Tf.data.raised ds else Tf.data.raised d2.
Proof.
  induction ds as [| |a rest IH]; intros [| |b rest2]; simpl; try done.
  rewrite IH. repeat case_decide; done || lia.
Qed.

Lemma list_files_Some (files : list A) ds :
  Tf.data.list_files files = Some ds ↔ files ≠ [] ∧ ds = Tf.data.from_list files.
Proof.
  unfold Tf.data.list_files. destruct files as [|x files].
  - split; [done | by intros [? _]].
  - split; [by intros [= <-] | by intros [_ ->]].
Qed.

Lemma raised_batch_from n ds : ∀ cur,
  Tf.data.raised (Tf.data.batch_from n cur ds) = Tf.data.raised ds.
Proof.
  induction ds as [| |a rest IH]; intros cur; simpl; [by destruct cur | done |].
  case_decide; simpl; apply IH.
Qed.

(** Batch [i] holds the elements [i * n], ..., [i * n + n - 1]; a batch
    that cannot be filled is delivered only at the end of the data. *)
Lemma batch_from_lookup n ds : ∀ cur i g,
  0 < n → length cur < n →
  Tf.data.yielded (Tf.data.batch_from n cur ds) !! i = Some g
  ↔ g = take n (drop (i * n) (cur ++ Tf.data.yielded ds)) ∧
    if Tf.data.raised ds
    then (i + 1) * n ≤ length (cur ++ Tf.data.yielded ds)
    else i * n < length (cur ++ Tf.data.yielded ds).
Proof.
  induction ds as [| |a rest IH]; intros cur i g Hn Hcur; simpl.
  - rewrite app_nil_r. destruct cur as [|c cur']; simpl.
    + split; [done | intros [_ ?]; lia].
    + split.
      * intros Hi. destruct i as [|i]; [|done]. simplify_eq/=.
        split; [|lia]. rewrite take_ge; [done | simpl in *; lia].
      * intros [-> Hi]. assert (i = 0) as -> by (simpl in *; nia).
        simpl. rewrite take_ge; [done | simpl in *; lia].
  - rewrite app_nil_r. split; [done | intros [_ ?]; nia].
  - case_decide as Hfull; simpl.
    + rewrite length_app in Hfull. simpl in Hfull.
      assert (length (cur ++ [a]) = n) as Hlen by (rewrite length_app; simpl; lia).
      replace (cur ++ a :: Tf.data.yielded rest)
        with ((cur ++ [a]) ++ Tf.data.yielded rest) by (by rewrite <- app_assoc).
      destruct i as [|i]; simpl.
      * rewrite drop_0, take_app_length' by done. split.
        -- intros [= <-]. split; [done|].
           rewrite (length_app (cur ++ [a])), Hlen.
           destruct (Tf.data.raised rest); lia.
        -- by intros [-> _].
      * rewrite (IH [] i g Hn) by (simpl; lia). simpl.
        replace (n + i * n) with (length (cur ++ [a]) + i * n) by lia.
        rewrite drop_app_add, (length_app (cur ++ [a])), Hlen.
        destruct (Tf.data.raised rest);
          (split; intros [-> ?]; (split; [done | simpl in *; lia])).
    + rewrite length_app in Hfull. simpl in Hfull.
      rewrite (IH (cur ++ [a]) i g Hn) by (rewrite length_app; simpl; lia).
      by rewrite <- app_assoc.
Qed.
End Data.

Section Reading.
Context {F : Type} `{Scalar F}.

Lemma read_objects_inv boxes : ∀ bbs labels bbs' labels',
  read_objects boxes bbs labels = Some (bbs', labels') →
  bbs' = bbs ++ (bndbox_of <$> boxes) ∧
  ∃ idxs, labels' = labels ++ idxs ∧
          Forall2 (λ b idx, LABEL_2_IDX !! name b = Some idx) boxes idxs.
Proof.
  induction boxes as [|b boxes IH]; intros bbs labels bbs' labels' Hr.
  - simplify_eq/=. rewrite !app_nil_r. split; [done|].
    exists []. rewrite app_nil_r. split; [done | constructor].
  - cbn [read_objects] in Hr.
    destruct (LABEL_2_IDX !! name b) as [idx|] eqn:Hidx; simplify_eq/=.
    apply IH in Hr as (-> & idxs & -> & Hall).
    rewrite <- !app_assoc. split; [done|].
    exists (idx :: idxs). split; [done|]. by constructor.
Qed.

Lemma read_voc_annot_inv (annot : VocAnnot) labels (bbs : list (Box F)) :
  _read_voc_annot annot = Some (labels, bbs) →
  Forall2 (λ b idx, LABEL_2_IDX !! name b = Some idx) (objects annot) labels ∧
  bbs = normalize_bndboxes (bndbox_of <$> objects annot)
          (size_height annot, size_width annot).
Proof.
  unfold _read_voc_annot. intros Hr.
  destruct (read_objects (objects annot) [] []) as [[bbs0 labels0]|] eqn:Hobj;
    simplify_eq/=.
  unfold Tf.stack_ints in Hr. case_decide; simplify_eq/=.
  apply read_objects_inv in Hobj as (-> & idxs & -> & Hall). done.
Qed.

Lemma read_voc_annot_length (annot : VocAnnot) labels (bbs : list (Box F)) :
  _read_voc_annot annot = Some (labels, bbs) →
  length labels = length (objects annot) ∧ length bbs = length (objects annot).
Proof.
  intros [Hall ->]%read_voc_annot_inv. split.
  - symmetry. by eapply Forall2_length.
  - unfold normalize_bndboxes. by rewrite !length_fmap.
Qed.

Lemma annot_gen_lookup annot_files : ∀ k (x : list Z * list (Box F)),
  Tf.data.yielded (_annot_gen annot_files) !! k = Some x →
  ∃ annot, annot_files !! k = Some annot ∧ _read_voc_annot annot = Some x.
Proof.
  induction annot_files as [|f files IH]; intros k x Hk; [done|].
  cbn [_annot_gen] in Hk.
  destruct (_read_voc_annot f) as [y|] eqn:Hf; [|done].
  destruct k as [|k]; simplify_eq/=; [by exists f | by apply IH].
Qed.

Lemma annot_gen_length_le annot_files :
  length (Tf.data.yielded (_annot_gen (F := F) annot_files)) ≤ length annot_files.
Proof.
  induction annot_files as [|f files IH]; [done|]. cbn [_annot_gen].
  destruct (_read_voc_annot f); simpl; lia.
Qed.

Lemma annot_gen_raised annot_files :
  Tf.data.raised (_annot_gen (F := F) annot_files) = true →
  ∃ annot,
    annot_files !! length (Tf.data.yielded (_annot_gen (F := F) annot_files))
      = Some annot ∧
    _read_voc_annot (F := F) annot = None.
Proof.
  induction annot_files as [|f files IH]; [done|]. cbn [_annot_gen].
  destruct (_read_voc_annot f) eqn:Hf; simpl; [done | by exists f].
Qed.

Lemma annot_gen_not_raised annot_files :
  Tf.data.raised (_annot_gen (F := F) annot_files) = false →
  length (Tf.data.yielded (_annot_gen (F := F) annot_files)) = length annot_files.
Proof.
  induction annot_files as [|f files IH]; [done|]. cbn [_annot_gen].
  destruct (_read_voc_annot f); simpl; [|done]. intros ?%IH. lia.
Qed.
End Reading.

Section Dataset.
Context {F : Type} `{Scalar F} {Image : Type}.
Implicit Types (batch : Batch F Image) (g : list (Image * (list Z * list (Box F)))).

Lemma scale_boxes_eq (labels : list Z) (boxes : list (Box F)) (h w : Z) :
  _scale_boxes labels boxes (h, w) = (labels, scale_box h w <$> boxes).
Proof.
  unfold _scale_boxes, Tf.split4, Tf.column. f_equal.
  rewrite <- !list_fmap_compose. apply concat4_fmap.
Qed.

(** The data set of lines 158-162 in terms of its un-batched elements:
    the images zipped with the scaled annotations that were read. *)
Lemma joined_ds_inv annot_files (im_ds : list Image) im_input_size batch_size ds :
  joined_ds annot_files im_ds im_input_size batch_size = Some ds →
  im_ds ≠ [] ∧ 0 < batch_size ∧
  Tf.data.raised ds
  = (if decide (length im_ds
                ≤ length (Tf.data.yielded (_annot_gen (F := F) annot_files)))
     then false else Tf.data.raised (_annot_gen (F := F) annot_files)) ∧
  ∀ i batch,
    Tf.data.yielded ds !! i = Some batch
    ↔ batch
      = pad_group
          (take batch_size
             (drop (i * batch_size)
                (zip im_ds ((λ lb, _scale_boxes lb.1 lb.2 im_input_size)
                              <$> Tf.data.yielded (_annot_gen annot_files))))) ∧
      if Tf.data.raised ds
      then (i + 1) * batch_size
           ≤ length im_ds
               `min` length (Tf.data.yielded (_annot_gen (F := F) annot_files))
      else i * batch_size
           < length im_ds
               `min` length (Tf.data.yielded (_annot_gen (F := F) annot_files)).
Proof.
  unfold joined_ds, padded_batch. intros Hj.
  destruct (Tf.data.list_files im_ds) as [ims|] eqn:Hfiles; [|done].
  apply list_files_Some in Hfiles as [Hne ->]. cbn [mbind option_bind] in Hj.
  case_decide as Hbs; [done|]. injection Hj as <-.
  rewrite raised_map. unfold Tf.data.batch. rewrite raised_batch_from.
  rewrite raised_zip, yielded_from_list, raised_from_list, yielded_map,
    raised_map, length_fmap.
  split_and!; [done | lia | done |].
  intros i batch. rewrite yielded_map, list_lookup_fmap.
  pose proof (batch_from_lookup batch_size
                (Tf.data.zip (Tf.data.from_list im_ds)
                   (Tf.data.map (λ lb, _scale_boxes lb.1 lb.2 im_input_size)
                      (_annot_gen annot_files))) [] i) as Hlook.
  rewrite app_nil_l, raised_zip, yielded_zip, yielded_from_list,
    raised_from_list, yielded_map, raised_map in Hlook.
  rewrite length_zip_with, !length_fmap in Hlook.
  split.
  - intros (g & Hg & ->)%fmap_Some.
    apply Hlook in Hg as [-> Hcond]; [|lia|simpl; lia]. done.
  - intros [-> Hcond].
    rewrite (proj2 (Hlook _ ltac:(lia) ltac:(simpl; lia)) (conj eq_refl Hcond)).
    done.
Qed.

Lemma build_dataset_inv shuffle128 annot_files im_ds im_input_size shuffle
    batch_size ds :
  (∀ l, shuffle128 l ≡ₚ l) →
  build_dataset shuffle128 annot_files im_ds im_input_size shuffle batch_size
    = Some ds →
  ∀ batch, batch ∈ ds →
    ∃ g, batch = pad_group g ∧ g ≠ [] ∧ length g ≤ batch_size ∧
         Forall (pipeline_element annot_files im_ds im_input_size) g.
Proof.
  intros Hperm Hb batch Hin. unfold build_dataset in Hb.
  destruct (joined_ds _ _ _ _) as [jds|] eqn:Hj; simplify_eq/=.
  destruct (Tf.data.iterate jds) as [batches|] eqn:Hit; simplify_eq/=.
  apply iterate_Some in Hit as [Hr <-].
  assert (batch ∈ Tf.data.yielded jds) as Hin'.
  { destruct shuffle; [|done]. by rewrite <- (Hperm _). }
  apply list_elem_of_lookup in Hin' as [i Hi].
  apply joined_ds_inv in Hj as (_ & Hbs & _ & Hlook).
  apply Hlook in Hi as [-> Hcond]. rewrite Hr in Hcond.
  set (l := zip im_ds _) in *.
  assert (length l
          = length im_ds `min` length (Tf.data.yielded (_annot_gen (F := F) annot_files)))
    as Hl by (unfold l; by rewrite length_zip_with, length_fmap).
  eexists. split; [done|]. split_and!.
  - intros Hnil%(f_equal length). rewrite length_take, length_drop in Hnil.
    simpl in Hnil. lia.
  - rewrite length_take. lia.
  - apply Forall_forall. intros [im [ls bs]] He.
    apply subseteq_take, subseteq_drop in He. split; [by eapply elem_of_zip_l|].
    apply elem_of_zip_r, list_elem_of_fmap in He as ([gl gb] & Heq & Hr').
    apply list_elem_of_lookup in Hr' as [k Hk].
    apply annot_gen_lookup in Hk as (annot & Hannot & Hread).
    exists annot, gl, gb. split_and!; [by eapply list_elem_of_lookup_2 | done |].
    destruct im_input_size as [h w]. by rewrite scale_boxes_eq in Heq.
Qed.

Lemma pad_group_labels g :
  labels (pad_group g)
  = pad_to (max_list (length <$> ((λ e, e.2.1) <$> g))) (-1)%Z <$> ((λ e, e.2.1) <$> g).
Proof. done. Qed.

Lemma pad_group_bbs g :
  bbs (pad_group g)
  = pad_to (max_list (length <$> ((λ e, e.2.2) <$> g))) zero_box <$> ((λ e, e.2.2) <$> g).
Proof. done. Qed.

Lemma pipeline_element_lengths annot_files im_ds im_input_size g :
  Forall (pipeline_element annot_files im_ds im_input_size) g →
  length <$> ((λ e, e.2.2) <$> g) = length <$> ((λ e, e.2.1) <$> g).
Proof.
  intros Hall. rewrite <- !list_fmap_compose. apply Forall_fmap_ext_1.
  eapply Forall_impl; [exact Hall|].
  intros [im [ls bs]] (_ & annot & gl & gb & _ & Hread & Heq). simplify_eq/=.
  apply read_voc_annot_length in Hread as [-> <-]. by rewrite length_fmap.
Qed.

Lemma pad_to_length {A} (n : nat) (v : A) (l : list A) :
  length l ≤ n → length (pad_to n v l) = n.
Proof. intros. unfold pad_to. rewrite length_app, length_replicate. lia. Qed.
End Dataset.

Lemma batch_structure {F} `{Scalar F} {Image}
    (shuffle128 : list (Batch F Image) → list (Batch F Image))
    annot_files (im_ds : list Image) im_input_size shuffle batch_size ds batch :
  (∀ l, shuffle128 l ≡ₚ l) →
  build_dataset shuffle128 annot_files im_ds im_input_size shuffle batch_size
    = Some ds →
  batch ∈ ds →
  length (labels batch) = length (images batch) ∧
  length (bbs batch) = length (images batch) ∧
  0 < length (images batch) ≤ batch_size ∧
  ∃ n : nat,
    n ∈ length <$> labels batch ∧
    ∀ k ls bs, labels batch !! k = Some ls → bbs batch !! k = Some bs →
      length ls = n ∧ length bs = n ∧
      ∃ annot gl gb,
        annot ∈ annot_files ∧ _read_voc_annot annot = Some (gl, gb) ∧
        ls = gl ++ replicate (n - length gl) (-1)%Z ∧
        bs = (scale_box im_input_size.1 im_input_size.2 <$> gb)
               ++ replicate (n - length gb) zero_box.
Proof.
  intros Hperm Hb Hin.
  destruct (build_dataset_inv _ _ _ _ _ _ _ Hperm Hb _ Hin)
    as (g & -> & Hne & Hlen & Hall).
  rewrite pad_group_labels, pad_group_bbs.
  rewrite (pipeline_element_lengths _ _ _ _ Hall).
  set (n := max_list (length <$> ((λ e, e.2.1) <$> g))).
  cbn [images pad_group]. rewrite !length_fmap.
  split_and!; [done | done | by destruct g; simpl; [|lia] | done |].
  exists n. split.
  - destruct g as [|e g']; [done|].
    apply list_elem_of_fmap. exists (pad_to n (-1)%Z e.2.1). split.
    + symmetry. apply pad_to_length, max_list_elem_of_le.
      subst n. rewrite !fmap_cons. apply elem_of_cons. by left.
    + rewrite !fmap_cons. apply elem_of_cons. by left.
  - intros k ls bs Hls Hbs.
    rewrite !list_lookup_fmap in Hls. rewrite !list_lookup_fmap in Hbs.
    destruct (g !! k) as [[im [ls0 bs0]]|] eqn:Hk; simplify_eq/=.
    pose proof (Forall_lookup_1 _ _ _ _ Hall Hk)
      as (_ & annot & gl & gb & Hannot & Hread & Heq). simplify_eq/=.
    destruct (read_voc_annot_length _ _ _ Hread) as [Hl1 Hl2].
    assert (length gl ≤ n) as Hle.
    { apply max_list_elem_of_le, list_elem_of_fmap. exists gl. split; [done|].
      apply list_elem_of_fmap. exists (im, (gl, scale_box im_input_size.1 im_input_size.2 <$> gb)).
      split; [done|]. by eapply list_elem_of_lookup_2. }
    split_and!.
    + by apply pad_to_length.
    + apply pad_to_length. rewrite length_fmap. lia.
    + exists annot, gl, gb. split_and!; [done..|].
      unfold pad_to. by rewrite length_fmap.
Qed.

(** C7: [_scale_boxes] multiplies the x1 and x2 coordinates of every box by
    the target width and the y1 and y2 coordinates by the target height,
    component-wise, and returns the labels unchanged. *)
Theorem scale_boxes_spec {F} `{Scalar F} (labels : list Z) (boxes : list (Box F))
    (h w : Z) :
  (_scale_boxes labels boxes (h, w)).1 = labels ∧
  (_scale_boxes labels boxes (h, w)).2
  = (λ b, mkBox (fmul (bx1 b) (of_int w)) (fmul (by1 b) (of_int h))
                (fmul (bx2 b) (of_int w)) (fmul (by2 b) (of_int h))) <$> boxes.
Proof. by rewrite scale_boxes_eq. Qed.

Lemma IDX_2_LABEL_NoDup : NoDup IDX_2_LABEL.
Proof. apply NoDup_singleton. Qed.

Lemma read_labels_in_range {F} `{Scalar F} annot labels (bbs : list (Box F)) :
  _read_voc_annot annot = Some (labels, bbs) →
  Forall (λ l, (0 ≤ l < num_classes)%Z) labels.
Proof.
  intros [Hall _]%read_voc_annot_inv.
  apply Forall_forall. intros l Hl.
  apply list_elem_of_lookup in Hl as [i Hi].
  destruct (Forall2_lookup_r _ _ _ _ _ Hall Hi) as (b & _ & Hb).
  by apply label_2_idx_inv in Hb as [? _].
Qed.

(** C10: [LABEL_2_IDX] is the positional inverse of [IDX_2_LABEL];
    [_read_voc_annot] labels every object through this table, so the label
    of every real object lies in [0, num_classes), and the only other label
    the data set emits is the padding value -1. *)
Theorem label_table_inverse :
  (∀ i l, IDX_2_LABEL !! i = Some l → LABEL_2_IDX !! l = Some (Z.of_nat i)) ∧
  (∀ F (S : Scalar F) annot labels (bbs : list (Box F)),
     _read_voc_annot annot = Some (labels, bbs) →
     Forall2 (λ b l, LABEL_2_IDX !! name b = Some l ∧ (0 ≤ l < num_classes)%Z ∧
                     IDX_2_LABEL !! Z.to_nat l = Some (name b))
             (objects annot) labels) ∧
  (∀ F (S : Scalar F) Image
     (shuffle128 : list (Batch F Image) → list (Batch F Image))
     annot_files (im_ds : list Image) im_input_size shuffle batch_size ds,
     (∀ l, shuffle128 l ≡ₚ l) →
     build_dataset shuffle128 annot_files im_ds im_input_size shuffle batch_size
       = Some ds →
     ∀ batch ls l, batch ∈ ds → ls ∈ labels batch → l ∈ ls →
                   l ≠ (-1)%Z → (0 ≤ l < num_classes)%Z).
Proof.
  split_and!.
  - intros i l Hi. by apply label_2_idx_lookup; [apply IDX_2_LABEL_NoDup|].
  - intros F S annot labels bbs [Hall _]%read_voc_annot_inv.
    eapply Forall2_impl; [exact Hall|]. intros b l Hb. split; [done|].
    by apply label_2_idx_inv in Hb.
  - intros F S Image shuffle128 annot_files im_ds im_input_size shuffle
      batch_size ds Hperm Hb batch ls l Hbatch Hls Hl Hne.
    destruct (batch_structure _ _ _ _ _ _ _ _ Hperm Hb Hbatch)
      as (Hlen1 & Hlen2 & _ & n & _ & Hk).
    apply list_elem_of_lookup in Hls as [k Hls].
    destruct (lookup_lt_is_Some_2 (bbs batch) k) as [bs Hbs].
    { rewrite Hlen2, <- Hlen1. by eapply lookup_lt_Some. }
    destruct (Hk _ _ _ Hls Hbs) as (_ & _ & annot & gl & gb & _ & Hread & -> & _).
    apply elem_of_app in Hl as [Hl | Hl%elem_of_replicate_inv]; [|done].
    pose proof (read_labels_in_range _ _ _ Hread) as Hrange.
    by eapply Forall_forall in Hrange.
Qed.

Lemma label_table_inverse_witness :
  LABEL_2_IDX !! "bin" = Some 0%Z ∧
  Forall2 (λ b l, LABEL_2_IDX !! name b = Some l ∧ (0 ≤ l < num_classes)%Z ∧
                  IDX_2_LABEL !! Z.to_nat l = Some (name b))
          (objects annot0) [0%Z] ∧
  (0 ≤ 0 < num_classes)%Z.
Proof.
  destruct label_table_inverse as (H1 & H2 & H3).
  refine (conj _ (conj _ _)).
  - apply (H1 0 "bin"). reflexivity.
  - apply (H2 Q _ annot0 [0%Z]
             [mkBox (1 # 10)%Q (1 # 10)%Q (5 # 10)%Q (5 # 10)%Q]).
    reflexivity.
  - refine (H3 Q _ nat id [annot0] [7] (128, 128)%Z false 2
             [mkBatch [7] [[0%Z]]
                [[mkBox (128 # 10)%Q (128 # 10)%Q (640 # 10)%Q (640 # 10)%Q]]]
             (λ l, reflexivity l) _
             (mkBatch [7] [[0%Z]]
                [[mkBox (128 # 10)%Q (128 # 10)%Q (640 # 10)%Q (640 # 10)%Q]])
             [0%Z] 0%Z _ _ _ _).
    + vm_compute. reflexivity.
    + apply list_elem_of_here.
    + apply list_elem_of_here.
    + apply list_elem_of_here.
    + lia.
Defined.
Lemma scaled_fraction_range (x d s : Z) :
  (0 ≤ x ≤ d)%Z → (0 < d)%Z → (0 ≤ s)%Z →
  (0 <= inject_Z x / inject_Z d * inject_Z s <= inject_Z s)%Q.
Proof.
  intros [Hx0 Hxd] Hd Hs.
  assert (0 < inject_Z d)%Q as Hd' by (change 0%Q with (inject_Z 0); by rewrite <- Zlt_Qlt).
  assert (0 <= inject_Z x)%Q as Hx0' by (change 0%Q with (inject_Z 0); by rewrite <- Zle_Qle).
  assert (inject_Z x <= inject_Z d)%Q as Hxd' by (by rewrite <- Zle_Qle).
  assert (0 <= inject_Z s)%Q as Hs' by (change 0%Q with (inject_Z 0); by rewrite <- Zle_Qle).
  assert (0 <= inject_Z x / inject_Z d)%Q as Ht0.
  { apply Qle_shift_div_l; [done|]. by rewrite Qmult_0_l. }
  assert (inject_Z x / inject_Z d <= 1)%Q as Ht1.
  { apply Qle_shift_div_r; [done|]. by rewrite Qmult_1_l. }
  split.
  - by apply Qmult_le_0_compat.
  - rewrite <- (Qmult_1_l (inject_Z s)) at 2. by apply Qmult_le_compat_r.
Qed.

Lemma zero_box_within (h w : Z) :
  (0 ≤ h)%Z → (0 ≤ w)%Z → box_within (inject_Z h) (inject_Z w) zero_box.
Proof.
  intros Hh Hw. unfold box_within, zero_box. simpl.
  change (inject_Z 0) with 0%Q.
  assert (0 <= inject_Z h)%Q by (change 0%Q with (inject_Z 0); by rewrite <- Zle_Qle).
  assert (0 <= inject_Z w)%Q by (change 0%Q with (inject_Z 0); by rewrite <- Zle_Qle).
  split_and!; first [done | apply Qle_refl].
Qed.

Lemma scaled_object_within (annot : VocAnnot) (o : VocObject) (h w : Z) :
  (0 < size_width annot)%Z → (0 < size_height annot)%Z →
  object_in_image annot o → (0 ≤ h)%Z → (0 ≤ w)%Z →
  box_within (inject_Z h) (inject_Z w)
    (scale_box h w
       (mkBox (inject_Z (xmin o) / inject_Z (size_width annot))
              (inject_Z (ymin o) / inject_Z (size_height annot))
              (inject_Z (xmax o) / inject_Z (size_width annot))
              (inject_Z (ymax o) / inject_Z (size_height annot)))%Q).
Proof.
  intros Hw0 Hh0 (Hx1 & Hx2 & Hy1 & Hy2) Hh Hw.
  unfold box_within, scale_box. simpl.
  split_and!; by apply scaled_fraction_range.
Qed.

(** C1 (as stated, refuted): the boxes of the data set are not
    normalized fractions.  The annotation [annot0], a box (1, 1, 5, 5) in a
    10 x 10 image, comes out of [build_dataset] with model input size
    128 x 128 as (12.8, 12.8, 64, 64). *)
Lemma dataset_boxes_not_normalized :
  ¬ (∀ (shuffle128 : list (Batch Q nat) → list (Batch Q nat))
       annot_files (im_ds : list nat) im_input_size shuffle batch_size ds
       batch bs b,
       (∀ l, shuffle128 l ≡ₚ l) →
       Forall annot_in_image annot_files →
       build_dataset shuffle128 annot_files im_ds im_input_size shuffle
         batch_size = Some ds →
       batch ∈ ds → bs ∈ bbs batch → b ∈ bs →
       box_within 1 1 b).
Proof.
  intros Hclaim.
  set (b := mkBox (128 # 10)%Q (128 # 10)%Q (640 # 10)%Q (640 # 10)%Q).
  assert (box_within 1 1 b) as (_ & _ & [_ Hx2] & _).
  { refine (Hclaim id [annot0] [7] (128, 128)%Z false 2
              [mkBatch [7] [[0%Z]] [[b]]] (mkBatch [7] [[0%Z]] [[b]]) [b] b
              (λ l, reflexivity l) _ _ _ _ _).
    - repeat constructor; vm_compute; congruence.
    - vm_compute. reflexivity.
    - apply list_elem_of_here.
    - apply list_elem_of_here.
    - apply list_elem_of_here. }
  revert Hx2. vm_compute. tauto.
Qed.

(** C1 (amended): every box of every batch of [build_dataset] is either the
    all-zero padding box or the box of an annotated object, normalised to
    fractions of its image and then multiplied by the model input size, x
    by the input width and y by the input height.  Such a box is given in
    pixels of the resized image: whenever its object lies inside its image
    (of positive width and height) and the input size (h, w) is not
    negative, its x coordinates are in [0, w] and its y coordinates in
    [0, h]. *)
Theorem dataset_boxes_scaled {Image}
    (shuffle128 : list (Batch Q Image) → list (Batch Q Image))
    annot_files (im_ds : list Image) (h w : Z) shuffle batch_size ds batch bs b :
  (∀ l, shuffle128 l ≡ₚ l) →
  build_dataset shuffle128 annot_files im_ds (h, w) shuffle batch_size = Some ds →
  batch ∈ ds → bs ∈ bbs batch → b ∈ bs →
  b = zero_box ∨
  ∃ annot gl gb o nb,
    annot ∈ annot_files ∧ _read_voc_annot annot = Some (gl, gb) ∧
    o ∈ objects annot ∧
    nb = (mkBox (inject_Z (xmin o) / inject_Z (size_width annot))
                (inject_Z (ymin o) / inject_Z (size_height annot))
                (inject_Z (xmax o) / inject_Z (size_width annot))
                (inject_Z (ymax o) / inject_Z (size_height annot)))%Q ∧
    nb ∈ gb ∧ b = scale_box h w nb ∧
    ((0 < size_width annot)%Z → (0 < size_height annot)%Z →
     object_in_image annot o → (0 ≤ h)%Z → (0 ≤ w)%Z →
     box_within (inject_Z h) (inject_Z w) b).
Proof.
  intros Hperm Hb Hbatch Hbs Hin.
  destruct (batch_structure _ _ _ _ _ _ _ _ Hperm Hb Hbatch)
    as (Hlen1 & Hlen2 & _ & n & _ & Hk).
  apply list_elem_of_lookup in Hbs as [k Hbs].
  destruct (lookup_lt_is_Some_2 (labels batch) k) as [ls Hls].
  { rewrite Hlen1, <- Hlen2. by eapply lookup_lt_Some. }
  destruct (Hk _ _ _ Hls Hbs) as (_ & _ & annot & gl & gb & Hannot & Hread & _ & ->).
  simpl in Hin. apply elem_of_app in Hin as [Hin | ->%elem_of_replicate_inv];
    [|by left].
  right. apply list_elem_of_fmap in Hin as (nb & -> & Hnb).
  pose proof Hread as [_ Hgb]%read_voc_annot_inv.
  pose proof Hnb as Hnb'. rewrite Hgb in Hnb'. unfold normalize_bndboxes in Hnb'.
  rewrite <- list_fmap_compose in Hnb'.
  apply list_elem_of_fmap in Hnb' as (o & Ho & Hobj).
  exists annot, gl, gb, o, nb. split_and!; [done..|].
  intros. rewrite Ho. by apply scaled_object_within.
Qed.

Lemma dataset_boxes_scaled_witness :
  mkBox (128 # 10)%Q (128 # 10)%Q (640 # 10)%Q (640 # 10)%Q = zero_box ∨
  ∃ annot gl gb o nb,
    annot ∈ [annot0] ∧ _read_voc_annot annot = Some (gl, gb) ∧
    o ∈ objects annot ∧
    nb = (mkBox (inject_Z (xmin o) / inject_Z (size_width annot))
                (inject_Z (ymin o) / inject_Z (size_height annot))
                (inject_Z (xmax o) / inject_Z (size_width annot))
                (inject_Z (ymax o) / inject_Z (size_height annot)))%Q ∧
    nb ∈ gb ∧
    mkBox (128 # 10)%Q (128 # 10)%Q (640 # 10)%Q (640 # 10)%Q
    = scale_box 128 128 nb ∧
    ((0 < size_width annot)%Z → (0 < size_height annot)%Z →
     object_in_image annot o → (0 ≤ 128)%Z → (0 ≤ 128)%Z →
     box_within (inject_Z 128) (inject_Z 128)
       (mkBox (128 # 10)%Q (128 # 10)%Q (640 # 10)%Q (640 # 10)%Q)).
Proof.
  set (b := mkBox (128 # 10)%Q (128 # 10)%Q (640 # 10)%Q (640 # 10)%Q).
  refine (dataset_boxes_scaled (Image := nat) id [annot0] [7] 128 128 false 2
            [mkBatch [7] [[0%Z]] [[b]]] (mkBatch [7] [[0%Z]] [[b]]) [b] b
            (λ l, reflexivity l) _ _ _ _).
  - vm_compute. reflexivity.
  - apply list_elem_of_here.
  - apply list_elem_of_here.
  - apply list_elem_of_here.
Defined.

(** C5: every batch of [build_dataset] pads the variable-length ground
    truth of its images to one common count [n], appending the label -1
    and the all-zero box after the real entries. *)
Theorem padded_batch_sentinels {F} `{Scalar F} {Image}
    (shuffle128 : list (Batch F Image) → list (Batch F Image))
    annot_files (im_ds : list Image) im_input_size shuffle batch_size ds batch :
  (∀ l, shuffle128 l ≡ₚ l) →
  build_dataset shuffle128 annot_files im_ds im_input_size shuffle batch_size
    = Some ds →
  batch ∈ ds →
  length (labels batch) = length (images batch) ∧
  length (bbs batch) = length (images batch) ∧
  0 < length (images batch) ≤ batch_size ∧
  ∃ n : nat,
    n ∈ length <$> labels batch ∧
    ∀ k ls bs, labels batch !! k = Some ls → bbs batch !! k = Some bs →
      length ls = n ∧ length bs = n ∧
      ∃ annot gl gb,
        annot ∈ annot_files ∧ _read_voc_annot annot = Some (gl, gb) ∧
        ls = gl ++ replicate (n - length gl) (-1)%Z ∧
        bs = (scale_box im_input_size.1 im_input_size.2 <$> gb)
               ++ replicate (n - length gb) zero_box.
Proof. apply batch_structure. Qed.

Lemma padded_batch_sentinels_witness :
  length (labels sample_batch) = length (images sample_batch) ∧
  length (bbs sample_batch) = length (images sample_batch) ∧
  0 < length (images sample_batch) ≤ 2 ∧
  ∃ n : nat,
    n ∈ length <$> labels sample_batch ∧
    ∀ k ls bs, labels sample_batch !! k = Some ls →
               bbs sample_batch !! k = Some bs →
      length ls = n ∧ length bs = n ∧
      ∃ annot gl gb,
        annot ∈ [annot0; annot1] ∧ _read_voc_annot annot = Some (gl, gb) ∧
        ls = gl ++ replicate (n - length gl) (-1)%Z ∧
        bs = (scale_box 128 128 <$> gb) ++ replicate (n - length gb) zero_box.
Proof.
  refine (padded_batch_sentinels (Image := nat) id [annot0; annot1] [7; 8]
            (128, 128)%Z false 2 [sample_batch] sample_batch
            (λ l, reflexivity l) _ _).
  - vm_compute. reflexivity.
  - apply list_elem_of_here.
Defined.
End VocProofs.

(* ===================================================================== *)
(** * Properties of the evaluation boundary (engine.py) *)
(* ===================================================================== *)

Module EngineProofs.
Import Engine.

Section Loops.
Context {S A : Type}.
Implicit Types (body : S → A → option S) (P : S → Prop).

(** An invariant of the loop body is an invariant of the loop. *)
Lemma for_each_invariant P body l : ∀ s s',
  (∀ s x s', x ∈ l → P s → body s x = Some s' → P s') →
  P s → for_each body s l = Some s' → P s'.
Proof.
  induction l as [|x l IH]; intros s s' Hstep Hs Hrun; simplify_eq/=; [done|].
  destruct (body s x) as [s1|] eqn:Hbody; simplify_eq/=.
  eapply (IH s1); [|by eapply Hstep; [left|..]|done].
  intros s2 y s3 Hy. apply Hstep. by right.
Qed.

(** A loop whose body never raises under the invariant runs to its end. *)
Lemma for_each_is_Some P body l : ∀ s,
  (∀ s x, x ∈ l → P s → ∃ s', body s x = Some s' ∧ P s') →
  P s → ∃ s', for_each body s l = Some s' ∧ P s'.
Proof.
  induction l as [|x l IH]; intros s Hstep Hs; [by exists s|].
  destruct (Hstep s x) as (s1 & Hbody & Hs1); [by left | done |].
  simpl. rewrite Hbody. simpl. apply IH; [|done].
  intros s2 y Hy. apply Hstep. by right.
Qed.
End Loops.

Section Boundary.
Context {F : Type} `{Scalar F}.

Lemma coco_bboxes_of_eq (bboxes : list (Box F)) :
  coco_bboxes_of bboxes = coco_bbox <$> bboxes.
Proof.
  unfold coco_bboxes_of, Tf.stack, Tf.column.
  induction bboxes as [|b bboxes IH]; [done|].
  csimpl in *. by rewrite IH.
Qed.
End Boundary.
Section Boundary2.
Context {F : Type} `{Scalar F}.

Lemma areas_eq (bboxes : list (Box F)) :
  zip_with fmul
    (zip_with fsub (Tf.column 3 bboxes) (Tf.column 1 bboxes))
    (zip_with fsub (Tf.column 2 bboxes) (Tf.column 0 bboxes))
  = box_area <$> bboxes.
Proof.
  unfold Tf.column. induction bboxes as [|b bboxes IH]; [done|].
  csimpl in *. by rewrite IH.
Qed.

Lemma COCO_result_eq (image_id : Z) (labels : list Z) (bboxes : list (Box F))
    (scores : list F) :
  _COCO_result image_id labels bboxes scores
  = result_of image_id <$> zip (zip labels bboxes) scores.
Proof.
  unfold _COCO_result. rewrite coco_bboxes_of_eq.
  revert bboxes scores.
  induction labels as [|l labels IH]; intros [|b bboxes] [|s scores]; try done.
  csimpl. by rewrite IH.
Qed.

Lemma gt_loop (image_id : Z) (labels : list Z) (bboxes : list (Box F)) k :
  ∀ start acc id,
  start + k = length bboxes → length bboxes ≤ length labels →
  for_each (λ (st : list Annot * Z) (i : nat),
              let '(annotations, annot_id) := st in
              bb ← (coco_bbox <$> bboxes) !! i;
              area ← (box_area <$> bboxes) !! i;
              l ← labels !! i;
              Some (annotations ++ [mkAnnot annot_id image_id bb 0 area l],
                    (annot_id + 1)%Z))
           (acc, id) (seq start k)
  = Some (acc ++ gt_annots image_id id (drop start labels) (drop start bboxes),
          (id + Z.of_nat k)%Z).
Proof.
  induction k as [|k IH]; intros start acc id Hlen Hle.
  - simpl. rewrite (drop_ge bboxes) by lia.
    destruct (drop start labels); simpl; rewrite app_nil_r, Z.add_0_r; done.
  - destruct (lookup_lt_is_Some_2 bboxes start) as [b Hb]; [lia|].
    destruct (lookup_lt_is_Some_2 labels start) as [l Hl]; [lia|].
    cbn [seq for_each]. rewrite !list_lookup_fmap, Hb, Hl. simpl.
    rewrite IH by lia.
    rewrite (drop_S _ _ _ Hb), (drop_S _ _ _ Hl). simpl.
    rewrite <- app_assoc. simpl. do 2 f_equal. lia.
Qed.

Lemma COCO_gt_annot_eq (image_id annot_id : Z) (h w : Z) (labels : list Z)
    (bboxes : list (Box F)) :
  length bboxes ≤ length labels →
  _COCO_gt_annot image_id annot_id (h, w) labels bboxes
  = Some (mkImageInfo image_id h w, gt_annots image_id annot_id labels bboxes).
Proof.
  intros Hle. unfold _COCO_gt_annot.
  rewrite areas_eq, coco_bboxes_of_eq, length_fmap.
  rewrite (gt_loop image_id labels bboxes (length bboxes) 0 [] annot_id) by lia.
  done.
Qed.
End Boundary2.
Section Masks.
Context {A : Type}.

Lemma boolean_mask_length (t : list A) : ∀ mask r,
  Tf.boolean_mask t mask = Some r → length t = length mask.
Proof.
  induction t as [|x t IH]; intros [|m mask] r Hr; simplify_eq/=; [done|].
  destruct (Tf.boolean_mask t mask) as [r'|] eqn:Hr'; simplify_eq/=.
  f_equal. by eapply IH.
Qed.

Lemma boolean_mask_filter (gt_labels : list Z) : ∀ t : list A,
  length t = length gt_labels →
  Tf.boolean_mask t ((λ l, negb (l =? -1)%Z) <$> gt_labels)
  = Some ((filter (λ lb : Z * A, lb.1 ≠ (-1)%Z) (zip gt_labels t)).*2).
Proof.
  induction gt_labels as [|l gt_labels IH]; intros [|x t] Hlen; simplify_eq/=;
    [done|].
  rewrite IH by done. simpl. rewrite filter_cons.
  destruct (Z.eqb_spec l (-1)) as [->|Hne]; case_decide; simpl in *; done.
Qed.
End Masks.

Lemma boolean_mask_labels (gt_labels : list Z) {B} (t : list B) :
  length t = length gt_labels →
  Tf.boolean_mask gt_labels ((λ l, negb (l =? -1)%Z) <$> gt_labels)
  = Some ((filter (λ lb : Z * B, lb.1 ≠ (-1)%Z) (zip gt_labels t)).*1).
Proof.
  revert t. induction gt_labels as [|l gt_labels IH]; intros [|x t] Hlen;
    simplify_eq/=; [done|].
  rewrite (IH t) by done. simpl. rewrite filter_cons.
  destruct (Z.eqb_spec l (-1)) as [->|Hne]; case_decide; simpl in *; done.
Qed.

Section Image.
Context {F : Type} `{Scalar F}.

Lemma eval_image_eq hw labels bbs bboxes categories scores st batch_idx
    gt_labels (gt_boxes : list (Box F)) pred_labels pred_boxes pred_scores :
  labels !! batch_idx = Some gt_labels →
  bbs !! batch_idx = Some gt_boxes →
  length gt_boxes = length gt_labels →
  categories !! batch_idx = Some pred_labels →
  bboxes !! batch_idx = Some pred_boxes →
  scores !! batch_idx = Some pred_scores →
  eval_image hw labels bbs bboxes categories scores st batch_idx
  = Some (image_step hw gt_labels gt_boxes pred_labels pred_boxes pred_scores st).
Proof.
  intros Hl Hb Hlen Hpl Hpb Hps. unfold eval_image.
  rewrite Hl, Hb. simpl.
  rewrite (boolean_mask_labels gt_labels gt_boxes) by done. simpl.
  rewrite (boolean_mask_filter gt_labels gt_boxes) by done. simpl.
  destruct hw as [h w].
  rewrite COCO_gt_annot_eq by (by rewrite !length_fmap). simpl.
  rewrite Hpl, Hpb, Hps. simpl. unfold image_step, real_entries. simpl.
  f_equal. f_equal.
  destruct pred_labels as [|l pred_labels].
  - rewrite decide_False by (simpl; lia). by rewrite app_nil_r.
  - rewrite decide_True by (simpl; lia). by rewrite COCO_result_eq.
Qed.

Lemma eval_image_inv hw labels bbs bboxes categories scores st batch_idx st' :
  eval_image hw labels bbs bboxes categories scores st batch_idx = Some st' →
  ∃ gt_labels (gt_boxes : list (Box F)) pred_labels pred_boxes pred_scores,
    labels !! batch_idx = Some gt_labels ∧
    bbs !! batch_idx = Some gt_boxes ∧
    length gt_boxes = length gt_labels ∧
    categories !! batch_idx = Some pred_labels ∧
    bboxes !! batch_idx = Some pred_boxes ∧
    scores !! batch_idx = Some pred_scores ∧
    st' = image_step hw gt_labels gt_boxes pred_labels pred_boxes pred_scores st.
Proof.
  intros Hrun. pose proof Hrun as Hrun'. unfold eval_image in Hrun'.
  destruct (labels !! batch_idx) as [gt_labels|] eqn:Hl; simplify_eq/=.
  destruct (bbs !! batch_idx) as [gt_boxes|] eqn:Hb; simplify_eq/=.
  destruct (Tf.boolean_mask gt_labels _) as [gl|]; simplify_eq/=.
  destruct (Tf.boolean_mask gt_boxes _) as [gb|] eqn:Hmask; simplify_eq/=.
  apply boolean_mask_length in Hmask. rewrite length_fmap in Hmask.
  destruct (_COCO_gt_annot _ _ _ _ _) as [[im annots]|]; simplify_eq/=.
  destruct (categories !! batch_idx) as [pred_labels|] eqn:Hpl; simplify_eq/=.
  destruct (bboxes !! batch_idx) as [pred_boxes|] eqn:Hpb; simplify_eq/=.
  destruct (scores !! batch_idx) as [pred_scores|] eqn:Hps; simplify_eq/=.
  rewrite (eval_image_eq _ _ _ _ _ _ _ _ _ _ _ _ _ Hl Hb Hmask Hpl Hpb Hps) in Hrun.
  exists gt_labels, gt_boxes, pred_labels, pred_boxes, pred_scores.
  split_and!; [done..|congruence].
Qed.
End Image.
Section Invariant.
Context {F : Type} `{Scalar F}.

Lemma gt_annots_ids (image_id : Z) (labels : list Z) : ∀ annot_id (bboxes : list (Box F)),
  ann_id <$> gt_annots image_id annot_id labels bboxes
  = seqZ annot_id (Z.of_nat (length (gt_annots image_id annot_id labels bboxes))).
Proof.
  induction labels as [|l labels IH]; intros annot_id [|b bboxes]; try done.
  cbn [gt_annots length]. rewrite fmap_cons, IH. simpl ann_id.
  rewrite Nat2Z.inj_succ, (seqZ_cons annot_id) by lia.
  by rewrite Z.pred_succ, Z.add_1_r.
Qed.

Lemma gt_annots_lookup (image_id : Z) (labels : list Z) :
  ∀ annot_id (bboxes : list (Box F)) j a,
  gt_annots image_id annot_id labels bboxes !! j = Some a →
  ∃ l b, labels !! j = Some l ∧ bboxes !! j = Some b ∧
         a = mkAnnot (annot_id + Z.of_nat j) image_id (coco_bbox b) 0 (box_area b) l.
Proof.
  induction labels as [|l labels IH]; intros annot_id [|b bboxes] j a Ha; try done.
  destruct j as [|j]; simplify_eq/=.
  - exists l, b. by rewrite Z.add_0_r.
  - apply IH in Ha as (l' & b' & ? & ? & ->). exists l', b'.
    split_and!; [done..|]. f_equal. lia.
Qed.

Lemma real_entries_lookup (gt_labels : list Z) (gt_boxes : list (Box F)) j l b :
  (real_entries gt_labels gt_boxes).*1 !! j = Some l →
  (real_entries gt_labels gt_boxes).*2 !! j = Some b →
  l ≠ (-1)%Z ∧ ∃ i, gt_labels !! i = Some l ∧ gt_boxes !! i = Some b.
Proof.
  rewrite !list_lookup_fmap. intros Hl Hb.
  destruct (real_entries gt_labels gt_boxes !! j) as [[l' b']|] eqn:Hj;
    simplify_eq/=.
  apply list_elem_of_lookup_2, list_elem_of_filter in Hj as [Hne Hin].
  split; [done|].
  apply list_elem_of_lookup in Hin as [i Hi].
  apply lookup_zip_with_Some in Hi as (l0 & b0 & ? & ? & ?). simplify_eq.
  by exists i.
Qed.

Section Run.
Context {Image : Type}.
Variable image_hw : list Image → Z * Z.
Variable model : list Image → list (list (Box F)) * list (list Z) * list (list F).
Variable dataset : list (Voc.Batch F Image).

Lemma image_step_inv batch k gl gb pl pb ps hw st :
  batch ∈ dataset →
  Voc.labels batch !! k = Some gl → Voc.bbs batch !! k = Some gb →
  (model (Voc.images batch)).1.2 !! k = Some pl →
  (model (Voc.images batch)).1.1 !! k = Some pb →
  (model (Voc.images batch)).2 !! k = Some ps →
  eval_inv model dataset st →
  eval_inv model dataset (image_step hw gl gb pl pb ps st).
Proof.
  intros Hbatch Hgl Hgb Hpl Hpb Hps (Hids & Haid & Hiid & Hann & Hres).
  unfold eval_inv, image_step. cbn [gt_annotations gt_images results_coco
                                     image_id annot_id].
  set (real := real_entries gl gb).
  set (annots := gt_annots (image_id st) (annot_id st) real.*1 real.*2).
  split_and!.
  - rewrite fmap_app, Hids. unfold annots at 1. rewrite gt_annots_ids.
    fold annots. rewrite length_app, Nat2Z.inj_add, seqZ_app by lia.
    by rewrite Haid.
  - rewrite length_app. lia.
  - rewrite length_app. simpl. lia.
  - apply Forall_app. split; [done|].
    apply Forall_lookup. intros j a Ha.
    apply gt_annots_lookup in Ha as (l & b & Hl & Hb & ->).
    destruct (real_entries_lookup _ _ _ _ _ Hl Hb) as (Hne & i & Hil & Hib).
    by exists batch, k, gl, gb, i, l, b.
  - apply Forall_app. split; [done|].
    destruct pl as [|l0 pl0]; [by apply Forall_nil|].
    apply Forall_fmap, Forall_lookup. intros j lbs Hj.
    apply lookup_zip_with_Some in Hj as ([l' b'] & s & -> & Hj & ?).
    apply lookup_zip_with_Some in Hj as (l & b & ? & ? & ?). simplify_eq.
    by exists batch, k, (l0 :: pl0), pb, ps, j, l, b, s.
Qed.

Lemma eval_batch_inv batch st st' :
  batch ∈ dataset → eval_inv model dataset st →
  eval_batch image_hw model st batch = Some st' →
  eval_inv model dataset st'.
Proof.
  intros Hbatch Hst Hrun. unfold eval_batch in Hrun.
  destruct (model (Voc.images batch)) as [[bboxes categories] scores] eqn:Hmodel.
  eapply (for_each_invariant (eval_inv model dataset)); [|exact Hst|exact Hrun].
  intros s k s' _ Hs Hstep.
  apply eval_image_inv in Hstep
    as (gl & gb & pl & pb & ps & Hgl & Hgb & _ & Hpl & Hpb & Hps & ->).
  eapply image_step_inv; try done; by rewrite Hmodel.
Qed.

Lemma initial_state_inv : eval_inv model dataset initial_state.
Proof. unfold eval_inv. simpl. split_and!; by try constructor. Qed.

Lemma evaluate_inv class2idx categories st :
  evaluate image_hw model dataset class2idx = Some (categories, st) →
  eval_inv model dataset st.
Proof.
  unfold evaluate. intros Hrun.
  destruct (for_each _ _ dataset) as [st0|] eqn:Hloop; simplify_eq/=.
  eapply (for_each_invariant (eval_inv model dataset));
    [|exact initial_state_inv|exact Hloop].
  intros s batch s' Hbatch Hs Hstep. by eapply eval_batch_inv.
Qed.

Lemma eval_batch_total batch st :
  batch_ok model batch → ∃ st', eval_batch image_hw model st batch = Some st'.
Proof.
  unfold batch_ok, eval_batch.
  destruct (model (Voc.images batch)) as [[bboxes categories] scores].
  intros (Hl & Hc & Hs & Hlens).
  destruct (for_each_is_Some (λ _, True)
              (eval_image (image_hw (Voc.images batch)) (Voc.labels batch)
                          (Voc.bbs batch) bboxes categories scores)
              (seq 0 (length bboxes)) st) as (st' & Hrun & _); [|done|by exists st'].
  intros s k Hk%elem_of_seq _.
  destruct (lookup_lt_is_Some_2 (Voc.labels batch) k) as [gl Hgl]; [lia|].
  destruct (Forall2_lookup_l _ _ _ _ _ Hlens Hgl) as (gb & Hgb & Hlen).
  destruct (lookup_lt_is_Some_2 categories k) as [pl Hpl]; [lia|].
  destruct (lookup_lt_is_Some_2 bboxes k) as [pb Hpb]; [lia|].
  destruct (lookup_lt_is_Some_2 scores k) as [ps Hps]; [lia|].
  eexists. split; [|done]. by eapply eval_image_eq.
Qed.

Lemma evaluate_total class2idx :
  Forall (batch_ok model) dataset →
  ∃ categories st, evaluate image_hw model dataset class2idx = Some (categories, st).
Proof.
  intros Hok. unfold evaluate.
  destruct (for_each_is_Some (λ _, True) (eval_batch image_hw model) dataset
              initial_state) as (st & Hrun & _); [|done|].
  - intros s batch Hbatch _. eapply Forall_forall in Hok; [|exact Hbatch].
    destruct (eval_batch_total batch s Hok) as [s' Hs']. by exists s'.
  - rewrite Hrun. simpl. by eexists _, _.
Qed.
End Run.
End Invariant.

Lemma for_each_Some_body {S A} (body : S → A → option S) l : ∀ s s',
  for_each body s l = Some s' → ∀ x, x ∈ l → ∃ s1 s2, body s1 x = Some s2.
Proof.
  induction l as [|y l IH]; intros s s' Hrun x Hx; [by apply elem_of_nil in Hx|].
  simpl in Hrun. destruct (body s y) as [s1|] eqn:Hbody; simplify_eq/=.
  apply elem_of_cons in Hx as [->|Hx]; [by exists s, s1 | by eapply IH].
Qed.

Lemma COCO_gt_annot_inv {F} `{Scalar F} (image_id annot_id : Z) (shape : Z * Z)
    (labels : list Z) (bboxes : list (Box F)) image annots :
  _COCO_gt_annot image_id annot_id shape labels bboxes = Some (image, annots) →
  length bboxes ≤ length labels ∧
  image = mkImageInfo image_id shape.1 shape.2 ∧
  annots = gt_annots image_id annot_id labels bboxes.
Proof.
  intros Hrun. destruct shape as [h w].
  destruct (decide (length bboxes ≤ length labels)) as [Hle|Hgt].
  - rewrite COCO_gt_annot_eq in Hrun by done. by simplify_eq.
  - exfalso. unfold _COCO_gt_annot in Hrun.
    destruct (for_each _ _ _) as [[acc id]|] eqn:Hloop; simplify_eq/=.
    destruct (for_each_Some_body _ _ _ _ Hloop (length labels))
      as ([acc1 id1] & s2 & Hbody).
    { apply elem_of_seq. rewrite coco_bboxes_of_eq, length_fmap. lia. }
    simpl in Hbody. rewrite (lookup_ge_None_2 labels) in Hbody by lia.
    by destruct (_ !! _), (_ !! _).
Qed.

Lemma eval_inv_results {F} `{Scalar F} {Image} (image_hw : list Image → Z * Z)
    model dataset class2idx categories st :
  evaluate image_hw model dataset class2idx = Some (categories, st) →
  Forall (result_from_model model dataset) (results_coco st) ∧
  Forall (annot_from_dataset dataset) (gt_annotations st).
Proof. intros (_ & _ & _ & ? & ?)%evaluate_inv. done. Qed.

(** C2: both boundary functions turn every internal box (x1, y1, x2, y2)
    into the COCO bbox [x1, y1, x2 - x1, y2 - y1], and [evaluate] hands
    them the boxes of the model and of the data set unconverted, so that
    every record it accumulates carries the conversion of such a box. *)
Theorem coco_boundary_conversion {F} `{Scalar F} :
  (∀ image_id labels (bboxes : list (Box F)) scores i r,
     _COCO_result image_id labels bboxes scores !! i = Some r →
     ∃ b, bboxes !! i = Some b ∧
          res_bbox r = [bx1 b; by1 b; fsub (bx2 b) (bx1 b); fsub (by2 b) (by1 b)]) ∧
  (∀ image_id annot_id shape labels (bboxes : list (Box F)) image annots i a,
     _COCO_gt_annot image_id annot_id shape labels bboxes = Some (image, annots) →
     annots !! i = Some a →
     ∃ b, bboxes !! i = Some b ∧
          ann_bbox a = [bx1 b; by1 b; fsub (bx2 b) (bx1 b); fsub (by2 b) (by1 b)]) ∧
  (∀ Image (image_hw : list Image → Z * Z) model dataset class2idx categories st,
     evaluate image_hw model dataset class2idx = Some (categories, st) →
     Forall (result_from_model model dataset) (results_coco st) ∧
     Forall (annot_from_dataset dataset) (gt_annotations st)).
Proof.
  refine (conj _ (conj _ _)).
  - intros image_id labels bboxes scores i r. rewrite COCO_result_eq.
    rewrite list_lookup_fmap. intros Hr.
    destruct (zip (zip labels bboxes) scores !! i) as [lbs|] eqn:Hi; simplify_eq/=.
    apply lookup_zip_with_Some in Hi as ([l b] & s & -> & Hi & _).
    apply lookup_zip_with_Some in Hi as (l' & b' & ? & _ & Hb). simplify_eq.
    by exists b'.
  - intros image_id annot_id shape labels bboxes image annots i a Hrun Ha.
    apply COCO_gt_annot_inv in Hrun as (_ & _ & ->).
    apply gt_annots_lookup in Ha as (l & b & _ & Hb & ->). by exists b.
  - intros Image image_hw model dataset class2idx categories st.
    apply eval_inv_results.
Qed.

Example sample_run :
  evaluate sample_hw sample_model [sample_batch] [("bin", 0%Z)]
  = Some (sample_categories, sample_state).
Proof. vm_compute. reflexivity. Qed.

Lemma coco_boundary_conversion_witness :
  (∃ b, [mkBox 10 20 50 80]%Q !! 0 = Some b ∧
        res_bbox (mkResult 1 0 [10; 20; 40; 60]%Q (9 # 10)%Q)
        = [bx1 b; by1 b; fsub (bx2 b) (bx1 b); fsub (by2 b) (by1 b)]) ∧
  (∃ b, [mkBox (128 # 10) (128 # 10) (640 # 10) (640 # 10)]%Q !! 0 = Some b ∧
        ann_bbox (mkAnnot 1 1 [128 # 10; 128 # 10; 5120 # 100; 5120 # 100]%Q 0
                          (26214400 # 10000)%Q 0)
        = [bx1 b; by1 b; fsub (bx2 b) (bx1 b); fsub (by2 b) (by1 b)]) ∧
  Forall (result_from_model sample_model [sample_batch]) (results_coco sample_state) ∧
  Forall (annot_from_dataset [sample_batch]) (gt_annotations sample_state).
Proof.
  destruct (coco_boundary_conversion (F := Q)) as (H1 & H2 & H3).
  refine (conj _ (conj _ _)).
  - apply (H1 1%Z [0%Z] [mkBox 10 20 50 80]%Q [9 # 10]%Q 0). reflexivity.
  - apply (H2 1%Z 1%Z (128, 128)%Z [0%Z]
             [mkBox (128 # 10) (128 # 10) (640 # 10) (640 # 10)]%Q
             (mkImageInfo 1 128 128)
             [mkAnnot 1 1 [128 # 10; 128 # 10; 5120 # 100; 5120 # 100]%Q 0
                      (26214400 # 10000)%Q 0] 0).
    + vm_compute. reflexivity.
    + reflexivity.
  - apply (H3 nat sample_hw sample_model [sample_batch] [("bin", 0%Z)]
             sample_categories sample_state).
    vm_compute. reflexivity.
Defined.

(** C6: for every image, the ground-truth entries labelled -1 are dropped
    before the annotation records are built: the records appended for an
    image are those of its non-padding entries, and every record of the
    accumulated set has a category other than -1 and the box of an entry
    whose label is not -1. *)
Theorem padding_never_annotated {F} `{Scalar F} :
  (∀ hw labels (bbs : list (list (Box F))) bboxes categories scores st i st',
     eval_image hw labels bbs bboxes categories scores st i = Some st' →
     ∃ gt_labels gt_boxes,
       labels !! i = Some gt_labels ∧ bbs !! i = Some gt_boxes ∧
       gt_annotations st'
       = gt_annotations st
         ++ gt_annots (image_id st) (annot_id st)
              (filter (λ lb, lb.1 ≠ (-1)%Z) (zip gt_labels gt_boxes)).*1
              (filter (λ lb, lb.1 ≠ (-1)%Z) (zip gt_labels gt_boxes)).*2) ∧
  (∀ Image (image_hw : list Image → Z * Z) model dataset class2idx categories st,
     evaluate image_hw model dataset class2idx = Some (categories, st) →
     Forall (λ a, ann_category_id a ≠ (-1)%Z ∧ annot_from_dataset dataset a)
            (gt_annotations st)).
Proof.
  split.
  - intros hw labels bbs bboxes categories scores st i st' Hrun.
    apply eval_image_inv in Hrun
      as (gl & gb & pl & pb & ps & Hgl & Hgb & _ & _ & _ & _ & ->).
    by exists gl, gb.
  - intros Image image_hw model dataset class2idx categories st Hrun.
    apply eval_inv_results in Hrun as [_ Hann].
    eapply Forall_impl; [exact Hann|].
    intros a Ha. split; [|done].
    destruct Ha as (? & ? & ? & ? & ? & l & ? & _ & _ & _ & _ & _ & Hne & -> & _).
    done.
Qed.

Lemma padding_never_annotated_witness :
  (∃ gt_labels gt_boxes,
     Voc.labels sample_batch !! 0 = Some gt_labels ∧
     Voc.bbs sample_batch !! 0 = Some gt_boxes ∧
     gt_annotations
       (image_step (128, 128)%Z [0; -1]%Z
          [mkBox (128 # 10) (128 # 10) (640 # 10) (640 # 10); zero_box]%Q
          [0%Z] [mkBox 10 20 50 80]%Q [9 # 10]%Q (@initial_state Q))
     = gt_annotations (@initial_state Q)
       ++ gt_annots (image_id (@initial_state Q)) (annot_id (@initial_state Q))
            (filter (λ lb, lb.1 ≠ (-1)%Z) (zip gt_labels gt_boxes)).*1
            (filter (λ lb, lb.1 ≠ (-1)%Z) (zip gt_labels gt_boxes)).*2) ∧
  Forall (λ a, ann_category_id a ≠ (-1)%Z ∧ annot_from_dataset [sample_batch] a)
         (gt_annotations sample_state).
Proof.
  destruct (padding_never_annotated (F := Q)) as (H1 & H2). split.
  - apply (H1 (128, 128)%Z (Voc.labels sample_batch) (Voc.bbs sample_batch)
             (sample_model [7; 8]).1.1 (sample_model [7; 8]).1.2
             (sample_model [7; 8]).2 (@initial_state Q) 0).
    vm_compute. reflexivity.
  - apply (H2 nat sample_hw sample_model [sample_batch] [("bin", 0%Z)]
             sample_categories sample_state).
    vm_compute. reflexivity.
Defined.

(** C8: an image whose prediction list is empty is processed like any
    other: the loop body returns, appends no detection record and moves on
    to the next image id; and [evaluate] runs to its end on every
    well-formed data set, whatever the number of predictions per image. *)
Theorem empty_predictions_are_valid {F} `{Scalar F} :
  (∀ hw labels (bbs : list (list (Box F))) bboxes categories scores st i
     gt_labels gt_boxes pred_boxes pred_scores,
     labels !! i = Some gt_labels → bbs !! i = Some gt_boxes →
     length gt_boxes = length gt_labels →
     categories !! i = Some [] →
     bboxes !! i = Some pred_boxes → scores !! i = Some pred_scores →
     ∃ st', eval_image hw labels bbs bboxes categories scores st i = Some st' ∧
            results_coco st' = results_coco st ∧
            image_id st' = (image_id st + 1)%Z) ∧
  (∀ Image (image_hw : list Image → Z * Z) model dataset class2idx,
     Forall (batch_ok model) dataset →
     ∃ categories st,
       evaluate image_hw model dataset class2idx = Some (categories, st)).
Proof.
  split.
  - intros hw labels bbs bboxes categories scores st i gl gb pb ps
      Hgl Hgb Hlen Hpl Hpb Hps.
    eexists. split; [by eapply eval_image_eq|].
    unfold image_step. simpl. by rewrite app_nil_r.
  - intros Image image_hw model dataset class2idx. apply evaluate_total.
Qed.

Lemma empty_predictions_are_valid_witness :
  (∃ st', eval_image (128, 128)%Z (Voc.labels sample_batch) (Voc.bbs sample_batch)
            (sample_model [7; 8]).1.1 (sample_model [7; 8]).1.2
            (sample_model [7; 8]).2 (@initial_state Q) 1 = Some st' ∧
          results_coco st' = results_coco (@initial_state Q) ∧
          image_id st' = (image_id (@initial_state Q) + 1)%Z) ∧
  (∃ categories st,
     evaluate sample_hw sample_model [sample_batch] [("bin", 0%Z)]
     = Some (categories, st)).
Proof.
  destruct (empty_predictions_are_valid (F := Q)) as (H1 & H2). split.
  - apply (H1 (128, 128)%Z (Voc.labels sample_batch) (Voc.bbs sample_batch)
             (sample_model [7; 8]).1.1 (sample_model [7; 8]).1.2
             (sample_model [7; 8]).2 initial_state 1
             [0; 0]%Z
             [mkBox (0 # 40) (0 # 20) (5120 # 40) (2560 # 20);
              mkBox (1280 # 40) (640 # 20) (3840 # 40) (1920 # 20)]%Q
             [] []); reflexivity.
  - apply (H2 nat sample_hw sample_model [sample_batch] [("bin", 0%Z)]).
    repeat constructor.
Defined.

(** C9: [_COCO_gt_annot] numbers its records consecutively from the
    [annot_id] it is given, [evaluate] advances [annot_id] by the number of
    records of each image, and so the ids of the accumulated annotation
    records are exactly 1, 2, ..., n, each occurring once. *)
Theorem annotation_ids_unique {F} `{Scalar F} :
  (∀ image_id annot_id shape labels (bboxes : list (Box F)) image annots,
     _COCO_gt_annot image_id annot_id shape labels bboxes = Some (image, annots) →
     ann_id <$> annots = seqZ annot_id (Z.of_nat (length annots))) ∧
  (∀ hw labels (bbs : list (list (Box F))) bboxes categories scores st i st',
     eval_image hw labels bbs bboxes categories scores st i = Some st' →
     ∃ annots, gt_annotations st' = gt_annotations st ++ annots ∧
               annot_id st' = (annot_id st + Z.of_nat (length annots))%Z) ∧
  (∀ Image (image_hw : list Image → Z * Z) model dataset class2idx categories st,
     evaluate image_hw model dataset class2idx = Some (categories, st) →
     ann_id <$> gt_annotations st
       = seqZ 1 (Z.of_nat (length (gt_annotations st))) ∧
     NoDup (ann_id <$> gt_annotations st) ∧
     annot_id st = (1 + Z.of_nat (length (gt_annotations st)))%Z).
Proof.
  refine (conj _ (conj _ _)).
  - intros image_id annot_id shape labels bboxes image annots Hrun.
    apply COCO_gt_annot_inv in Hrun as (_ & _ & ->). apply gt_annots_ids.
  - intros hw labels bbs bboxes categories scores st i st' Hrun.
    apply eval_image_inv in Hrun
      as (gl & gb & pl & pb & ps & _ & _ & _ & _ & _ & _ & ->).
    by eexists.
  - intros Image image_hw model dataset class2idx categories st Hrun.
    apply evaluate_inv in Hrun as (Hids & Haid & _).
    split_and!; [done | | done]. rewrite Hids. apply NoDup_seqZ.
Qed.

Lemma annotation_ids_unique_witness :
  ann_id <$> [mkAnnot 1 1 [128 # 10; 128 # 10; 5120 # 100; 5120 # 100]%Q 0
                      (26214400 # 10000)%Q 0]
    = seqZ 1 (Z.of_nat 1) ∧
  (∃ annots,
     gt_annotations sample_state
     = gt_annotations
         (image_step (128, 128)%Z [0; -1]%Z
            [mkBox (128 # 10) (128 # 10) (640 # 10) (640 # 10); zero_box]%Q
            [0%Z] [mkBox 10 20 50 80]%Q [9 # 10]%Q initial_state) ++ annots ∧
     annot_id sample_state
     = (annot_id
          (image_step (128, 128)%Z [0; -1]%Z
             [mkBox (128 # 10) (128 # 10) (640 # 10) (640 # 10); zero_box]%Q
             [0%Z] [mkBox 10 20 50 80]%Q [9 # 10]%Q initial_state)
        + Z.of_nat (length annots))%Z) ∧
  ann_id <$> gt_annotations sample_state
    = seqZ 1 (Z.of_nat (length (gt_annotations sample_state))) ∧
  NoDup (ann_id <$> gt_annotations sample_state) ∧
  annot_id sample_state = (1 + Z.of_nat (length (gt_annotations sample_state)))%Z.
Proof.
  destruct (annotation_ids_unique (F := Q)) as (H1 & H2 & H3).
  refine (conj _ (conj _ _)).
  - apply (H1 1%Z 1%Z (128, 128)%Z [0%Z]
             [mkBox (128 # 10) (128 # 10) (640 # 10) (640 # 10)]%Q
             (mkImageInfo 1 128 128)).
    vm_compute. reflexivity.
  - apply (H2 (128, 128)%Z (Voc.labels sample_batch) (Voc.bbs sample_batch)
             (sample_model [7; 8]).1.1 (sample_model [7; 8]).1.2
             (sample_model [7; 8]).2 _ 1).
    vm_compute. reflexivity.
  - apply (H3 nat sample_hw sample_model [sample_batch] [("bin", 0%Z)]
             sample_categories sample_state).
    vm_compute. reflexivity.
Defined.
End EngineProofs.

(* ===================================================================== *)
(** * Properties of the model call path (efficientdet.py) *)
(* ===================================================================== *)

Module DetectorProofs.
Import Detector.

Lemma tile0_expand_dims0 {A} (batch_size : nat) (t : A) :
  Tf.tile0 batch_size (Tf.expand_dims0 t) = replicate batch_size t.
Proof.
  unfold Tf.tile0, Tf.expand_dims0.
  induction batch_size as [|n IH]; [done|]. simpl. by rewrite IH.
Qed.

Section Call.
Context {F Image Features FeatureMap : Type} `{Utils F}.
Implicit Types (self : EfficientDet F Image Features FeatureMap).
Variable shape0 : FeatureMap → option (list nat).
Variable image_hw : list Image → Z * Z.

Lemma call_training self images :
  call shape0 image_hw self images true
  = raw ← raw_outputs self images true; Some (Raw raw.1 raw.2).
Proof.
  unfold call, raw_outputs.
  destruct (Tf.concat1 (bb_head self <$> _)) as [bboxes|]; [|done]. simpl.
  by destruct (Tf.concat1 (class_head self <$> _)) as [class_scores|].
Qed.

Lemma call_inference self images out :
  call shape0 image_hw self images false = Some out ↔
  ∃ bboxes class_scores anchors scores3 deltas3 decoded clipped boxes labels scores,
    raw_outputs self images false = Some (bboxes, class_scores) ∧
    batch_anchors shape0 self (neck self (backbone self images false) false)
                  (length bboxes) = Some anchors ∧
    reshape_batch (num_classes self) class_scores = Some scores3 ∧
    reshape_batch 4 bboxes = Some deltas3 ∧
    regress_bndboxes anchors deltas3 = Some decoded ∧
    clip_boxes decoded (image_hw images) = Some clipped ∧
    nms clipped scores3 = Some (boxes, labels, scores) ∧
    out = Detections boxes labels scores.
Proof.
  unfold call, raw_outputs. split.
  - intros Hrun.
    destruct (Tf.concat1 (bb_head self <$> _)) as [bboxes|]; simplify_eq/=.
    destruct (Tf.concat1 (class_head self <$> _)) as [class_scores|]; simplify_eq/=.
    destruct (batch_anchors _ _ _ _) as [anchors|] eqn:Hanch; simplify_eq/=.
    destruct (reshape_batch _ class_scores) as [scores3|] eqn:Hs3; simplify_eq/=.
    destruct (reshape_batch 4 bboxes) as [deltas3|] eqn:Hd3; simplify_eq/=.
    destruct (regress_bndboxes _ _) as [decoded|] eqn:Hdec; simplify_eq/=.
    destruct (clip_boxes _ _) as [clipped|] eqn:Hclip; simplify_eq/=.
    destruct (nms _ _) as [[[boxes labels] scores]|] eqn:Hnms; simplify_eq/=.
    by exists bboxes, class_scores, anchors, scores3, deltas3, decoded, clipped,
              boxes, labels, scores.
  - intros (bboxes & class_scores & anchors & scores3 & deltas3 & decoded &
            clipped & boxes & labels & scores &
            Hraw & Hanch & Hs3 & Hd3 & Hdec & Hclip & Hnms & ->).
    destruct (Tf.concat1 (bb_head self <$> _)) as [bboxes'|]; simplify_eq/=.
    destruct (Tf.concat1 (class_head self <$> _)) as [class_scores'|]; simplify_eq/=.
    rewrite Hanch. simpl. rewrite Hs3. simpl. rewrite Hd3. simpl.
    rewrite Hdec. simpl. rewrite Hclip. simpl. by rewrite Hnms.
Qed.

Lemma batch_anchors_inv self bifnp_features batch_size anchors :
  batch_anchors shape0 self bifnp_features batch_size = Some anchors →
  ∃ per_level,
    Forall2 (λ gf a, level_anchors shape0 gf.1 gf.2 = Some a)
            (zip (anchors_gen self) bifnp_features) per_level ∧
    per_level ≠ [] ∧
    anchors = replicate batch_size (concat per_level).
Proof.
  unfold batch_anchors. intros Hrun.
  destruct (mapM _ _) as [per_level|] eqn:Hmap; simplify_eq/=.
  apply mapM_Some in Hmap.
  destruct per_level as [|a per_level]; simplify_eq/=.
  exists (a :: per_level). split_and!; [done..|].
  by rewrite tile0_expand_dims0.
Qed.
End Call.

Section Init.
Context {F Image Features FeatureMap : Type} `{Utils F}.

Lemma init_inv (cfg : AnchorsConfig F) nc
    (backbone0 : list Image → bool → Features)
    (neck0 : Features → bool → list FeatureMap) class_head0 bb_head0 self :
  init cfg nc backbone0 neck0 class_head0 bb_head0 = Some self →
  ∃ s3 s4 s5 s6 s7 st3 st4 st5 st6 st7,
    sizes cfg !! 0 = Some s3 ∧ sizes cfg !! 1 = Some s4 ∧
    sizes cfg !! 2 = Some s5 ∧ sizes cfg !! 3 = Some s6 ∧
    sizes cfg !! 4 = Some s7 ∧
    strides cfg !! 0 = Some st3 ∧ strides cfg !! 1 = Some st4 ∧
    strides cfg !! 2 = Some st5 ∧ strides cfg !! 3 = Some st6 ∧
    strides cfg !! 4 = Some st7 ∧
    self = mkEfficientDet nc backbone0 neck0 class_head0 bb_head0
             [AnchorGenerator s3 (ratios cfg) st3;
              AnchorGenerator s4 (ratios cfg) st4;
              AnchorGenerator s5 (ratios cfg) st5;
              AnchorGenerator s6 (ratios cfg) st6;
              AnchorGenerator s7 (ratios cfg) st7].
Proof.
  unfold init. intros Hrun. cbn [seq mapM] in Hrun. simpl in Hrun.
  destruct (sizes cfg !! 0) as [s3|]; simplify_eq/=.
  destruct (strides cfg !! 0) as [st3|]; simplify_eq/=.
  destruct (sizes cfg !! 1) as [s4|]; simplify_eq/=.
  destruct (strides cfg !! 1) as [st4|]; simplify_eq/=.
  destruct (sizes cfg !! 2) as [s5|]; simplify_eq/=.
  destruct (strides cfg !! 2) as [st5|]; simplify_eq/=.
  destruct (sizes cfg !! 3) as [s6|]; simplify_eq/=.
  destruct (strides cfg !! 3) as [st6|]; simplify_eq/=.
  destruct (sizes cfg !! 4) as [s7|]; simplify_eq/=.
  destruct (strides cfg !! 4) as [st7|]; simplify_eq/=.
  by exists s3, s4, s5, s6, s7, st3, st4, st5, st6, st7.
Qed.
End Init.

Example toy_detector_eq : toy_detector = Some toy_self.
Proof. reflexivity. Qed.

Example toy_call : call toy_shape0 sample_hw toy_self [7; 8] false = Some toy_detections.
Proof. vm_compute. reflexivity. Qed.

(** C3: at inference [call] decodes the predicted deltas against the
    anchors, clips the decoded boxes to the image, and applies NMS to the
    clipped boxes, in this order; when training it returns the raw head
    outputs, whatever the decoding, clipping and NMS operations are. *)
Theorem inference_decode_clip_nms {F Image Features FeatureMap} `{U : Utils F}
    (shape0 : FeatureMap → option (list nat)) (image_hw : list Image → Z * Z)
    (self : EfficientDet F Image Features FeatureMap) (images : list Image) :
  (∀ out,
     call shape0 image_hw self images false = Some out ↔
     ∃ bboxes class_scores anchors scores3 deltas3 decoded clipped
       boxes labels scores,
       raw_outputs self images false = Some (bboxes, class_scores) ∧
       batch_anchors shape0 self (neck self (backbone self images false) false)
                     (length bboxes) = Some anchors ∧
       reshape_batch (num_classes self) class_scores = Some scores3 ∧
       reshape_batch 4 bboxes = Some deltas3 ∧
       regress_bndboxes anchors deltas3 = Some decoded ∧
       clip_boxes decoded (image_hw images) = Some clipped ∧
       nms clipped scores3 = Some (boxes, labels, scores) ∧
       out = Detections boxes labels scores) ∧
  call shape0 image_hw self images true
    = (raw ← raw_outputs self images true; Some (Raw raw.1 raw.2)) ∧
  (∀ U' : Utils F,
     call (H := U') shape0 image_hw self images true
     = call (H := U) shape0 image_hw self images true).
Proof.
  split_and!.
  - intros out. apply call_inference.
  - apply call_training.
  - intros U'. by rewrite !call_training.
Qed.

Lemma inference_decode_clip_nms_witness :
  ∃ bboxes class_scores anchors scores3 deltas3 decoded clipped
    boxes labels scores,
    raw_outputs toy_self [7; 8] false = Some (bboxes, class_scores) ∧
    batch_anchors toy_shape0 toy_self (toy_neck (toy_backbone [7; 8] false) false)
                  (length bboxes) = Some anchors ∧
    reshape_batch 1 class_scores = Some scores3 ∧
    reshape_batch 4 bboxes = Some deltas3 ∧
    toy_regress anchors deltas3 = Some decoded ∧
    toy_clip decoded (128, 128)%Z = Some clipped ∧
    toy_nms clipped scores3 = Some (boxes, labels, scores) ∧
    toy_detections = Detections boxes labels scores.
Proof.
  refine (proj1 (proj1 (inference_decode_clip_nms toy_shape0 sample_hw toy_self
                          [7; 8]) toy_detections) _).
  vm_compute. reflexivity.
Defined.

Section Anchors.
Context {F Image Features FeatureMap : Type} `{Utils F}.
Variable shape0 : FeatureMap → option (list nat).

Lemma batch_anchors_five (self : EfficientDet F Image Features FeatureMap)
    g3 g4 g5 g6 g7 f3 f4 f5 f6 f7 batch_size anchors :
  anchors_gen self = [g3; g4; g5; g6; g7] →
  batch_anchors shape0 self [f3; f4; f5; f6; f7] batch_size = Some anchors →
  ∃ a3 a4 a5 a6 a7,
    level_anchors shape0 g3 f3 = Some a3 ∧
    level_anchors shape0 g4 f4 = Some a4 ∧
    level_anchors shape0 g5 f5 = Some a5 ∧
    level_anchors shape0 g6 f6 = Some a6 ∧
    level_anchors shape0 g7 f7 = Some a7 ∧
    anchors = replicate batch_size (a3 ++ a4 ++ a5 ++ a6 ++ a7).
Proof.
  intros Hgens (per_level & Hall & _ & ->)%batch_anchors_inv.
  rewrite Hgens in Hall. simpl in Hall.
  apply Forall2_cons_inv_l in Hall as (a3 & l3 & H3 & Hall & ->).
  apply Forall2_cons_inv_l in Hall as (a4 & l4 & H4 & Hall & ->).
  apply Forall2_cons_inv_l in Hall as (a5 & l5 & H5 & Hall & ->).
  apply Forall2_cons_inv_l in Hall as (a6 & l6 & H6 & Hall & ->).
  apply Forall2_cons_inv_l in Hall as (a7 & l7 & H7 & Hall & ->).
  apply Forall2_nil_inv_l in Hall as ->.
  exists a3, a4, a5, a6, a7. split_and!; [done..|].
  simpl. by rewrite app_nil_r.
Qed.
End Anchors.

(** C4: [__init__] builds one anchor generator per pyramid level 3 to 7;
    at inference the anchors these generate for the five feature maps are
    concatenated into one flat list, and the batch of anchors the deltas
    are regressed against is that one list repeated for every image of the
    batch. *)
Theorem anchors_shared_across_batch {F Image Features FeatureMap} `{Utils F}
    (shape0 : FeatureMap → option (list nat)) (image_hw : list Image → Z * Z)
    (cfg : AnchorsConfig F) nc
    (backbone0 : list Image → bool → Features)
    (neck0 : Features → bool → list FeatureMap) class_head0 bb_head0
    (self : EfficientDet F Image Features FeatureMap) images f3 f4 f5 f6 f7 out :
  init cfg nc backbone0 neck0 class_head0 bb_head0 = Some self →
  neck0 (backbone0 images false) false = [f3; f4; f5; f6; f7] →
  call shape0 image_hw self images false = Some out →
  ∃ s3 s4 s5 s6 s7 st3 st4 st5 st6 st7 a3 a4 a5 a6 a7
    bboxes class_scores deltas3 decoded,
    sizes cfg = s3 :: s4 :: s5 :: s6 :: s7 :: drop 5 (sizes cfg) ∧
    strides cfg = st3 :: st4 :: st5 :: st6 :: st7 :: drop 5 (strides cfg) ∧
    level_anchors shape0 (AnchorGenerator s3 (ratios cfg) st3) f3 = Some a3 ∧
    level_anchors shape0 (AnchorGenerator s4 (ratios cfg) st4) f4 = Some a4 ∧
    level_anchors shape0 (AnchorGenerator s5 (ratios cfg) st5) f5 = Some a5 ∧
    level_anchors shape0 (AnchorGenerator s6 (ratios cfg) st6) f6 = Some a6 ∧
    level_anchors shape0 (AnchorGenerator s7 (ratios cfg) st7) f7 = Some a7 ∧
    raw_outputs self images false = Some (bboxes, class_scores) ∧
    reshape_batch 4 bboxes = Some deltas3 ∧
    batch_anchors shape0 self [f3; f4; f5; f6; f7] (length bboxes)
      = Some (replicate (length bboxes) (a3 ++ a4 ++ a5 ++ a6 ++ a7)) ∧
    regress_bndboxes (replicate (length bboxes) (a3 ++ a4 ++ a5 ++ a6 ++ a7))
                     deltas3 = Some decoded ∧
    ∀ b, b < length bboxes →
         replicate (length bboxes) (a3 ++ a4 ++ a5 ++ a6 ++ a7) !! b
         = Some (a3 ++ a4 ++ a5 ++ a6 ++ a7).
Proof.
  intros Hinit Hneck Hcall.
  apply init_inv in Hinit
    as (s3 & s4 & s5 & s6 & s7 & st3 & st4 & st5 & st6 & st7 &
        Hs3 & Hs4 & Hs5 & Hs6 & Hs7 & Ht3 & Ht4 & Ht5 & Ht6 & Ht7 & ->).
  apply call_inference in Hcall
    as (bboxes & class_scores & anchors & scores3 & deltas3 & decoded & clipped &
        boxes & labels & scores & Hraw & Hanch & _ & Hd3 & Hdec & _).
  simpl in Hanch. rewrite Hneck in Hanch.
  pose proof Hanch as Hanch'.
  eapply batch_anchors_five in Hanch'
    as (a3 & a4 & a5 & a6 & a7 & H3 & H4 & H5 & H6 & H7 & ->); [|done].
  exists s3, s4, s5, s6, s7, st3, st4, st5, st6, st7, a3, a4, a5, a6, a7,
         bboxes, class_scores, deltas3, decoded.
  split_and!; try done.
  - destruct (sizes cfg) as [|? [|? [|? [|? [|? ?]]]]]; by simplify_eq/=.
  - destruct (strides cfg) as [|? [|? [|? [|? [|? ?]]]]]; by simplify_eq/=.
  - intros b Hb. by apply lookup_replicate_2.
Qed.

Lemma anchors_shared_across_batch_witness :
  ∃ s3 s4 s5 s6 s7 st3 st4 st5 st6 st7 a3 a4 a5 a6 a7
    bboxes class_scores deltas3 decoded,
    sizes toy_config = s3 :: s4 :: s5 :: s6 :: s7 :: drop 5 (sizes toy_config) ∧
    strides toy_config
      = st3 :: st4 :: st5 :: st6 :: st7 :: drop 5 (strides toy_config) ∧
    level_anchors toy_shape0 (AnchorGenerator s3 (ratios toy_config) st3) (3, 2) = Some a3 ∧
    level_anchors toy_shape0 (AnchorGenerator s4 (ratios toy_config) st4) (4, 2) = Some a4 ∧
    level_anchors toy_shape0 (AnchorGenerator s5 (ratios toy_config) st5) (5, 2) = Some a5 ∧
    level_anchors toy_shape0 (AnchorGenerator s6 (ratios toy_config) st6) (6, 2) = Some a6 ∧
    level_anchors toy_shape0 (AnchorGenerator s7 (ratios toy_config) st7) (7, 2) = Some a7 ∧
    raw_outputs toy_self [7; 8] false = Some (bboxes, class_scores) ∧
    reshape_batch 4 bboxes = Some deltas3 ∧
    batch_anchors toy_shape0 toy_self [(3, 2); (4, 2); (5, 2); (6, 2); (7, 2)]
                  (length bboxes)
      = Some (replicate (length bboxes) (a3 ++ a4 ++ a5 ++ a6 ++ a7)) ∧
    regress_bndboxes (replicate (length bboxes) (a3 ++ a4 ++ a5 ++ a6 ++ a7))
                     deltas3 = Some decoded ∧
    ∀ b, b < length bboxes →
         replicate (length bboxes) (a3 ++ a4 ++ a5 ++ a6 ++ a7) !! b
         = Some (a3 ++ a4 ++ a5 ++ a6 ++ a7).
Proof.
  apply (anchors_shared_across_batch toy_shape0 sample_hw toy_config 1
           toy_backbone toy_neck toy_class_head toy_bb_head toy_self [7; 8]
           (3, 2) (4, 2) (5, 2) (6, 2) (7, 2) toy_detections).
  - reflexivity.
  - reflexivity.
  - vm_compute. reflexivity.
Defined.

(** The fuel [reshape3] gives [rows_of] is enough: a row of [n * k] entries
    is cut into [n] rows of [k] entries. *)
Lemma rows_of_total {A} (k : nat) : ∀ (n fuel : nat) (v : list A),
  0 < k → length v = n * k → length v ≤ fuel →
  ∃ rows, Tf.rows_of fuel k v = Some rows ∧ concat rows = v ∧
          length rows = n ∧ Forall (λ row, length row = k) rows.
Proof.
  induction n as [|n IH]; intros fuel v Hk Hlen Hfuel.
  - destruct v; [|done]. exists []. by destruct fuel.
  - destruct v as [|x v]; [simpl in Hlen; lia|].
    destruct fuel as [|fuel]; [simpl in Hfuel; lia|].
    cbn [Tf.rows_of]. rewrite decide_False by lia.
    destruct (IH fuel (drop k (x :: v))) as (rows & -> & Hcat & Hn & Hall).
    { done. } { rewrite length_drop. lia. }
    { rewrite length_drop. simpl in *. lia. }
    exists (take k (x :: v) :: rows). simpl. split_and!.
    + done.
    + by rewrite Hcat, take_drop.
    + by rewrite Hn.
    + constructor; [|done]. rewrite length_take. lia.
Qed.
End DetectorProofs.
(* ===================================================================== *)
(** * Further properties of the dataset pipeline (voc.py) *)
(* ===================================================================== *)

Module VocExtra.
Import Voc.

Lemma enumerate_snoc {A} (l : list A) (x : A) :
  enumerate (l ++ [x]) = enumerate l ++ [(Z.of_nat (length l), x)].
Proof.
  unfold enumerate. rewrite length_app. simpl.
  rewrite Nat2Z.inj_add, seqZ_app by lia.
  rewrite zip_with_app by (rewrite length_seqZ; lia).
  reflexivity.
Qed.

Lemma label_2_idx_snoc (table : list string) (l : string) :
  label_2_idx (table ++ [l])
  = <[l := Z.of_nat (length table)]> (label_2_idx table).
Proof. unfold label_2_idx. by rewrite enumerate_snoc, foldl_app. Qed.

Lemma label_2_idx_spec (table : list string) (l : string) :
  (∀ i : Z, label_2_idx table !! l = Some i ↔
            (0 ≤ i)%Z ∧ table !! Z.to_nat i = Some l ∧
            ∀ j, Z.to_nat i < j → table !! j ≠ Some l) ∧
  (is_Some (label_2_idx table !! l) ↔ l ∈ table).
Proof.
  induction table as [|x table [IH1 IH2]] using rev_ind.
  - split.
    + intros i. split; [done|]. by intros (_ & ? & _).
    + split; [by intros [? ?] | by intros ?%elem_of_nil].
  - rewrite label_2_idx_snoc. split.
    + intros i. destruct (decide (x = l)) as [->|Hne].
      * rewrite lookup_insert_eq. split.
        -- intros [= <-]. rewrite Nat2Z.id. split_and!; [lia | |].
           ++ by rewrite lookup_app_r, Nat.sub_diag.
           ++ intros j Hj. rewrite lookup_ge_None_2; [done|].
              rewrite length_app. simpl. lia.
        -- intros (Hi & Hl & Hlast). f_equal.
           destruct (decide (Z.to_nat i = length table)) as [|Hne]; [lia|].
           exfalso. apply (Hlast (length table)).
           ++ apply lookup_lt_Some in Hl. rewrite length_app in Hl. simpl in Hl. lia.
           ++ by rewrite lookup_app_r, Nat.sub_diag.
      * rewrite lookup_insert_ne by done. rewrite IH1. split.
        -- intros (Hi & Hl & Hlast). split_and!; [done | |].
           ++ by apply lookup_app_l_Some.
           ++ intros j Hj Hjl. apply lookup_app_Some in Hjl as [Hjl | [_ Hjl]].
              ** by apply (Hlast j).
              ** apply list_lookup_singleton_Some in Hjl as [_ ?]. done.
        -- intros (Hi & Hl & Hlast). split_and!; [done | |].
           ++ apply lookup_app_Some in Hl as [Hl | [_ Hl]]; [done|].
              apply list_lookup_singleton_Some in Hl as [_ ?]. done.
           ++ intros j Hj Hjl. apply (Hlast j Hj). by apply lookup_app_l_Some.
    + rewrite elem_of_app, list_elem_of_singleton, <- IH2.
      destruct (decide (x = l)) as [->|Hne].
      * rewrite lookup_insert_eq. split; [by right | by eexists].
      * rewrite lookup_insert_ne by done. split; [by left|]. by intros [?|?].
Qed.

(** X1: for any label table, the dictionary comprehension maps a label to
    the index of its last occurrence in the table, and its keys are exactly
    the labels of the table. *)
Theorem label_2_idx_last_occurrence (table : list string) (l : string) :
  (∀ i : Z, label_2_idx table !! l = Some i ↔
            (0 ≤ i)%Z ∧ table !! Z.to_nat i = Some l ∧
            ∀ j, Z.to_nat i < j → table !! j ≠ Some l) ∧
  (is_Some (label_2_idx table !! l) ↔ l ∈ table).
Proof. apply label_2_idx_spec. Qed.

Lemma label_2_idx_last_occurrence_witness :
  label_2_idx ["cat"; "dog"; "cat"] !! "cat" = Some 2%Z ∧
  is_Some (label_2_idx ["cat"; "dog"; "cat"] !! "cat").
Proof.
  split.
  - apply (proj1 (label_2_idx_last_occurrence ["cat"; "dog"; "cat"] "cat") 2%Z).
    split_and!; [lia | reflexivity |].
    intros [|[|[|j]]] Hj; simpl in *; try lia; done.
  - apply (proj2 (label_2_idx_last_occurrence ["cat"; "dog"; "cat"] "cat")).
    apply list_elem_of_here.
Defined.

Section Reading.
Context {F : Type} `{Scalar F}.

Lemma read_objects_total boxes : ∀ bbs labels,
  Forall (λ o, is_Some (LABEL_2_IDX !! name o)) boxes →
  is_Some (read_objects boxes bbs labels).
Proof.
  induction boxes as [|b boxes IH]; intros bbs labels Hall; [by eexists|].
  apply Forall_cons in Hall as [[idx Hidx] Hall].
  cbn [read_objects]. rewrite Hidx. simpl. by apply IH.
Qed.

Lemma LABEL_2_IDX_keys (l : string) :
  is_Some (LABEL_2_IDX !! l) ↔ l = "bin".
Proof.
  unfold LABEL_2_IDX.
  rewrite (proj2 (label_2_idx_spec IDX_2_LABEL l)).
  unfold IDX_2_LABEL. by rewrite list_elem_of_singleton.
Qed.

Lemma read_voc_annot_is_Some (annot : VocAnnot) :
  is_Some (_read_voc_annot (F := F) annot)
  ↔ Forall (λ o, is_Some (LABEL_2_IDX !! name o)) (objects annot) ∧
    Forall (λ bb : Z * Z * Z * Z,
              Tf.int64 bb.1.1.1 ∧ Tf.int64 bb.1.1.2 ∧ Tf.int64 bb.1.2 ∧
              Tf.int64 bb.2)
           (bndbox_of <$> objects annot).
Proof.
  unfold _read_voc_annot.
  destruct (read_objects (objects annot) [] []) as [[bbs labels]|] eqn:Hobj.
  - apply VocProofs.read_objects_inv in Hobj as (-> & idxs & -> & Hall).
    cbn [mbind option_bind app]. unfold Tf.stack_ints.
    assert (Forall (λ o, is_Some (LABEL_2_IDX !! name o)) (objects annot)) as Hn.
    { apply Forall_forall. intros o Ho.
      apply list_elem_of_lookup in Ho as [i Hi].
      destruct (Forall2_lookup_l _ _ _ _ _ Hall Hi) as (idx & _ & Hidx).
      by eexists. }
    case_decide as Hrange; cbn [mbind option_bind].
    + split; [done | by eexists].
    + split; [by intros [? ?] | by intros [_ ?]].
  - split; [by intros [? ?]|]. intros [Hn _].
    destruct (read_objects_total (objects annot) [] [] Hn) as [x Hx].
    by rewrite Hx in Hobj.
Qed.
End Reading.

(** X2: for an annotation file with at least one object,
    [_read_voc_annot] returns exactly when every object is named "bin", the
    only key of [LABEL_2_IDX] (any other name raises [KeyError]), and
    every coordinate of every box fits 64 bits (otherwise [tf.stack]
    raises [ValueError]); it then returns one label and one box per object,
    in the order of the file, and every label is 0.  A file without
    objects is left out: what happens to its empty tensor is decided inside
    [normalize_bndboxes]. *)
Theorem read_voc_annot_key_error {F} `{Scalar F} (annot : VocAnnot) :
  objects annot ≠ [] →
  (is_Some (_read_voc_annot (F := F) annot)
   ↔ Forall (λ o, name o = "bin" ∧
                  Tf.int64 (xmin o) ∧ Tf.int64 (ymin o) ∧
                  Tf.int64 (xmax o) ∧ Tf.int64 (ymax o))
            (objects annot)) ∧
  ∀ labels (bbs : list (Box F)),
    _read_voc_annot annot = Some (labels, bbs) →
    labels = replicate (length (objects annot)) 0%Z ∧
    bbs = normalize_bndboxes (bndbox_of <$> objects annot)
            (size_height annot, size_width annot).
Proof.
  intros _. split.
  - rewrite read_voc_annot_is_Some, Forall_fmap, <- Forall_and.
    apply Forall_iff. intros o. simpl. by rewrite LABEL_2_IDX_keys.
  - intros labels bbs [Hall ->]%VocProofs.read_voc_annot_inv. split; [|done].
    symmetry. apply replicate_as_Forall. split.
    + symmetry. by eapply Forall2_length.
    + apply Forall_forall. intros l Hl.
      apply list_elem_of_lookup in Hl as [i Hl].
      destruct (Forall2_lookup_r _ _ _ _ _ Hall Hl) as (o & Ho & Hidx).
      assert (name o = "bin") as Hname by (apply LABEL_2_IDX_keys; by eexists).
      rewrite Hname in Hidx. by injection Hidx.
Qed.

Lemma read_voc_annot_key_error_witness :
  is_Some (_read_voc_annot (F := Q) annot0) ∧
  ¬ is_Some (_read_voc_annot (F := Q) annot_wide) ∧
  [0%Z] = replicate (length (objects annot0)) 0%Z ∧
  [mkBox (1 # 10) (1 # 10) (5 # 10) (5 # 10)]%Q
  = normalize_bndboxes (bndbox_of <$> objects annot0)
      (size_height annot0, size_width annot0).
Proof.
  destruct (read_voc_annot_key_error (F := Q) annot0) as [H1 H2]; [done|].
  destruct (read_voc_annot_key_error (F := Q) annot_wide) as [H3 _]; [done|].
  split_and!.
  - apply H1. apply Forall_singleton. unfold Tf.int64. simpl.
    split_and!; [done | lia..].
  - intros Hs%H3. apply Forall_cons in Hs as [(_ & _ & _ & [_ Hx] & _) _].
    revert Hx. vm_compute. congruence.
  - apply (H2 [0%Z] [mkBox (1 # 10) (1 # 10) (5 # 10) (5 # 10)]%Q). reflexivity.
  - apply (H2 [0%Z] [mkBox (1 # 10) (1 # 10) (5 # 10) (5 # 10)]%Q). reflexivity.
Defined.

Section Lazy.
Context {F : Type} `{Scalar F} {Image : Type}.
Implicit Types (annot_files : list VocAnnot) (im_ds : list Image).

Lemma iterate_eq {A} (ds : Tf.data.Dataset A) :
  Tf.data.iterate ds
  = if Tf.data.raised ds then None else Some (Tf.data.yielded ds).
Proof.
  destruct (Tf.data.iterate ds) as [l|] eqn:Hit.
  - by apply VocProofs.iterate_Some in Hit as [-> ->].
  - destruct (Tf.data.raised ds) eqn:Hr; [done|].
    by rewrite (proj2 (VocProofs.iterate_Some ds _) (conj Hr eq_refl)) in Hit.
Qed.

(** The generator is not asked for more elements than there are images. *)
Lemma zip_annot_gen_take {B} (f : list Z * list (Box F) → B) im_ds :
  ∀ annot_files,
  Tf.data.zip (Tf.data.from_list im_ds)
    (Tf.data.map f (_annot_gen (take (length im_ds) annot_files)))
  = Tf.data.zip (Tf.data.from_list im_ds) (Tf.data.map f (_annot_gen annot_files)).
Proof.
  induction im_ds as [|im im_ds IH]; intros [|a annot_files]; try done.
  cbn [length take _annot_gen Tf.data.from_list].
  destruct (_read_voc_annot a); [|done].
  cbn [Tf.data.map Tf.data.zip]. by rewrite IH.
Qed.

Lemma joined_ds_take annot_files im_ds im_input_size batch_size :
  joined_ds (F := F) (take (length im_ds) annot_files) im_ds im_input_size
    batch_size
  = joined_ds annot_files im_ds im_input_size batch_size.
Proof.
  unfold joined_ds.
  destruct (Tf.data.list_files im_ds) as [ims|] eqn:Hfiles; [|done].
  apply VocProofs.list_files_Some in Hfiles as [_ ->].
  cbn [mbind option_bind]. by rewrite zip_annot_gen_take.
Qed.

Lemma joined_ds_is_Some annot_files im_ds im_input_size batch_size :
  is_Some (joined_ds (F := F) annot_files im_ds im_input_size batch_size)
  ↔ im_ds ≠ [] ∧ batch_size ≠ 0.
Proof.
  split.
  - intros [ds (? & ? & _)%VocProofs.joined_ds_inv]. split; [done | lia].
  - intros [Hne Hbs]. unfold joined_ds, Tf.data.list_files, padded_batch.
    destruct im_ds; [done|]. cbn [mbind option_bind].
    rewrite decide_False by done. by eexists.
Qed.

Lemma zipped_elements annot_files im_ds im_input_size :
  Forall (pipeline_element annot_files im_ds im_input_size)
    (zip im_ds ((λ lb, _scale_boxes lb.1 lb.2 im_input_size)
                  <$> Tf.data.yielded (_annot_gen (F := F) annot_files))).
Proof.
  apply Forall_forall. intros [im [ls bs]] He.
  split; [by eapply elem_of_zip_l|].
  apply elem_of_zip_r, list_elem_of_fmap in He as ([gl gb] & Heq & Hr).
  apply list_elem_of_lookup in Hr as [k Hk].
  apply VocProofs.annot_gen_lookup in Hk as (annot & Hannot & Hread).
  exists annot, gl, gb. split_and!; [by eapply list_elem_of_lookup_2 | done |].
  destruct im_input_size as [h w]. by rewrite VocProofs.scale_boxes_eq in Heq.
Qed.

(** Row [j] of a batch in terms of element [j] of its group. *)
Lemma pad_group_row annot_files im_ds im_input_size
    (g : list (Image * (list Z * list (Box F)))) j im gl gb :
  Forall (pipeline_element annot_files im_ds im_input_size) g →
  g !! j = Some (im, (gl, gb)) →
  length gb = length gl →
  ∃ n, labels (pad_group g) !! j = Some (gl ++ replicate n (-1)%Z) ∧
       bbs (pad_group g) !! j = Some (gb ++ replicate n zero_box).
Proof.
  intros Hall Hg Hlen.
  exists (max_list (length <$> ((λ e, e.2.1) <$> g)) - length gl).
  rewrite VocProofs.pad_group_labels, VocProofs.pad_group_bbs.
  rewrite (VocProofs.pipeline_element_lengths _ _ _ _ Hall).
  rewrite !list_lookup_fmap, Hg. simpl. unfold pad_to. by rewrite Hlen.
Qed.
End Lazy.

(** X3: the data set of [build_dataset], before shuffling, is built when
    there is an image and [batch_size] is not 0 ([list_files] raises when
    nothing matches), and it is lazy.  Annotation files beyond the number
    of images are never read.  Row [j] of batch [i] holds image
    [i * batch_size + j] together with the labels and the scaled boxes
    read from the annotation file of the same index, padded.  Every batch
    is full, except possibly the last one of an iteration that ends
    without an exception.  If no annotation file that is read fails, every
    image that has an annotation file is delivered; otherwise the
    iteration raises at the first file [k] that fails, after the
    [k / batch_size] full batches before it. *)
Theorem build_dataset_order {F} `{Scalar F} {Image}
    (shuffle128 : list (Batch F Image) → list (Batch F Image))
    annot_files (im_ds : list Image) im_input_size batch_size :
  (is_Some (joined_ds (F := F) annot_files im_ds im_input_size batch_size)
   ↔ im_ds ≠ [] ∧ batch_size ≠ 0) ∧
  joined_ds (F := F) (take (length im_ds) annot_files) im_ds im_input_size
    batch_size
  = joined_ds annot_files im_ds im_input_size batch_size ∧
  ∀ ds, joined_ds annot_files im_ds im_input_size batch_size = Some ds →
    (∀ i batch j im,
       Tf.data.yielded ds !! i = Some batch → images batch !! j = Some im →
       j < batch_size ∧
       im_ds !! (i * batch_size + j) = Some im ∧
       ∃ annot gl gb n,
         annot_files !! (i * batch_size + j) = Some annot ∧
         _read_voc_annot annot = Some (gl, gb) ∧
         labels batch !! j = Some (gl ++ replicate n (-1)%Z) ∧
         bbs batch !! j
         = Some ((scale_box im_input_size.1 im_input_size.2 <$> gb)
                   ++ replicate n zero_box)) ∧
    (∀ i batch,
       Tf.data.yielded ds !! i = Some batch →
       0 < length (images batch) ≤ batch_size ∧
       (S i < length (Tf.data.yielded ds) ∨ Tf.data.raised ds = true →
        length (images batch) = batch_size)) ∧
    build_dataset shuffle128 annot_files im_ds im_input_size false batch_size
    = (if Tf.data.raised ds then None else Some (Tf.data.yielded ds)) ∧
    (Tf.data.raised ds = false →
     ∀ k im, im_ds !! k = Some im → k < length annot_files →
       ∃ batch, Tf.data.yielded ds !! (k `div` batch_size) = Some batch ∧
                images batch !! (k `mod` batch_size) = Some im) ∧
    (Tf.data.raised ds = true →
     ∃ k annot,
       k < length im_ds ∧ annot_files !! k = Some annot ∧
       _read_voc_annot (F := F) annot = None ∧
       (∀ k' annot', k' < k → annot_files !! k' = Some annot' →
                     is_Some (_read_voc_annot (F := F) annot')) ∧
       length (Tf.data.yielded ds) = k `div` batch_size).
Proof.
  split; [apply joined_ds_is_Some|]. split; [apply joined_ds_take|].
  intros ds Hj.
  destruct (VocProofs.joined_ds_inv _ _ _ _ _ Hj) as (Hne & Hbs & Hraised & Hlook).
  pose proof (zipped_elements annot_files im_ds im_input_size) as Hall.
  pose proof (VocProofs.annot_gen_length_le (F := F) annot_files) as Hgood.
  set (good := Tf.data.yielded (_annot_gen annot_files)) in *.
  set (l := zip im_ds _) in *.
  assert (length l = length im_ds `min` length good) as Hl
    by (unfold l; by rewrite length_zip_with, length_fmap).
  split_and!.
  - intros i batch j im [-> Hcond]%Hlook Him.
    cbn [images pad_group] in Him. rewrite list_lookup_fmap in Him.
    apply fmap_Some in Him as ([im' [ls bs]] & Hg & ->).
    pose proof Hg as [Hg' Hjlt]%lookup_take_Some. rewrite lookup_drop in Hg'.
    pose proof Hg' as [Him Hx]%lookup_zip_Some.
    rewrite list_lookup_fmap in Hx.
    apply fmap_Some in Hx as ([gl gb] & Hk & Heq).
    apply VocProofs.annot_gen_lookup in Hk as (annot & Hannot & Hread).
    destruct im_input_size as [h w]. rewrite VocProofs.scale_boxes_eq in Heq.
    injection Heq as -> ->.
    split_and!; [done..|].
    destruct (pad_group_row annot_files im_ds (h, w)
                (take batch_size (drop (i * batch_size) l)) j im' gl
                (scale_box h w <$> gb)) as (n & Hn1 & Hn2);
      [by apply Forall_take, Forall_drop | done | |].
    { rewrite length_fmap.
      by destruct (VocProofs.read_voc_annot_length _ _ _ Hread) as [-> ->]. }
    by exists annot, gl, gb, n.
  - intros i batch Hi. pose proof Hi as [-> Hcond]%Hlook.
    cbn [images pad_group]. rewrite length_fmap, length_take, length_drop.
    split; [destruct (Tf.data.raised ds); lia|].
    intros [Hlast | Hr].
    + apply lookup_lt_is_Some_2 in Hlast as [batch' [_ Hc]%Hlook].
      destruct (Tf.data.raised ds); simpl in Hc; lia.
    + rewrite Hr in Hcond. lia.
  - unfold build_dataset. rewrite Hj. cbn [mbind option_bind].
    rewrite iterate_eq. by destruct (Tf.data.raised ds).
  - intros Hr k im Hk Hklt.
    assert (k < length l) as Hkl.
    { apply lookup_lt_Some in Hk. rewrite Hraised in Hr.
      case_decide; [lia|].
      apply VocProofs.annot_gen_not_raised in Hr. fold good in Hr. lia. }
    pose proof (Nat.div_mod_eq k batch_size) as Hdm.
    pose proof (Nat.mod_upper_bound k batch_size ltac:(lia)) as Hmod.
    eexists. split.
    + apply Hlook. split; [done|]. rewrite Hr. lia.
    + cbn [images pad_group].
      rewrite list_lookup_fmap, lookup_take_lt, lookup_drop by done.
      replace (k `div` batch_size * batch_size + k `mod` batch_size) with k by lia.
      destruct (lookup_lt_is_Some_2 l k Hkl) as [[im' x] Hx].
      rewrite Hx. simpl. apply lookup_zip_Some in Hx as [Hx _]. congruence.
  - intros Hr. pose proof Hr as Hr'. rewrite Hraised in Hr'.
    case_decide as Hle; [done|].
    apply VocProofs.annot_gen_raised in Hr' as (annot & Hannot & Hnone).
    fold good in Hannot.
    exists (length good), annot. split_and!; [lia | done | done | |].
    + intros k' annot' Hk' Hannot'.
      destruct (lookup_lt_is_Some_2 good k' Hk') as [x Hx].
      apply VocProofs.annot_gen_lookup in Hx as (a & Ha & Hread).
      assert (a = annot') as -> by congruence. by eexists.
    + set (m := length (Tf.data.yielded ds)).
      assert (m * batch_size ≤ length good) as Hlow.
      { destruct m as [|m'] eqn:Hm; [lia|].
        destruct (lookup_lt_is_Some_2 (Tf.data.yielded ds) m' ltac:(fold m; lia))
          as [batch [_ Hc]%Hlook].
        rewrite Hr in Hc. lia. }
      assert (length good < (m + 1) * batch_size) as Hup.
      { destruct (decide ((m + 1) * batch_size ≤ length good)) as [Hc|]; [|lia].
        assert (Tf.data.yielded ds !! m = Some
                  (pad_group (take batch_size (drop (m * batch_size) l)))) as Hm.
        { apply Hlook. split; [done|]. rewrite Hr. lia. }
        apply lookup_lt_Some in Hm. fold m in Hm. lia. }
      apply (Nat.div_unique _ _ _ (length good - m * batch_size)); lia.
Qed.

Lemma build_dataset_order_witness :
  is_Some (joined_ds (F := Q) [annot0; annot1; annot_cat; annot0] [7; 8; 9; 10]
             (128, 128)%Z 2) ∧
  (1 < 2 ∧
   [7; 8; 9; 10] !! (0 * 2 + 1) = Some 8 ∧
   ∃ annot gl gb n,
     [annot0; annot1; annot_cat; annot0] !! (0 * 2 + 1) = Some annot ∧
     _read_voc_annot annot = Some (gl, gb) ∧
     labels sample_batch !! 1 = Some (gl ++ replicate n (-1)%Z) ∧
     bbs sample_batch !! 1
     = Some ((scale_box 128 128 <$> gb) ++ replicate n zero_box)) ∧
  build_dataset id [annot0; annot1; annot_cat; annot0] [7; 8; 9; 10]
    (128, 128)%Z false 2 = None ∧
  ∃ k annot,
    k < 4 ∧ [annot0; annot1; annot_cat; annot0] !! k = Some annot ∧
    _read_voc_annot (F := Q) annot = None ∧
    (∀ k' annot', k' < k → [annot0; annot1; annot_cat; annot0] !! k' = Some annot' →
                  is_Some (_read_voc_annot (F := Q) annot')) ∧
    1 = k `div` 2.
Proof.
  destruct (build_dataset_order (F := Q) id [annot0; annot1; annot_cat; annot0]
              [7; 8; 9; 10] (128, 128)%Z 2) as (H1 & _ & H3).
  assert (joined_ds (F := Q) [annot0; annot1; annot_cat; annot0] [7; 8; 9; 10]
            (128, 128)%Z 2
          = Some (Tf.data.Element sample_batch Tf.data.Raises)) as Hds
    by (vm_compute; reflexivity).
  destruct (H3 _ Hds) as (Hpair & _ & Hpass & _ & Hraise).
  refine (conj _ (conj _ (conj _ _))).
  - apply H1. split; [done | lia].
  - exact (Hpair 0 sample_batch 1 8 eq_refl eq_refl).
  - exact Hpass.
  - exact (Hraise eq_refl).
Defined.

Lemma filter_padding {B} (m : nat) (pad : B) :
  filter (λ lb : Z * B, lb.1 ≠ (-1)%Z) (zip (replicate m (-1)%Z) (replicate m pad)) = [].
Proof.
  induction m as [|m IH]; [done|]. simpl. rewrite filter_cons.
  by rewrite decide_False by (simpl; intros ?; done).
Qed.

Lemma filter_real {B} (gl : list Z) : ∀ gb : list B,
  Forall (λ l, l ≠ (-1)%Z) gl →
  filter (λ lb : Z * B, lb.1 ≠ (-1)%Z) (zip gl gb) = zip gl gb.
Proof.
  induction gl as [|l gl IH]; intros [|b gb] Hall; try done.
  apply Forall_cons in Hall as [Hl Hall]. simpl. rewrite filter_cons.
  rewrite decide_True by done. by rewrite IH.
Qed.

(** X4: padding and masking are inverse to each other.  For every image of
    every batch of [build_dataset], the mask [labels != -1] that [evaluate]
    applies to the padded labels and boxes gives back exactly the labels of
    the annotation file and its scaled boxes. *)
Theorem padding_mask_round_trip {F} `{Scalar F} {Image}
    (shuffle128 : list (Batch F Image) → list (Batch F Image))
    annot_files (im_ds : list Image) im_input_size shuffle batch_size ds
    batch k ls bs :
  (∀ l, shuffle128 l ≡ₚ l) →
  build_dataset shuffle128 annot_files im_ds im_input_size shuffle batch_size
    = Some ds →
  batch ∈ ds → labels batch !! k = Some ls → bbs batch !! k = Some bs →
  ∃ annot gl gb,
    annot ∈ annot_files ∧ _read_voc_annot annot = Some (gl, gb) ∧
    Tf.boolean_mask ls ((λ l, negb (l =? -1)%Z) <$> ls) = Some gl ∧
    Tf.boolean_mask bs ((λ l, negb (l =? -1)%Z) <$> ls)
    = Some (scale_box im_input_size.1 im_input_size.2 <$> gb).
Proof.
  intros Hperm Hb Hbatch Hls Hbs.
  destruct (VocProofs.batch_structure _ _ _ _ _ _ _ _ Hperm Hb Hbatch)
    as (_ & _ & _ & n & _ & Hk).
  destruct (Hk _ _ _ Hls Hbs)
    as (Hn1 & Hn2 & annot & gl & gb & Hannot & Hread & -> & ->).
  exists annot, gl, gb. split_and!; [done..| |].
  all: destruct (VocProofs.read_voc_annot_length _ _ _ Hread) as [Hl1 Hl2].
  all: pose proof (VocProofs.read_labels_in_range _ _ _ Hread) as Hrange.
  all: assert (Forall (λ l, l ≠ (-1)%Z) gl) as Hreal
         by (eapply Forall_impl; [exact Hrange|]; intros l [? ?]; lia).
  all: set (sgb := scale_box im_input_size.1 im_input_size.2 <$> gb).
  all: assert (length sgb = length gl) as Hsl
         by (unfold sgb; rewrite length_fmap; lia).
  - rewrite (EngineProofs.boolean_mask_labels _ (sgb ++ replicate (n - length gl) zero_box))
      by (rewrite !length_app, !length_replicate; lia).
    f_equal. rewrite zip_with_app by done. rewrite filter_app, filter_padding.
    rewrite app_nil_r, filter_real by done. by apply fst_zip; lia.
  - assert (n - length gb = n - length gl) as -> by lia.
    rewrite EngineProofs.boolean_mask_filter
      by (rewrite !length_app, !length_replicate; lia).
    f_equal. rewrite zip_with_app by done. rewrite filter_app, filter_padding.
    rewrite app_nil_r, filter_real by done. by apply snd_zip; lia.
Qed.

Lemma padding_mask_round_trip_witness :
  ∃ annot gl gb,
    annot ∈ [annot0; annot1] ∧ _read_voc_annot annot = Some (gl, gb) ∧
    Tf.boolean_mask [0; -1]%Z ((λ l, negb (l =? -1)%Z) <$> [0; -1]%Z) = Some gl ∧
    Tf.boolean_mask
      [mkBox (128 # 10) (128 # 10) (640 # 10) (640 # 10); zero_box]%Q
      ((λ l, negb (l =? -1)%Z) <$> [0; -1]%Z)
    = Some (scale_box 128 128 <$> gb).
Proof.
  refine (padding_mask_round_trip (Image := nat) id [annot0; annot1] [7; 8]
            (128, 128)%Z false 2 [sample_batch] sample_batch 0 _ _
            (λ l, reflexivity l) _ _ _ _).
  - vm_compute. reflexivity.
  - apply list_elem_of_here.
  - reflexivity.
  - reflexivity.
Defined.
End VocExtra.

(* ===================================================================== *)
(** * Further properties of the evaluation code (engine.py) *)
(* ===================================================================== *)

Module EngineExtra.
Import Engine EngineEnd.

(** X5: [_COCO_result] makes one record per position at which a label, a
    box and a score are all present; where the three sequences differ in
    length the surplus is dropped without error. *)
Theorem COCO_result_records {F} `{Scalar F} (image_id : Z) (labels : list Z)
    (bboxes : list (Box F)) (scores : list F) :
  length (_COCO_result image_id labels bboxes scores)
    = (length labels `min` length bboxes) `min` length scores ∧
  ∀ i r,
    _COCO_result image_id labels bboxes scores !! i = Some r ↔
    ∃ l b s, labels !! i = Some l ∧ bboxes !! i = Some b ∧ scores !! i = Some s ∧
             r = mkResult image_id l
                   [bx1 b; by1 b; fsub (bx2 b) (bx1 b); fsub (by2 b) (by1 b)] s.
Proof.
  rewrite EngineProofs.COCO_result_eq. split.
  - by rewrite length_fmap, !length_zip_with.
  - intros i r. rewrite list_lookup_fmap. split.
    + intros Hr.
      destruct (zip (zip labels bboxes) scores !! i) as [lbs|] eqn:Hi; simplify_eq/=.
      apply lookup_zip_with_Some in Hi as ([l b] & s & -> & Hi & Hs).
      apply lookup_zip_with_Some in Hi as (l' & b' & ? & Hl & Hb). simplify_eq.
      by exists l', b', s.
    + intros (l & b & s & Hl & Hb & Hs & ->).
      assert (zip (zip labels bboxes) scores !! i = Some (l, b, s)) as ->; [|done].
      apply lookup_zip_with_Some. exists (l, b), s. split_and!; [done | | done].
      apply lookup_zip_with_Some. by exists l, b.
Qed.

(** X6: [_COCO_gt_annot] returns exactly when there are at least as many
    labels as boxes (a missing label raises, surplus labels are ignored);
    it then makes one record per box, with ids counting up from
    [annot_id], the given image id, [iscrowd] 0, the area height times
    width of the box and the label at the same position. *)
Theorem COCO_gt_annot_records {F} `{Scalar F} (image_id annot_id h w : Z)
    (labels : list Z) (bboxes : list (Box F)) :
  (is_Some (_COCO_gt_annot image_id annot_id (h, w) labels bboxes)
   ↔ length bboxes ≤ length labels) ∧
  ∀ image annots,
    _COCO_gt_annot image_id annot_id (h, w) labels bboxes = Some (image, annots) →
    image = mkImageInfo image_id h w ∧
    length annots = length bboxes ∧
    ∀ i a, annots !! i = Some a →
      ∃ l b, labels !! i = Some l ∧ bboxes !! i = Some b ∧
             a = mkAnnot (annot_id + Z.of_nat i) image_id
                   [bx1 b; by1 b; fsub (bx2 b) (bx1 b); fsub (by2 b) (by1 b)]
                   0 (fmul (fsub (by2 b) (by1 b)) (fsub (bx2 b) (bx1 b))) l.
Proof.
  split.
  - split.
    + intros [[image annots] Hrun].
      by apply EngineProofs.COCO_gt_annot_inv in Hrun as [? _].
    + intros Hle. rewrite EngineProofs.COCO_gt_annot_eq by done. by eexists.
  - intros image annots Hrun.
    apply EngineProofs.COCO_gt_annot_inv in Hrun as (Hle & -> & ->).
    split_and!; [done | |].
    + revert annot_id bboxes Hle.
      induction labels as [|l labels IH]; intros annot_id [|b bboxes] Hle;
        simpl in *; try done; try lia.
      f_equal. apply IH. lia.
    + intros i a Ha. by apply EngineProofs.gt_annots_lookup in Ha.
Qed.

Lemma COCO_result_records_witness :
  _COCO_result 1 [0; 0]%Z [mkBox 10 20 50 80]%Q [(9 # 10)%Q; (8 # 10)%Q] !! 0
  = Some (mkResult 1 0 [10; 20; 50 - 10; 80 - 20]%Q (9 # 10)%Q).
Proof.
  apply (proj2 (COCO_result_records (F := Q) 1 [0; 0]%Z [mkBox 10 20 50 80]%Q
                  [(9 # 10)%Q; (8 # 10)%Q]) 0).
  by exists 0%Z, (mkBox 10 20 50 80)%Q, (9 # 10)%Q.
Defined.

Lemma COCO_gt_annot_records_witness :
  is_Some (_COCO_gt_annot 1 1 (128, 128)%Z [0; 0]%Z [mkBox 10 20 50 80]%Q).
Proof.
  apply (proj1 (COCO_gt_annot_records (F := Q) 1 1 128 128 [0; 0]%Z
                  [mkBox 10 20 50 80]%Q)).
  simpl. lia.
Defined.

Section Images.
Context {F : Type} `{Scalar F} {Image : Type}.
Variable image_hw : list Image → Z * Z.
Variable model : list Image → list (list (Box F)) * list (list Z) * list (list F).
Variable dataset : list (Voc.Batch F Image).

Lemma gt_annots_image_id (image_id : Z) (labels : list Z) :
  ∀ annot_id (bboxes : list (Box F)),
  Forall (λ a, ann_image_id a = image_id)
         (gt_annots image_id annot_id labels bboxes).
Proof.
  induction labels as [|l labels IH]; intros annot_id [|b bboxes];
    simpl; by constructor.
Qed.

Lemma image_step_ids batch gl gb pl pb ps st :
  batch ∈ dataset →
  image_ids_inv image_hw dataset st →
  image_ids_inv image_hw dataset
    (image_step (image_hw (Voc.images batch)) gl gb pl pb ps st).
Proof.
  intros Hbatch (Hids & Hiid & Hann & Hres & Hsize).
  unfold image_ids_inv, image_step.
  cbn [gt_annotations gt_images results_coco image_id annot_id].
  assert (1 ≤ image_id st)%Z by lia.
  split_and!.
  - rewrite fmap_app, Hids, length_app, Nat2Z.inj_add, seqZ_app by lia.
    simpl. by rewrite Hiid.
  - rewrite length_app. simpl. lia.
  - apply Forall_app. split.
    + eapply Forall_impl; [exact Hann|]. intros a ?. simpl in *. lia.
    + eapply Forall_impl; [apply gt_annots_image_id|].
      intros a ->. lia.
  - apply Forall_app. split.
    + eapply Forall_impl; [exact Hres|]. intros r ?. simpl in *. lia.
    + destruct pl as [|l0 pl0]; [by apply Forall_nil|].
      apply Forall_fmap, Forall_forall. intros lbs _. simpl. lia.
  - apply Forall_app. split; [done|]. constructor; [|done].
    exists batch. split; [done|]. simpl. by destruct (image_hw _).
Qed.

Lemma evaluate_ids_invariant class2idx categories st :
  evaluate image_hw model dataset class2idx = Some (categories, st) →
  image_ids_inv image_hw dataset st.
Proof.
  unfold evaluate. intros Hrun.
  destruct (for_each _ _ dataset) as [st0|] eqn:Hloop; simplify_eq/=.
  eapply (EngineProofs.for_each_invariant (image_ids_inv image_hw dataset));
    [| |exact Hloop].
  - intros s batch s' Hbatch Hs Hstep. unfold eval_batch in Hstep.
    destruct (model (Voc.images batch)) as [[bboxes cats] scores].
    eapply (EngineProofs.for_each_invariant (image_ids_inv image_hw dataset));
      [|exact Hs|exact Hstep].
    intros s1 k s2 _ Hs1 Hk.
    apply EngineProofs.eval_image_inv in Hk
      as (gl & gb & pl & pb & ps & _ & _ & _ & _ & _ & _ & ->).
    by apply image_step_ids.
  - unfold image_ids_inv. simpl. split_and!; by try constructor.
Qed.

Lemma for_each_count {S A} (body : S → A → option S) (f : S → nat) l : ∀ s s',
  (∀ s x s', body s x = Some s' → f s' = f s + 1) →
  for_each body s l = Some s' → f s' = f s + length l.
Proof.
  induction l as [|x l IH]; intros s s' Hstep Hrun; simplify_eq/=; [lia|].
  destruct (body s x) as [s1|] eqn:Hbody; simplify_eq/=.
  rewrite (IH _ _ Hstep Hrun), (Hstep _ _ _ Hbody). lia.
Qed.

Lemma eval_batch_count batch st st' :
  eval_batch image_hw model st batch = Some st' →
  length (gt_images st')
  = length (gt_images st) + length (model (Voc.images batch)).1.1.
Proof.
  unfold eval_batch.
  destruct (model (Voc.images batch)) as [[bboxes cats] scores]. intros Hrun.
  etrans; [eapply (for_each_count _ (λ s, length (gt_images s)));
             [|exact Hrun] | by rewrite length_seq].
  - intros s k s' Hk.
    apply EngineProofs.eval_image_inv in Hk
      as (gl & gb & pl & pb & ps & _ & _ & _ & _ & _ & _ & ->).
    unfold image_step. simpl. rewrite length_app. simpl. lia.
Qed.

Lemma eval_dataset_count (batches : list (Voc.Batch F Image)) : ∀ st st',
  for_each (eval_batch image_hw model) st batches = Some st' →
  length (gt_images st')
  = length (gt_images st)
    + sum_list ((λ batch, length (model (Voc.images batch)).1.1) <$> batches).
Proof.
  induction batches as [|batch batches IH]; intros st st' Hrun; simplify_eq/=;
    [lia|].
  destruct (eval_batch _ _ st batch) as [st1|] eqn:Hbatch; simplify_eq/=.
  rewrite (IH _ _ Hrun), (eval_batch_count _ _ _ Hbatch). lia.
Qed.

Lemma for_each_snoc {S A B} (body : S → A → option S) (f : S → list B) (v : B) l :
  ∀ s s',
  (∀ s x s', body s x = Some s' → f s' = f s ++ [v]) →
  for_each body s l = Some s' → f s' = f s ++ replicate (length l) v.
Proof.
  induction l as [|x l IH]; intros s s' Hstep Hrun; simplify_eq/=.
  - by rewrite app_nil_r.
  - destruct (body s x) as [s1|] eqn:Hbody; simplify_eq/=.
    rewrite (IH _ _ Hstep Hrun), (Hstep _ _ _ Hbody). by rewrite <- app_assoc.
Qed.

Lemma eval_batch_sizes batch st st' :
  eval_batch image_hw model st batch = Some st' →
  (λ im, (img_height im, img_width im)) <$> gt_images st'
  = ((λ im, (img_height im, img_width im)) <$> gt_images st)
      ++ replicate (length (model (Voc.images batch)).1.1)
                   (image_hw (Voc.images batch)).
Proof.
  unfold eval_batch.
  destruct (model (Voc.images batch)) as [[bboxes cats] scores]. intros Hrun.
  etrans; [eapply (for_each_snoc _ (λ s, (λ im, (img_height im, img_width im))
                                           <$> gt_images s));
             [|exact Hrun] | by rewrite length_seq].
  intros s k s' Hk.
  apply EngineProofs.eval_image_inv in Hk
    as (gl & gb & pl & pb & ps & _ & _ & _ & _ & _ & _ & ->).
  unfold image_step. cbn [gt_images]. rewrite fmap_app. simpl.
  by destruct (image_hw _).
Qed.

Lemma eval_dataset_sizes (batches : list (Voc.Batch F Image)) : ∀ st st',
  for_each (eval_batch image_hw model) st batches = Some st' →
  (λ im, (img_height im, img_width im)) <$> gt_images st'
  = ((λ im, (img_height im, img_width im)) <$> gt_images st)
      ++ concat ((λ batch, replicate (length (model (Voc.images batch)).1.1)
                                     (image_hw (Voc.images batch)))
                   <$> batches).
Proof.
  induction batches as [|batch batches IH]; intros st st' Hrun; simplify_eq/=.
  - by rewrite app_nil_r.
  - destruct (eval_batch _ _ st batch) as [st1|] eqn:Hbatch; simplify_eq/=.
    rewrite (IH _ _ Hrun), (eval_batch_sizes _ _ _ Hbatch). by rewrite <- app_assoc.
Qed.
End Images.

(** X7: in the data handed to COCO by [evaluate] the image records have
    the ids 1, 2, ..., n in order, and their heights and widths are, in
    the same order, those of the batches: the size of a batch is repeated
    once for every image the model answers for in it.  Every ground-truth
    annotation and every detection record refers, by its [image_id], to
    one of these image records. *)
Theorem evaluate_image_ids {F} `{Scalar F} {Image} (image_hw : list Image → Z * Z)
    model (dataset : list (Voc.Batch F Image)) class2idx categories st :
  evaluate image_hw model dataset class2idx = Some (categories, st) →
  img_id <$> gt_images st = seqZ 1 (Z.of_nat (length (gt_images st))) ∧
  (λ im, (img_height im, img_width im)) <$> gt_images st
  = concat ((λ batch, replicate (length (model (Voc.images batch)).1.1)
                                (image_hw (Voc.images batch)))
              <$> dataset) ∧
  (∀ a, a ∈ gt_annotations st → ann_image_id a ∈ img_id <$> gt_images st) ∧
  (∀ r, r ∈ results_coco st → res_image_id r ∈ img_id <$> gt_images st).
Proof.
  intros Hrun.
  pose proof Hrun as (Hids & Hiid & Hann & Hres & _)%evaluate_ids_invariant.
  split_and!; [done| | |].
  - unfold evaluate in Hrun.
    destruct (for_each _ _ dataset) as [st0|] eqn:Hloop; simplify_eq/=.
    by rewrite (eval_dataset_sizes _ _ _ _ _ Hloop).
  - intros a Ha. rewrite Hids. apply elem_of_seqZ.
    eapply Forall_forall in Hann; [|exact Ha]. simpl in Hann. lia.
  - intros r Hr. rewrite Hids. apply elem_of_seqZ.
    eapply Forall_forall in Hres; [|exact Hr]. simpl in Hres. lia.
Qed.

Lemma evaluate_image_ids_witness :
  img_id <$> gt_images sample_state
    = seqZ 1 (Z.of_nat (length (gt_images sample_state))) ∧
  (λ im, (img_height im, img_width im)) <$> gt_images sample_state
  = concat ((λ batch, replicate (length (sample_model (Voc.images batch)).1.1)
                                (sample_hw (Voc.images batch)))
              <$> [sample_batch]) ∧
  (∀ a, a ∈ gt_annotations sample_state →
        ann_image_id a ∈ img_id <$> gt_images sample_state) ∧
  (∀ r, r ∈ results_coco sample_state →
        res_image_id r ∈ img_id <$> gt_images sample_state).
Proof.
  apply (evaluate_image_ids sample_hw sample_model [sample_batch] [("bin", 0%Z)]
           sample_categories sample_state).
  vm_compute. reflexivity.
Defined.

(** X8: [evaluate] handles, in every batch, as many images as the model
    returns box lists for: the number of image records is the sum of these
    numbers over the data set. *)
Theorem evaluate_image_count {F} `{Scalar F} {Image} (image_hw : list Image → Z * Z)
    model (dataset : list (Voc.Batch F Image)) class2idx categories st :
  evaluate image_hw model dataset class2idx = Some (categories, st) →
  length (gt_images st)
  = sum_list ((λ batch, length (model (Voc.images batch)).1.1) <$> dataset).
Proof.
  unfold evaluate. intros Hrun.
  destruct (for_each _ _ dataset) as [st0|] eqn:Hloop; simplify_eq/=.
  by rewrite (eval_dataset_count _ _ _ _ _ Hloop).
Qed.

Lemma evaluate_image_count_witness :
  length (gt_images sample_state)
  = sum_list ((λ batch, length (sample_model (Voc.images batch)).1.1)
                <$> [sample_batch]).
Proof.
  apply (evaluate_image_count sample_hw sample_model [sample_batch]
           [("bin", 0%Z)] sample_categories sample_state).
  vm_compute. reflexivity.
Defined.

Section Raises.
Context {F : Type} `{Scalar F} {Image : Type}.
Variable image_hw : list Image → Z * Z.
Variable model : list Image → list (list (Box F)) * list (list Z) * list (list F).

Lemma eval_batch_runs batch st :
  batch_runs model batch → is_Some (eval_batch image_hw model st batch).
Proof.
  unfold batch_runs, eval_batch.
  destruct (model (Voc.images batch)) as [[bboxes categories] scores]. simpl.
  intros Hruns.
  destruct (EngineProofs.for_each_is_Some (λ _, True)
              (eval_image (image_hw (Voc.images batch)) (Voc.labels batch)
                          (Voc.bbs batch) bboxes categories scores)
              (seq 0 (length bboxes)) st) as (st' & Hrun & _); [|done|by exists st'].
  intros s k Hk%elem_of_seq _.
  destruct (Hruns k) as (gl & gb & Hgl & Hgb & Hlen & [pl Hpl] & [ps Hps]); [lia|].
  destruct (lookup_lt_is_Some_2 bboxes k) as [pb Hpb]; [lia|].
  eexists. split; [|done]. by eapply EngineProofs.eval_image_eq.
Qed.

Lemma eval_batch_runs_inv batch st st' :
  eval_batch image_hw model st batch = Some st' → batch_runs model batch.
Proof.
  unfold batch_runs, eval_batch.
  destruct (model (Voc.images batch)) as [[bboxes categories] scores]. simpl.
  intros Hrun k Hk.
  destruct (EngineProofs.for_each_Some_body _ _ _ _ Hrun k) as (s1 & s2 & Hbody).
  { apply elem_of_seq. lia. }
  apply EngineProofs.eval_image_inv in Hbody
    as (gl & gb & pl & pb & ps & Hgl & Hgb & Hlen & Hpl & _ & Hps & _).
  exists gl, gb. by rewrite Hpl, Hps.
Qed.
End Raises.

(** X9: [evaluate] returns exactly when, for every batch and every image
    the model answers for, the batch holds ground-truth labels and equally
    many ground-truth boxes and the model returns categories and scores;
    in every other case it raises. *)
Theorem evaluate_returns_iff {F} `{Scalar F} {Image}
    (image_hw : list Image → Z * Z) model (dataset : list (Voc.Batch F Image))
    class2idx :
  is_Some (evaluate image_hw model dataset class2idx)
  ↔ Forall (batch_runs model) dataset.
Proof.
  unfold evaluate. split.
  - intros [[categories st] Hrun].
    destruct (for_each _ _ dataset) as [st0|] eqn:Hloop; simplify_eq/=.
    apply Forall_forall. intros batch Hbatch.
    destruct (EngineProofs.for_each_Some_body _ _ _ _ Hloop batch Hbatch)
      as (s1 & s2 & Hbody).
    by eapply eval_batch_runs_inv.
  - intros Hall.
    destruct (EngineProofs.for_each_is_Some (λ _, True) (eval_batch image_hw model)
                dataset initial_state) as (st & -> & _); [|done|by eexists].
    intros s batch Hbatch _. eapply Forall_forall in Hall; [|exact Hbatch].
    destruct (eval_batch_runs image_hw model batch s Hall) as [s' Hs'].
    by exists s'.
Qed.

Lemma evaluate_returns_iff_witness :
  Forall (batch_runs sample_model) [sample_batch].
Proof.
  apply (proj1 (evaluate_returns_iff sample_hw sample_model [sample_batch]
                  [("bin", 0%Z)])).
  vm_compute. by eexists.
Defined.

Section Finish.
Context {F : Type} `{Scalar F} `{ScalarAdd F}.

Lemma annotate_results_spec (results : list Result) : ∀ i,
  Forall (λ r, ∃ b : Box F, res_bbox r = coco_bbox b) results →
  ∃ anns,
    annotate_results i results = Some anns ∧
    ra_result <$> anns = results ∧
    ra_id <$> anns = seqZ (Z.of_nat i + 1) (Z.of_nat (length results)) ∧
    Forall (λ a, ra_iscrowd a = 0%Z ∧
                 ∃ x y w h,
                   res_bbox (ra_result a) = [x; y; w; h] ∧
                   ra_area a = fmul w h ∧
                   ra_segmentation a
                   = [[x; y; x; fadd y h; fadd x w; fadd y h; fadd x w; y]])
           anns.
Proof.
  induction results as [|r results IH]; intros i Hall.
  - exists []. by split_and!.
  - apply Forall_cons in Hall as [[b Hb] Hall].
    destruct (IH (S i) Hall) as (anns & Hrun & Hres & Hids & Hrec).
    cbn [annotate_results]. unfold annotate_result. rewrite Hb. simpl.
    rewrite Hrun. simpl. eexists. split; [done|]. split_and!.
    + by rewrite fmap_cons, Hres.
    + rewrite fmap_cons, Hids. cbn [length ra_id]. rewrite Nat2Z.inj_succ.
      rewrite (seqZ_cons (Z.of_nat i + 1)) by lia.
      f_equal. f_equal; lia.
    + constructor; [|done]. split; [done|]. simpl. rewrite Hb.
      by eexists _, _, _, _.
Qed.
End Finish.

(** X10: once the loop of [evaluate] has run, the rest cannot raise: every
    detection record has a bbox of four entries.  The result data set then
    shares the image and category records of the ground truth, keeps the
    detection records in order and unchanged, numbers them 1, 2, ..., m,
    sets [iscrowd] to 0, the area to width times height of the bbox, and
    the segmentation to the four corners of the bbox. *)
Theorem coco_eval_inputs_finish {F} `{Scalar F} `{ScalarAdd F} {Image}
    (image_hw : list Image → Z * Z) model (dataset : list (Voc.Batch F Image))
    class2idx categories st :
  evaluate image_hw model dataset class2idx = Some (categories, st) →
  ∃ anns,
    coco_eval_inputs image_hw model dataset class2idx
    = Some (mkCocoDataset (gt_images st) categories (gt_annotations st),
            mkCocoDataset (gt_images st) categories anns) ∧
    ra_result <$> anns = results_coco st ∧
    ra_id <$> anns = seqZ 1 (Z.of_nat (length (results_coco st))) ∧
    Forall (λ a, ra_iscrowd a = 0%Z ∧
                 ∃ x y w h,
                   res_bbox (ra_result a) = [x; y; w; h] ∧
                   ra_area a = fmul w h ∧
                   ra_segmentation a
                   = [[x; y; x; fadd y h; fadd x w; fadd y h; fadd x w; y]])
           anns.
Proof.
  intros Hrun. unfold coco_eval_inputs. rewrite Hrun. simpl.
  destruct (EngineProofs.eval_inv_results _ _ _ _ _ _ Hrun) as [Hres _].
  destruct (annotate_results_spec (results_coco st) 0)
    as (anns & Hann & Hr & Hids & Hrec).
  { eapply Forall_impl; [exact Hres|].
    intros r (? & ? & ? & ? & ? & ? & ? & b & ? & _ & _ & _ & _ & _ & _ & _ & _ & Hb & _).
    by exists b. }
  exists anns. rewrite Hann. simpl. by split_and!.
Qed.

Lemma coco_eval_inputs_finish_witness :
  ∃ anns,
    coco_eval_inputs sample_hw sample_model [sample_batch] [("bin", 0%Z)]
    = Some (mkCocoDataset (gt_images sample_state) sample_categories
                          (gt_annotations sample_state),
            mkCocoDataset (gt_images sample_state) sample_categories anns) ∧
    ra_result <$> anns = results_coco sample_state ∧
    ra_id <$> anns = seqZ 1 (Z.of_nat (length (results_coco sample_state))) ∧
    Forall (λ a, ra_iscrowd a = 0%Z ∧
                 ∃ x y w h,
                   res_bbox (ra_result a) = [x; y; w; h] ∧
                   ra_area a = fmul w h ∧
                   ra_segmentation a
                   = [[x; y; x; fadd y h; fadd x w; fadd y h; fadd x w; y]])
           anns.
Proof.
  apply (coco_eval_inputs_finish sample_hw sample_model [sample_batch]
           [("bin", 0%Z)] sample_categories sample_state).
  vm_compute. reflexivity.
Defined.

(** X11: in exact arithmetic the segmentation computed at the end of
    [evaluate] undoes the conversion of [_COCO_result]: for the record of a
    box (x1, y1, x2, y2) its corners are (x1, y1), (x1, y2), (x2, y2) and
    (x2, y1), and its area is (x2 - x1) * (y2 - y1). *)
Theorem segmentation_round_trip (image_id : Z) (i : nat) (l : Z) (b : Box Q)
    (s : Q) (r : Result) :
  _COCO_result image_id [l] [b] [s] = [r] →
  ∃ a x2 y2,
    annotate_result i r = Some a ∧
    ra_segmentation a = [[bx1 b; by1 b; bx1 b; y2; x2; y2; x2; by1 b]] ∧
    (x2 == bx2 b)%Q ∧ (y2 == by2 b)%Q ∧
    (ra_area a == (bx2 b - bx1 b) * (by2 b - by1 b))%Q.
Proof.
  rewrite EngineProofs.COCO_result_eq. intros [= <-].
  eexists _, _, _. split; [reflexivity|]. simpl.
  split_and!; [done | ring | ring | ring].
Qed.

Lemma segmentation_round_trip_witness :
  ∃ a x2 y2,
    annotate_result 0 (mkResult 1 0 [10; 20; 50 - 10; 80 - 20]%Q (9 # 10)%Q)
    = Some a ∧
    ra_segmentation a = [[10; 20; 10; y2; x2; y2; x2; 20]]%Q ∧
    (x2 == 50)%Q ∧ (y2 == 80)%Q ∧
    (ra_area a == (50 - 10) * (80 - 20))%Q.
Proof.
  apply (segmentation_round_trip 1 0 0 (mkBox 10 20 50 80)%Q (9 # 10)%Q).
  reflexivity.
Defined.
End EngineExtra.

(* ===================================================================== *)
(** * Further properties of the model (efficientdet.py) *)
(* ===================================================================== *)

Module DetectorExtra.
Import Detector.

Section Init.
Context {F Image Features FeatureMap : Type} `{Utils F}.

Lemma init_total (cfg : AnchorsConfig F) nc
    (backbone0 : list Image → bool → Features)
    (neck0 : Features → bool → list FeatureMap) class_head0 bb_head0 :
  5 ≤ length (sizes cfg) → 5 ≤ length (strides cfg) →
  is_Some (init cfg nc backbone0 neck0 class_head0 bb_head0).
Proof.
  intros Hs Ht. unfold init. cbn [seq mapM]. simpl.
  destruct (sizes cfg) as [|s3 [|s4 [|s5 [|s6 [|s7 ?]]]]]; simpl in Hs; try lia.
  destruct (strides cfg) as [|t3 [|t4 [|t5 [|t6 [|t7 ?]]]]]; simpl in Ht; try lia.
  simpl. by eexists.
Qed.
End Init.

(** X12: [__init__] raises [IndexError] unless the anchors configuration
    has at least five sizes and five strides; entries after the fifth are
    never read. *)
Theorem init_index_error {F Image Features FeatureMap} `{Utils F}
    (cfg : AnchorsConfig F) nc
    (backbone0 : list Image → bool → Features)
    (neck0 : Features → bool → list FeatureMap) class_head0 bb_head0 :
  (is_Some (init cfg nc backbone0 neck0 class_head0 bb_head0)
   ↔ 5 ≤ length (sizes cfg) ∧ 5 ≤ length (strides cfg)) ∧
  init cfg nc backbone0 neck0 class_head0 bb_head0
  = init (mkAnchorsConfig (take 5 (sizes cfg)) (ratios cfg) (take 5 (strides cfg)))
         nc backbone0 neck0 class_head0 bb_head0.
Proof.
  split.
  - split.
    + intros [self Hinit].
      apply DetectorProofs.init_inv in Hinit
        as (? & ? & ? & ? & ? & ? & ? & ? & ? & ? &
            _ & _ & _ & _ & Hs & _ & _ & _ & _ & Ht & _).
      apply lookup_lt_Some in Hs, Ht. lia.
    + intros [Hs Ht]. by apply init_total.
  - unfold init. cbn [seq mapM]. simpl.
    by destruct (sizes cfg) as [|s3 [|s4 [|s5 [|s6 [|s7 ?]]]]],
                (strides cfg) as [|t3 [|t4 [|t5 [|t6 [|t7 ?]]]]].
Qed.

Lemma init_index_error_witness :
  5 ≤ length (sizes toy_config) ∧ 5 ≤ length (strides toy_config).
Proof.
  apply (proj1 (proj1 (init_index_error toy_config 1 toy_backbone toy_neck
                         toy_class_head toy_bb_head))).
  vm_compute. by eexists.
Defined.








End DetectorExtra.

(* ===================================================================== *)
(** * Properties of the training loop (engine.py) *)
(* ===================================================================== *)

Module TrainExtra.
Import Train.

Lemma div_succ (i q : Z) :
  (0 ≤ i)%Z → (0 < q)%Z →
  ((i + 1) `div` q = i `div` q + if decide ((i + 1) `mod` q = 0) then 1 else 0)%Z.
Proof.
  intros Hi Hq.
  pose proof (Z.div_mod (i + 1) q ltac:(lia)) as Ha.
  pose proof (Z.mod_pos_bound (i + 1) q Hq) as Hma.
  case_decide as Hz.
  - assert ((i + 1) `div` q - 1 = i `div` q)%Z as <-; [|lia].
    apply (Z.div_unique i q _ (q - 1)); [lia | nia].
  - rewrite Z.add_0_r.
    apply (Z.div_unique i q _ ((i + 1) `mod` q - 1)); [lia | nia].
Qed.

Lemma mod_abs_zero (a p : Z) :
  p ≠ 0%Z → (a `mod` p = 0 ↔ a `mod` Z.abs p = 0)%Z.
Proof.
  intros Hp. rewrite !Z.mod_divide by lia. symmetry. apply Z.divide_abs_l.
Qed.

Section Epoch.
Context {F : Type} `{Scalar F} `{ScalarAdd F}.
Context {Weights Image Anchors Regressors Probas Grads RegTargets ClfTargets : Type}.
Variable forward : Weights → list Image → Regressors * Probas.
Variable gradient : (Weights → F) → Weights → Grads.
Variable apply_gradients : Grads → Weights → Weights.
Variable anchor_targets_bbox :
  Anchors → list Image → list (list (Box F)) → list (list Z) → Z →
  RegTargets * ClfTargets.
Variable loss_fn : LossFn (F := F) (Regressors := Regressors) (Probas := Probas)
                          (RegTargets := RegTargets) (ClfTargets := ClfTargets).
Variable anchors : Anchors.
Variable num_classes : Z.

Lemma train_loop_lines (epoch print_every : Z) dataset : ∀ (s : TrainState) i,
  print_every ≠ 0%Z →
  ∃ s', train_loop forward gradient apply_gradients anchor_targets_bbox loss_fn
          anchors epoch num_classes print_every s i dataset = Returned s' ∧
        (Z.of_nat (length (printed s'))
         = Z.of_nat (length (printed s))
           + (Z.of_nat i + Z.of_nat (length dataset)) `div` Z.abs print_every
           - Z.of_nat i `div` Z.abs print_every)%Z ∧
        count (running_loss s')
        = (count (running_loss s) + Z.of_nat (length dataset))%Z.
Proof.
  induction dataset as [|batch dataset IH]; intros s i Hp.
  - exists s. split; [done|]. simpl. rewrite !Z.add_0_r. lia.
  - cbn [train_loop].
    destruct (anchor_targets_bbox _ _ _ _ _) as [target_reg target_clf].
    destruct (_train_step _ _ _ _ _ _ _ _) as [w [reg_loss clf_loss]].
    rewrite decide_False by done.
    case_decide as Hmod;
      pose proof (div_succ (Z.of_nat i) (Z.abs print_every)) as Hdiv.
    + match goal with
      | |- context [train_loop _ _ _ _ _ _ _ _ _ ?s0 ?i0 dataset] =>
          destruct (IH s0 i0 Hp) as (s' & Hrun & Hlen & Hcnt)
      end.
      exists s'. split; [exact Hrun|]. rewrite Hlen, Hcnt. cbn [printed running_loss].
      rewrite length_app. cbn [length mean_update count].
      rewrite decide_True in Hdiv by exact (proj1 (mod_abs_zero _ _ Hp) Hmod).
      replace (Z.of_nat (S i)) with (Z.of_nat i + 1)%Z by lia.
      replace (Z.of_nat i + Z.of_nat (S (length dataset)))%Z
        with (Z.of_nat i + 1 + Z.of_nat (length dataset))%Z by lia.
      lia.
    + match goal with
      | |- context [train_loop _ _ _ _ _ _ _ _ _ ?s0 ?i0 dataset] =>
          destruct (IH s0 i0 Hp) as (s' & Hrun & Hlen & Hcnt)
      end.
      exists s'. split; [exact Hrun|]. rewrite Hlen, Hcnt. cbn [printed running_loss].
      cbn [length mean_update count].
      rewrite decide_False in Hdiv
        by (intros Hm; exact (Hmod (proj2 (mod_abs_zero _ _ Hp) Hm))).
      replace (Z.of_nat (S i)) with (Z.of_nat i + 1)%Z by lia.
      replace (Z.of_nat i + Z.of_nat (S (length dataset)))%Z
        with (Z.of_nat i + 1 + Z.of_nat (length dataset))%Z by lia.
      lia.
Qed.

(** Two states with the same weights and the same running means. *)
Lemma train_loop_agree (epoch epoch' print_every print_every' : Z) dataset :
  ∀ (s s' : TrainState) i i',
  print_every ≠ 0%Z → print_every' ≠ 0%Z →
  weights s = weights s' →
  running_loss s = running_loss s' →
  running_clf_loss s = running_clf_loss s' →
  running_reg_loss s = running_reg_loss s' →
  ∃ r r',
    train_loop forward gradient apply_gradients anchor_targets_bbox loss_fn
      anchors epoch num_classes print_every s i dataset = Returned r ∧
    train_loop forward gradient apply_gradients anchor_targets_bbox loss_fn
      anchors epoch' num_classes print_every' s' i' dataset = Returned r' ∧
    weights r = weights r' ∧
    running_loss r = running_loss r' ∧
    running_clf_loss r = running_clf_loss r' ∧
    running_reg_loss r = running_reg_loss r'.
Proof.
  induction dataset as [|batch dataset IH]; intros s s' i i' Hp Hp' Hw Hl Hc Hr.
  - by exists s, s'.
  - cbn [train_loop]. rewrite <- Hw, <- Hl, <- Hc, <- Hr.
    destruct (anchor_targets_bbox _ _ _ _ _) as [target_reg target_clf].
    destruct (_train_step _ _ _ _ _ _ _ _) as [w [reg_loss clf_loss]].
    rewrite (decide_False (P := print_every = 0%Z)) by done.
    rewrite (decide_False (P := print_every' = 0%Z)) by done.
    repeat case_decide; by apply IH.
Qed.

Lemma train_loop_app (epoch print_every : Z) l1 : ∀ l2 (s : TrainState) i,
  train_loop forward gradient apply_gradients anchor_targets_bbox loss_fn
    anchors epoch num_classes print_every s i (l1 ++ l2)
  = match train_loop forward gradient apply_gradients anchor_targets_bbox
            loss_fn anchors epoch num_classes print_every s i l1 with
    | Returned s1 =>
        train_loop forward gradient apply_gradients anchor_targets_bbox loss_fn
          anchors epoch num_classes print_every s1 (i + length l1) l2
    | ZeroDivision s1 => ZeroDivision s1
    end.
Proof.
  induction l1 as [|batch l1 IH]; intros l2 s i.
  - simpl. by rewrite Nat.add_0_r.
  - cbn [train_loop app length].
    destruct (anchor_targets_bbox _ _ _ _ _) as [target_reg target_clf].
    destruct (_train_step _ _ _ _ _ _ _ _) as [w [reg_loss clf_loss]].
    case_decide; [done|].
    case_decide; rewrite IH;
      by replace (S i + length l1) with (i + S (length l1)) by lia.
Qed.
End Epoch.

(** X15: for a non-zero [print_every], [train_single_epoch] returns after
    one training step per batch.  On an empty data set nothing changes; a
    further batch at the end of the data set adds exactly one
    [_train_step] on that batch, from the weights reached before it, adds
    the losses of this step to the three running means, and prints one
    line, with the new means, exactly when the number of batches so far is
    a multiple of [print_every].  In all [len(dataset) // |print_every|]
    lines are printed.  For [print_every = 0] and a data set that is not
    empty it raises [ZeroDivisionError] after the training step on the
    first batch, with nothing printed. *)
Theorem train_print_schedule {F} `{Scalar F} `{ScalarAdd F}
    {Weights Image Anchors Regressors Probas Grads RegTargets ClfTargets : Type}
    (forward : Weights → list Image → Regressors * Probas)
    (gradient : (Weights → F) → Weights → Grads)
    (apply_gradients : Grads → Weights → Weights)
    (anchor_targets_bbox :
       Anchors → list Image → list (list (Box F)) → list (list Z) → Z →
       RegTargets * ClfTargets)
    (w : Weights) (anchors : Anchors) (dataset : list (Voc.Batch F Image))
    (loss_fn : ClfTargets → Probas → RegTargets → Regressors → F * F)
    (epoch num_classes print_every : Z) :
  (print_every ≠ 0%Z →
   ∃ s, train_single_epoch forward gradient apply_gradients anchor_targets_bbox
          w anchors dataset loss_fn epoch num_classes print_every = Returned s ∧
        Z.of_nat (length (printed s))
        = (Z.of_nat (length dataset) `div` Z.abs print_every)%Z ∧
        count (running_loss s) = Z.of_nat (length dataset)) ∧
  train_single_epoch forward gradient apply_gradients anchor_targets_bbox
    w anchors [] loss_fn epoch num_classes print_every
  = Returned (mkTrainState w mean_new mean_new mean_new []) ∧
  (print_every ≠ 0%Z →
   ∀ batch s,
     train_single_epoch forward gradient apply_gradients anchor_targets_bbox
       w anchors dataset loss_fn epoch num_classes print_every = Returned s →
     ∃ s' reg_loss clf_loss,
       train_single_epoch forward gradient apply_gradients anchor_targets_bbox
         w anchors (dataset ++ [batch]) loss_fn epoch num_classes print_every
       = Returned s' ∧
       (weights s', (reg_loss, clf_loss))
       = _train_step forward gradient apply_gradients loss_fn (weights s)
           (Voc.images batch)
           (anchor_targets_bbox anchors (Voc.images batch) (Voc.bbs batch)
                                (Voc.labels batch) num_classes).1
           (anchor_targets_bbox anchors (Voc.images batch) (Voc.bbs batch)
                                (Voc.labels batch) num_classes).2 ∧
       running_loss s' = mean_update (running_loss s) (fadd reg_loss clf_loss) ∧
       running_clf_loss s' = mean_update (running_clf_loss s) clf_loss ∧
       running_reg_loss s' = mean_update (running_reg_loss s) reg_loss ∧
       printed s'
       = printed s
           ++ if decide (((Z.of_nat (length dataset) + 1) `mod` print_every)%Z
                         = 0%Z)
              then [mkLogLine epoch (mean_result (running_loss s'))
                              (mean_result (running_clf_loss s'))
                              (mean_result (running_reg_loss s'))]
              else []) ∧
  (print_every = 0%Z → dataset ≠ [] →
   ∃ s, train_single_epoch forward gradient apply_gradients anchor_targets_bbox
          w anchors dataset loss_fn epoch num_classes print_every
        = ZeroDivision s ∧
        printed s = [] ∧ count (running_loss s) = 1%Z ∧
        ∃ batch, head dataset = Some batch ∧
          weights s
          = (_train_step forward gradient apply_gradients loss_fn w
               (Voc.images batch)
               (anchor_targets_bbox anchors (Voc.images batch) (Voc.bbs batch)
                                    (Voc.labels batch) num_classes).1
               (anchor_targets_bbox anchors (Voc.images batch) (Voc.bbs batch)
                                    (Voc.labels batch) num_classes).2).1).
Proof.
  unfold train_single_epoch. split_and!.
  - intros Hp.
    destruct (train_loop_lines forward gradient apply_gradients
                anchor_targets_bbox loss_fn anchors num_classes epoch
                print_every dataset
                (mkTrainState w mean_new mean_new mean_new []) 0 Hp)
      as (s & Hrun & Hlen & Hcnt).
    exists s. split; [exact Hrun|]. rewrite Hlen, Hcnt.
    cbn [printed running_loss length mean_new count].
    change (Z.of_nat 0) with 0%Z.
    rewrite !Z.add_0_l, Z.div_0_l by lia. split; lia.
  - done.
  - intros Hp batch s Hrun.
    rewrite train_loop_app, Hrun. cbn [train_loop Nat.add].
    destruct (anchor_targets_bbox _ _ _ _ _) as [target_reg target_clf].
    cbn [fst snd].
    destruct (_train_step _ _ _ _ _ _ _ _) as [w' [reg_loss clf_loss]].
    rewrite decide_False by done.
    case_decide; eexists _, reg_loss, clf_loss; (split; [done|]);
      cbn [weights running_loss running_clf_loss running_reg_loss printed];
      split_and!; try done.
    by rewrite app_nil_r.
  - intros -> Hne. destruct dataset as [|batch rest]; [done|].
    cbn [train_loop weights head].
    destruct (anchor_targets_bbox _ _ _ _ _) as [target_reg target_clf] eqn:Hatb.
    destruct (_train_step _ _ _ _ _ _ _ _) as [w' [reg_loss clf_loss]] eqn:Hstep.
    rewrite decide_True by done. eexists. split; [done|].
    split_and!; [done..|]. exists batch. split; [done|].
    rewrite Hatb. cbn [fst snd]. by rewrite Hstep.
Qed.

(** X16: what is printed has no influence on the training: whatever the
    (non-zero) [print_every] and the epoch number, the weights and the
    three running means at the end of the epoch are the same. *)
Theorem train_independent_of_printing {F} `{Scalar F} `{ScalarAdd F}
    {Weights Image Anchors Regressors Probas Grads RegTargets ClfTargets : Type}
    (forward : Weights → list Image → Regressors * Probas)
    (gradient : (Weights → F) → Weights → Grads)
    (apply_gradients : Grads → Weights → Weights)
    (anchor_targets_bbox :
       Anchors → list Image → list (list (Box F)) → list (list Z) → Z →
       RegTargets * ClfTargets)
    (w : Weights) (anchors : Anchors) (dataset : list (Voc.Batch F Image))
    (loss_fn : ClfTargets → Probas → RegTargets → Regressors → F * F)
    (epoch epoch' num_classes print_every print_every' : Z) :
  print_every ≠ 0%Z → print_every' ≠ 0%Z →
  ∃ s s',
    train_single_epoch forward gradient apply_gradients anchor_targets_bbox
      w anchors dataset loss_fn epoch num_classes print_every = Returned s ∧
    train_single_epoch forward gradient apply_gradients anchor_targets_bbox
      w anchors dataset loss_fn epoch' num_classes print_every' = Returned s' ∧
    weights s = weights s' ∧
    running_loss s = running_loss s' ∧
    running_clf_loss s = running_clf_loss s' ∧
    running_reg_loss s = running_reg_loss s'.
Proof.
  intros Hp Hp'. unfold train_single_epoch. by apply train_loop_agree.
Qed.

Lemma train_print_schedule_witness :
  (∃ s, toy_epoch 2 = Returned s ∧
        Z.of_nat (length (printed s)) = (Z.of_nat 3 `div` Z.abs 2)%Z ∧
        count (running_loss s) = Z.of_nat 3) ∧
  (∃ s, toy_epoch 0 = ZeroDivision s ∧
        printed s = [] ∧ count (running_loss s) = 1%Z ∧
        ∃ batch, head [sample_batch; sample_batch; sample_batch] = Some batch ∧
          weights s
          = (_train_step toy_forward toy_gradient toy_apply_gradients toy_loss_fn
               0%Q (Voc.images batch)
               (toy_targets tt (Voc.images batch) (Voc.bbs batch)
                            (Voc.labels batch) 1).1
               (toy_targets tt (Voc.images batch) (Voc.bbs batch)
                            (Voc.labels batch) 1).2).1) ∧
  (∃ s' reg_loss clf_loss,
     train_single_epoch toy_forward toy_gradient toy_apply_gradients toy_targets
       0%Q tt ([sample_batch] ++ [sample_batch]) toy_loss_fn 1 1 2
     = Returned s' ∧
     (weights s', (reg_loss, clf_loss))
     = _train_step toy_forward toy_gradient toy_apply_gradients toy_loss_fn
         (weights toy_first_step) (Voc.images sample_batch)
         (toy_targets tt (Voc.images sample_batch) (Voc.bbs sample_batch)
                      (Voc.labels sample_batch) 1).1
         (toy_targets tt (Voc.images sample_batch) (Voc.bbs sample_batch)
                      (Voc.labels sample_batch) 1).2 ∧
     running_loss s'
     = mean_update (running_loss toy_first_step) (fadd reg_loss clf_loss) ∧
     running_clf_loss s' = mean_update (running_clf_loss toy_first_step) clf_loss ∧
     running_reg_loss s' = mean_update (running_reg_loss toy_first_step) reg_loss ∧
     printed s'
     = printed toy_first_step
         ++ if decide (((Z.of_nat (length [sample_batch]) + 1) `mod` 2)%Z = 0%Z)
            then [mkLogLine 1 (mean_result (running_loss s'))
                            (mean_result (running_clf_loss s'))
                            (mean_result (running_reg_loss s'))]
            else []).
Proof.
  refine (conj _ (conj _ _)).
  - refine (proj1 (train_print_schedule toy_forward toy_gradient
                     toy_apply_gradients toy_targets 0%Q tt
                     [sample_batch; sample_batch; sample_batch] toy_loss_fn
                     1 1 2) _).
    lia.
  - refine (proj2 (proj2 (proj2 (train_print_schedule toy_forward toy_gradient
                     toy_apply_gradients toy_targets 0%Q tt
                     [sample_batch; sample_batch; sample_batch] toy_loss_fn
                     1 1 0))) _ _); done.
  - refine (proj1 (proj2 (proj2 (train_print_schedule toy_forward toy_gradient
                     toy_apply_gradients toy_targets 0%Q tt
                     [sample_batch] toy_loss_fn 1 1 2))) _ sample_batch
                     toy_first_step _).
    + lia.
    + vm_compute. reflexivity.
Defined.

Lemma train_independent_of_printing_witness :
  ∃ s s',
    toy_epoch 2 = Returned s ∧
    train_single_epoch toy_forward toy_gradient toy_apply_gradients toy_targets
      0%Q tt [sample_batch; sample_batch; sample_batch] toy_loss_fn 7 1 (-1)
    = Returned s' ∧
    weights s = weights s' ∧
    running_loss s = running_loss s' ∧
    running_clf_loss s = running_clf_loss s' ∧
    running_reg_loss s = running_reg_loss s'.
Proof.
  refine (train_independent_of_printing toy_forward toy_gradient
            toy_apply_gradients toy_targets 0%Q tt
            [sample_batch; sample_batch; sample_batch] toy_loss_fn
            1 7 1 2 (-1) _ _); lia.
Defined.
End TrainExtra.

(* ===================================================================== *)
(** * The data set and the evaluation together *)
(* ===================================================================== *)

Module PipelineExtra.
Import Voc Engine.

Lemma annotation_categories_from_items {F} `{Scalar F} {Image}
    (shuffle128 : list (Batch F Image) → list (Batch F Image))
    annot_files (im_ds : list Image) im_input_size shuffle batch_size ds
    (image_hw : list Image → Z * Z) model (items : list (string * Z))
    categories st a :
  (∀ n i, LABEL_2_IDX !! n = Some i → (n, i) ∈ items) →
  (∀ l, shuffle128 l ≡ₚ l) →
  build_dataset shuffle128 annot_files im_ds im_input_size shuffle batch_size
    = Some ds →
  evaluate image_hw model ds items = Some (categories, st) →
  a ∈ gt_annotations st →
  ∃ c, c ∈ categories ∧ cat_id c = ann_category_id a ∧
       LABEL_2_IDX !! cat_name c = Some (cat_id c).
Proof.
  intros Hitems Hperm Hb Hrun Ha.
  destruct (EngineProofs.eval_inv_results _ _ _ _ _ _ Hrun) as [_ Hann].
  eapply Forall_forall in Hann; [|exact Ha].
  destruct Hann as (batch & k & gl & gb & j & l & b &
                    Hbatch & Hgl & Hgb & Hl & _ & Hne & Hcat & _).
  destruct (VocProofs.batch_structure _ _ _ _ _ _ _ _ Hperm Hb Hbatch)
    as (_ & _ & _ & n & _ & Hk).
  destruct (Hk _ _ _ Hgl Hgb) as (_ & _ & annot & rl & rb & _ & Hread & -> & _).
  apply list_elem_of_lookup_2, elem_of_app in Hl as [Hl | Hl%elem_of_replicate_inv];
    [|done].
  apply VocProofs.read_voc_annot_inv in Hread as [Hall _].
  apply list_elem_of_lookup in Hl as [i Hi].
  destruct (Forall2_lookup_r _ _ _ _ _ Hall Hi) as (o & _ & Ho).
  unfold evaluate in Hrun.
  destruct (for_each _ _ ds) as [st0|]; [|discriminate Hrun].
  injection Hrun as <- _. subst l.
  exists (mkCategory "instance" (ann_category_id a) (name o)).
  split_and!; [|done..].
  apply list_elem_of_fmap. exists (name o, ann_category_id a). split; [done|].
  by apply Hitems.
Qed.

(** X17: when [evaluate] runs on a data set made by [build_dataset] with
    the items of [LABEL_2_IDX] as [class2idx], the category id of every
    ground-truth annotation is the id of one of the category records. *)
Theorem annotation_categories_known {F} `{Scalar F} {Image}
    (shuffle128 : list (Batch F Image) → list (Batch F Image))
    annot_files (im_ds : list Image) im_input_size shuffle batch_size ds
    (image_hw : list Image → Z * Z) model categories st a :
  (∀ l, shuffle128 l ≡ₚ l) →
  build_dataset shuffle128 annot_files im_ds im_input_size shuffle batch_size
    = Some ds →
  evaluate image_hw model ds (map_to_list LABEL_2_IDX) = Some (categories, st) →
  a ∈ gt_annotations st →
  ∃ c, c ∈ categories ∧ cat_id c = ann_category_id a ∧
       LABEL_2_IDX !! cat_name c = Some (cat_id c).
Proof.
  apply annotation_categories_from_items.
  intros n i Hn. by apply elem_of_map_to_list.
Qed.

Lemma annotation_categories_known_witness :
  ∃ c, c ∈ sample_categories ∧
       cat_id c = ann_category_id
                    (mkAnnot 1 1 [128 # 10; 128 # 10; 5120 # 100; 5120 # 100]%Q 0
                             (26214400 # 10000)%Q 0) ∧
       LABEL_2_IDX !! cat_name c = Some (cat_id c).
Proof.
  refine (annotation_categories_known (Image := nat) id [annot0; annot1] [7; 8]
            (128, 128)%Z false 2 [sample_batch] sample_hw sample_model
            sample_categories sample_state _ (λ l, reflexivity l) _ _ _).
  - vm_compute. reflexivity.
  - vm_compute. reflexivity.
  - apply list_elem_of_here.
Defined.
End PipelineExtra.
